(** * Delivr: command runner with webhook notifications and rotating logs

    A shallow embedding of the Go packages [discord], [logger], [command]
    and of the command loop of [main], followed by the properties of the
    specification that are settled on it.

    Go strings are byte sequences: they are modelled as [string] (a list of
    8-bit [ascii] values), [len] is the number of bytes and [s[:n]] keeps the
    first [n] bytes.  Where Go reads a string as text it decodes UTF-8: the
    characters of a string are the runes that [range] yields, a byte that
    is not part of an encoding counting as U+FFFD.  A Go [error] is
    modelled by its message. *)

From Stdlib Require Import Ascii String NArith ZArith List Lia.
From Stdlib Require Import Decimal DecimalString.
From stdpp Require Import base option gmap strings list.


(** ** UTF-8: the parts of [unicode/utf8] behind the strings of Go *)

Module Utf8.

(** A byte as a number, and the conversion [byte(x)] of a number that fits
    in eight bits. *)
Definition byteZ (c : ascii) : Z := Z.of_N (N_of_ascii c).

Definition byte (z : Z) : ascii := ascii_of_N (Z.to_N z).

(** [utf8.RuneError], the replacement character U+FFFD. *)
Definition RuneError : Z := 0xFFFD.

(** [utf8.MaxRune]. *)
Definition MaxRune : Z := 0x10FFFF.

(** [utf8.ValidRune]: a code point that is not a surrogate half. *)
Definition ValidRune (r : Z) : bool :=
  ((0 <=? r) && (r <? 0xD800) || (0xDFFF <? r) && (r <=? MaxRune))%Z.

(** The table [acceptRanges]: the values allowed for the second byte of
    an encoding, by its first byte. *)
Definition acceptRange (s0 : Z) : Z * Z :=
  (if s0 =? 0xE0 then (0xA0, 0xBF)
   else if s0 =? 0xED then (0x80, 0x9F)
   else if s0 =? 0xF0 then (0x90, 0xBF)
   else if s0 =? 0xF4 then (0x80, 0x8F)
   else (0x80, 0xBF))%Z.

Definition outside (lo hi b : Z) : bool := ((b <? lo) || (hi <? b))%Z.

(** [utf8.DecodeRuneInString]: the first rune of a string and its width in
    bytes.  A first byte from 0x80 to 0xC1 or above 0xF4, an encoding that
    is cut short and a following byte out of its range give [RuneError]
    with width 1. *)
Definition DecodeRuneInString (s : string) : Z * nat :=
  match s with
  | EmptyString => (RuneError, 0%nat)
  | String c0 t0 =>
      let s0 := byteZ c0 in
      if (s0 <? 0x80)%Z then (s0, 1%nat)
      else if outside 0xC2 0xF4 s0 then (RuneError, 1%nat)
      else
        let sz := (if s0 <? 0xE0 then 2 else if s0 <? 0xF0 then 3 else 4)%Z in
        let (lo, hi) := acceptRange s0 in
        match t0 with
        | EmptyString => (RuneError, 1%nat)
        | String c1 t1 =>
            let s1 := byteZ c1 in
            if outside lo hi s1 then (RuneError, 1%nat)
            else if (sz <=? 2)%Z then
              (Z.lor (Z.shiftl (Z.land s0 0x1F) 6) (Z.land s1 0x3F), 2%nat)
            else
              match t1 with
              | EmptyString => (RuneError, 1%nat)
              | String c2 t2 =>
                  let s2 := byteZ c2 in
                  if outside 0x80 0xBF s2 then (RuneError, 1%nat)
                  else if (sz <=? 3)%Z then
                    (Z.lor (Z.lor (Z.shiftl (Z.land s0 0x0F) 12)
                                  (Z.shiftl (Z.land s1 0x3F) 6))
                           (Z.land s2 0x3F), 3%nat)
                  else
                    match t2 with
                    | EmptyString => (RuneError, 1%nat)
                    | String c3 t3 =>
                        let s3 := byteZ c3 in
                        if outside 0x80 0xBF s3 then (RuneError, 1%nat)
                        else
                          (Z.lor (Z.lor (Z.lor (Z.shiftl (Z.land s0 0x07) 18)
                                               (Z.shiftl (Z.land s1 0x3F) 12))
                                        (Z.shiftl (Z.land s2 0x3F) 6))
                                 (Z.land s3 0x3F), 4%nat)
                    end
              end
        end
  end.

(** The runes that [for _, c := range s] yields.  [skip] counts the bytes
    of the rune just decoded that remain to be passed over. *)
Fixpoint rangeOver (skip : nat) (s : string) : list Z :=
  match s with
  | EmptyString => []
  | String c t =>
      match skip with
      | S k => rangeOver k t
      | O =>
          let (r, width) := DecodeRuneInString s in
          r :: rangeOver (width - 1) t
      end
  end.

Definition runes (s : string) : list Z := rangeOver 0 s.

(** [utf8.RuneCountInString]: the number of characters of a string. *)
Definition RuneCountInString (s : string) : nat := length (runes s).

(** [utf8.AppendRune], as [strings.Builder.WriteRune] uses it: the encoding
    of a rune; a surrogate half or a value out of range is written as
    [RuneError]. *)
Definition AppendRune (r : Z) : string :=
  if ((0 <=? r) && (r <=? 0x7F))%Z then String (byte r) EmptyString
  else if ((0 <=? r) && (r <=? 0x7FF))%Z then
    String (byte (Z.lor 0xC0 (Z.shiftr r 6)))
   (String (byte (Z.lor 0x80 (Z.land r 0x3F))) EmptyString)
  else
    let r := if ((r <? 0) || (MaxRune <? r)
                 || (0xD800 <=? r) && (r <=? 0xDFFF))%Z
             then RuneError else r in
    if (r <=? 0xFFFF)%Z then
      String (byte (Z.lor 0xE0 (Z.shiftr r 12)))
     (String (byte (Z.lor 0x80 (Z.land (Z.shiftr r 6) 0x3F)))
     (String (byte (Z.lor 0x80 (Z.land r 0x3F))) EmptyString))
    else
      String (byte (Z.lor 0xF0 (Z.shiftr r 18)))
     (String (byte (Z.lor 0x80 (Z.land (Z.shiftr r 12) 0x3F)))
     (String (byte (Z.lor 0x80 (Z.land (Z.shiftr r 6) 0x3F)))
     (String (byte (Z.lor 0x80 (Z.land r 0x3F))) EmptyString))).

(** The text made of the given characters. *)
Fixpoint AppendRunes (rs : list Z) : string :=
  match rs with
  | [] => EmptyString
  | r :: rs' => AppendRune r +:+ AppendRunes rs'
  end.

End Utf8.

(** ** The part of package [unicode] that [strings.ToLower] uses *)

Module Unicode.

(** [unicode.ToLower].  Up to [MaxASCII] the mapping is in the code of
    the function; above it the function looks the rune up in the table
    [unicode.CaseRanges], data of the standard library that is taken as
    the parameter [caseTable]: the lower-case mapping of that table. *)
Definition ToLower (caseTable : Z -> Z) (r : Z) : Z :=
  if (r <=? 0x7F)%Z then
    if ((0x41 <=? r) && (r <=? 0x5A))%Z then (r + (0x61 - 0x41))%Z else r
  else caseTable r.

End Unicode.

(** ** Bytes and the parts of Go's [strings] package that the code uses *)

Module GoStrings.

Definition byte_of (n : nat) : ascii := ascii_of_nat n.

(** The line feed, the escape \n of the Go source. *)
Definition nl : string := String (byte_of 10) EmptyString.

(** The double quote character (byte 34). *)
Definition dquote : string := String (byte_of 34) EmptyString.

Definition isUpperByte (c : ascii) : bool :=
  (N.leb 65 (N_of_ascii c) && N.leb (N_of_ascii c) 90)%bool.

(** [c += 'a' - 'A'] on an upper-case ASCII letter. *)
Definition toLowerByte (c : ascii) : ascii :=
  if isUpperByte c then ascii_of_N (N_of_ascii c + 32) else c.

Fixpoint mapBytes (f : ascii -> ascii) (s : string) : string :=
  match s with
  | EmptyString => EmptyString
  | String c r => String (f c) (mapBytes f r)
  end.

(** Whether every byte is below [utf8.RuneSelf], and whether an upper-case
    ASCII letter occurs: the two flags that [strings.ToLower] computes in
    its first loop. *)
Fixpoint isASCII (s : string) : bool :=
  match s with
  | EmptyString => true
  | String c r => (Utf8.byteZ c <? 0x80)%Z && isASCII r
  end.

Fixpoint hasUpper (s : string) : bool :=
  match s with
  | EmptyString => false
  | String c r => isUpperByte c || hasUpper r
  end.

(** [strings.Map]: every rune of the string is mapped and the result is
    written in UTF-8, a negative result dropping the character.  (Go
    copies the bytes before the first character that changes instead of
    encoding them again; these are the same bytes, since up to there every
    character is an encoded rune that is written back unchanged.) *)
Fixpoint writeMapped (rs : list Z) : string :=
  match rs with
  | [] => EmptyString
  | r :: rs' =>
      (if (0 <=? r)%Z then Utf8.AppendRune r else EmptyString)
      +:+ writeMapped rs'
  end.

Definition Map (mapping : Z -> Z) (s : string) : string :=
  writeMapped (map mapping (Utf8.runes s)).

(** [strings.ToLower].  Text of ASCII bytes is handled byte by byte: it is
    returned as it is when it holds no upper-case letter, and else every
    upper-case letter is replaced by its lower-case letter.  Any other
    text goes through [strings.Map] with [unicode.ToLower]: it is decoded,
    every rune is mapped, and a byte that is not part of an encoding comes
    out as the encoding of U+FFFD. *)
Definition ToLower (caseTable : Z -> Z) (s : string) : string :=
  if isASCII s then
    if hasUpper s then mapBytes toLowerByte s else s
  else Map (Unicode.ToLower caseTable) s.

(** [strings.HasPrefix]. *)
Definition HasPrefix (s pre : string) : bool := String.prefix pre s.

(** [len(s)], in bytes. *)
Definition len (s : string) : nat := String.length s.

(** The slice [s[:n]], for [n <= len(s)]. *)
Definition sliceTo (s : string) (n : nat) : string := String.substring 0 n s.

(** [strings.Join]. *)
Definition Join (elems : list string) (sep : string) : string :=
  String.concat sep elems.

(** [strings.ReplaceAll s old new] for a pattern [old] that is not empty:
    the occurrences of [old] are replaced from left to right, without
    overlap.  [skip] counts the bytes of a matched occurrence that remain
    to be dropped.  (With an empty pattern Go inserts [new] around every
    rune; no call of this program passes one, and the model inserts around
    every byte.) *)
Fixpoint replaceFrom (old new : string) (skip : nat) (s : string) : string :=
  match s with
  | EmptyString => EmptyString
  | String c r =>
      match skip with
      | S k => replaceFrom old new k r
      | O =>
          if String.prefix old s
          then new +:+ replaceFrom old new (String.length old - 1) r
          else String c (replaceFrom old new 0 r)
      end
  end.

Fixpoint insertAround (new s : string) : string :=
  match s with
  | EmptyString => new
  | String c r => new +:+ String c (insertAround new r)
  end.

Definition ReplaceAll (s old new : string) : string :=
  match old with
  | EmptyString => insertAround new s
  | _ => replaceFrom old new 0 s
  end.

(** Occurrence of a byte in a string. *)
Fixpoint hasByte (c : ascii) (s : string) : bool :=
  match s with
  | EmptyString => false
  | String d r => (Ascii.eqb c d || hasByte c r)%bool
  end.

End GoStrings.

Import GoStrings.

(** ** Path manipulation: the lexical rules of [path/filepath] on Unix *)

Module Filepath.

Definition slash : ascii := "/"%char.

(** The elements of a path between its separators; a path without
    separator is its own single element. *)
Fixpoint elements (s : string) : list string :=
  match s with
  | EmptyString => [EmptyString]
  | String c r =>
      if Ascii.eqb c slash then EmptyString :: elements r
      else match elements r with
           | h :: t => String c h :: t
           | [] => [String c EmptyString]
           end
  end.

Definition isRooted (s : string) : bool :=
  match s with
  | String c _ => Ascii.eqb c slash
  | EmptyString => false
  end.

(** One element of the path against the elements kept so far (most recent
    first): empty and [.] elements vanish, [..] removes the element before
    it unless that is itself [..]; a leading [..] is dropped in a rooted
    path and kept otherwise. *)
Definition cleanStep (rooted : bool) (kept : list string) (e : string)
  : list string :=
  if String.eqb e EmptyString then kept
  else if String.eqb e "." then kept
  else if String.eqb e ".." then
    match kept with
    | k :: kept' => if String.eqb k ".." then e :: kept else kept'
    | [] => if rooted then [] else [e]
    end
  else e :: kept.

Definition cleanElements (rooted : bool) (kept es : list string)
  : list string :=
  fold_left (cleanStep rooted) es kept.

Definition render (rooted : bool) (kept : list string) : string :=
  match rooted, kept with
  | true, _ => "/" +:+ String.concat "/" (rev kept)
  | false, [] => "."
  | false, _ => String.concat "/" (rev kept)
  end.

(** [filepath.Clean]. *)
Definition Clean (path : string) : string :=
  render (isRooted path) (cleanElements (isRooted path) [] (elements path)).

(** [filepath.Join]: from the first element that is not empty on, the
    elements are joined with a separator and the result is cleaned; with
    no such element the result is the empty string. *)
Fixpoint Join (elems : list string) : string :=
  match elems with
  | [] => EmptyString
  | e :: rest =>
      if String.eqb e EmptyString then Join rest
      else Clean (String.concat "/" elems)
  end.

(** The path up to and including its last separator. *)
Fixpoint upToLastSlash (s : string) : string :=
  match s with
  | EmptyString => EmptyString
  | String c r =>
      if hasByte slash r then String c (upToLastSlash r)
      else if Ascii.eqb c slash then String c EmptyString
      else EmptyString
  end.

(** [filepath.Dir]: the final element is dropped and the rest cleaned. *)
Definition Dir (path : string) : string := Clean (upToLastSlash path).

End Filepath.

(** ** Wall-clock time and the two layouts the program formats it with *)

Module Time.

Record Time := {
  unixNano : Z;          (* instant, in nanoseconds *)
  year : N; month : N; day : N;
  hour : N; minute : N; second : N;
  zoneOffset : Z }.      (* seconds east of UTC *)

Definition zeros (n : nat) : string :=
  fold_right (fun _ s => String "0"%char s) EmptyString (seq 0 n).

(** [appendInt] of package [time] for a value that is not negative: the
    decimal digits, padded with zeros on the left up to [width]. *)
Definition appendInt (x : N) (width : nat) : string :=
  let digits := NilZero.string_of_uint (N.to_uint x) in
  zeros (width - String.length digits) +:+ digits.

(** [t.Format("2006-01-02")]. *)
Definition FormatDate (t : Time) : string :=
  appendInt (year t) 4 +:+ "-" +:+ appendInt (month t) 2 +:+ "-" +:+
  appendInt (day t) 2.

(** The zone suffix of the layout [Z07:00]. *)
Definition formatZone (offset : Z) : string :=
  if Z.eqb offset 0 then "Z"
  else
    let zone := Z.quot offset 60 in
    let sign := if Z.ltb zone 0 then "-" else "+" in
    let zone := Z.abs zone in
    sign +:+ appendInt (Z.to_N (Z.quot zone 60)) 2 +:+ ":" +:+
    appendInt (Z.to_N (Z.rem zone 60)) 2.

(** [t.Format(time.RFC3339)], the layout [2006-01-02T15:04:05Z07:00]. *)
Definition FormatRFC3339 (t : Time) : string :=
  FormatDate t +:+ "T" +:+ appendInt (hour t) 2 +:+ ":" +:+
  appendInt (minute t) 2 +:+ ":" +:+ appendInt (second t) 2 +:+
  formatZone (zoneOffset t).

End Time.

(** ** Package [config]: the configuration as loaded *)

Module config.

Record LogConfig := {
  Directory : string;   (* directory of the log files *)
  MaxSize : Z;          (* megabytes before rotation *)
  MaxAge : Z;           (* days before deletion *)
  MaxBackups : Z;       (* rotated files kept *)
  Compress : bool }.    (* compress rotated files *)

(** The struct [Command]; its field [Command], the executable, is [Cmd]
    here since a record and its field cannot share a name. *)
Record Command := {
  Name : string;
  Description : string;
  Cmd : string;
  Args : list string;
  Dir : string;
  EnvVars : list string }.

End config.

(** ** The world the program runs in *)

(** A Go [error], by its message; [None] is [nil]. *)
Definition error := string.

(** The child process that [Run] is asked for, by the fields of [exec.Cmd]
    that the runner sets.  [Path] is the name given to [exec.Command]: the
    search for the executable that [exec.Command] makes along PATH, and its
    failure, belong to the answer [runProcess] of the surroundings.
    [Env = None] is Go's [nil]: the child then inherits the environment of
    the process. *)
Record Process := {
  Path : string;
  Argv : list string;
  Env : option (list string);
  WorkDir : string }.

Inductive Stream := Stdout | Stderr.

Definition sameStream (a b : Stream) : bool :=
  match a, b with
  | Stdout, Stdout | Stderr, Stderr => true
  | _, _ => false
  end.

(** What [Run] yields: its error and the pieces of output in the order in
    which they were written, each with the stream it came from.  When no
    process could be started (the executable is not found, the directory
    does not exist) [Run] returns that error and there is no output. *)
Record RunResult := {
  runErr : option error;
  chunks : list (Stream * string) }.

(** The JSON body that [SendMessage] posts: the fields of [discord.Message]
    it fills in (the avatar and the embeds are left out of the body). *)
Record Message := {
  Content : string;
  Username : string }.

(** The outcome of [http.Post]: a transport error, or a response with its
    status code, its status line and, when the body parses as JSON, the
    rendering of the decoded body under the verb [%v]. *)
Inductive HttpResult :=
| TransportError (e : error)
| Response (statusCode : Z) (status : string) (decoded : option string).

(** What the program does to its surroundings, in order. *)
Inductive Event :=
| EvPost (url : string) (body : Message) (res : HttpResult)
| EvMkdirAll (dir : string) (res : option error)
| EvWrite (file text : string)                        (* write through a rotating log file *)
| EvRun (p : Process) (res : RunResult)                (* a call of Run and its outcome *)
| EvConsole (line : string).                          (* the process log *)

(** How the surroundings answer, given everything that happened before.
    [fmtSeconds d] stands for [fmt.Sprintf] of layout [%.2f seconds] at the
    floating-point value [d.Seconds()] of a duration of [d] nanoseconds.
    [caseLower] is the lower-case mapping of the table
    [unicode.CaseRanges] of the standard library, which [unicode.ToLower]
    consults for a rune above [MaxASCII]. *)
Record World := {
  environ : list string;
  userHomeDir : string + error;
  mkdirAll : list Event -> string -> option error;
  post : list Event -> string -> Message -> HttpResult;
  runProcess : list Event -> Process -> RunResult;
  now : list Event -> Time.Time;
  fmtSeconds : Z -> string;
  caseLower : Z -> Z }.

(** [lumberjack.Logger], the rotating file writer, by its settings. *)
Record RotatingFile := {
  Filename : string;
  rMaxSize : Z;
  rMaxBackups : Z;
  rMaxAge : Z;
  rCompress : bool }.

(** [logger.CommandLogger]. *)
Record CommandLogger := {
  lconfig : config.LogConfig;
  baseDir : string;
  loggers : gmap string RotatingFile }.

(** The mutable state: the events so far and the one command logger that
    [main] creates and shares by pointer. *)
Record State := {
  trace : list Event;
  cmdLogger : CommandLogger }.

Definition emit (ev : Event) (st : State) : State :=
  {| trace := trace st ++ [ev]; cmdLogger := cmdLogger st |}.

(** Computations that thread the state. *)
Definition M (A : Type) : Type := State -> State * A.

Definition ret {A} (a : A) : M A := fun st => (st, a).

Definition bind {A B} (m : M A) (k : A -> M B) : M B :=
  fun st => let (st', a) := m st in k a st'.

Notation "x <- m ;; k" := (bind m (fun x => k))
  (at level 200, m at level 99, k at level 200, right associativity).
Notation "m ;;; k" := (bind m (fun _ => k))
  (at level 200, k at level 200, right associativity).

Definition when_ (b : bool) (m : M unit) : M unit := if b then m else ret tt.

Section Surroundings.

Variable w : World.

(** [time.Now()]. *)
Definition timeNow : M Time.Time := fun st => (st, now w (trace st)).

(** [log.Printf]. *)
Definition logPrintf (line : string) : M unit :=
  fun st => (emit (EvConsole line) st, tt).

(** [Write] on a rotating log file; the callers drop its result. *)
Definition writeLog (f : RotatingFile) (text : string) : M unit :=
  fun st => (emit (EvWrite (Filename f) text) st, tt).

End Surroundings.

(** [io.Writer]; every caller in this program drops the result of [Write]. *)
Record Writer := { Write : string -> M unit }.

(** ** Package [command]: the runner *)

Module command.
Import config.

(** The interface [Discord]. *)
Record Discord := { SendMessage : string -> M (option error) }.

(** The interface [Logger]. *)
Record Logger := {
  GetLogWriter : string -> M Writer;
  GetLogPath : string -> M string }.

Record Runner := {
  discord : Discord;
  logger : Logger;
  workingDir : string;
  dockerHost : string }.

Definition NewRunner (discord : Discord) (logger : Logger)
  (workingDir dockerHost : string) : Runner :=
  {| discord := discord; logger := logger;
     workingDir := workingDir; dockerHost := dockerHost |}.

(** [exec.Command]: the environment and the directory are left unset. *)
Definition exec_Command (name : string) (args : list string) : Process :=
  {| Path := name; Argv := name :: args; Env := None; WorkDir := EmptyString |}.

Definition setEnv (p : Process) (env : list string) : Process :=
  {| Path := Path p; Argv := Argv p; Env := Some env; WorkDir := WorkDir p |}.

Definition setDir (p : Process) (dir : string) : Process :=
  {| Path := Path p; Argv := Argv p; Env := Env p; WorkDir := dir |}.

Definition separator : string :=
  "==================================================".

(** The bytes a [bytes.Buffer] behind one stream has received. *)
Fixpoint captured (want : Stream) (chunks : list (Stream * string)) : string :=
  match chunks with
  | [] => EmptyString
  | (from, text) :: rest =>
      if sameStream from want
      then text +:+ captured want rest
      else captured want rest
  end.

Fixpoint writeAll (wr : Writer) (texts : list string) : M unit :=
  match texts with
  | [] => ret tt
  | t :: rest => Write wr t ;;; writeAll wr rest
  end.

Section WithWorld.
Variable w : World.

(** [command.Run()] with both streams going through an
    [io.MultiWriter] into a buffer of their own and into [logWriter]:
    the result is the error and the two buffers. *)
Definition Run (p : Process) (logWriter : Writer)
  : M (option error * string * string) :=
  fun st =>
    let res := runProcess w (trace st) p in
    let (st', _) :=
      writeAll logWriter (map snd (chunks res)) (emit (EvRun p res) st) in
    (st', (runErr res, captured Stdout (chunks res),
                       captured Stderr (chunks res))).

(** [(r *Runner) Execute]. *)
Definition Execute (r : Runner) (cmd : Command) : M (option error) :=
  startTime <- timeNow w ;;
  let startMsg :=
    "🏃 Running command: **" +:+ Name cmd +:+ "**" +:+ nl +:+
    "> " +:+ Description cmd in
  sendErr <- SendMessage (discord r) startMsg ;;
  match sendErr with
  | Some e => ret (Some ("failed to send start message: " +:+ e))
  | None =>
    let command := exec_Command (Cmd cmd) (Args cmd) in
    (* Set Docker host if specified *)
    let command :=
      if negb (String.eqb (dockerHost r) EmptyString)
         && String.eqb (Cmd cmd) "docker"
      then setEnv command (environ w ++ ["DOCKER_HOST=" +:+ dockerHost r])
      else command in
    (* Set working directory based on priority *)
    let command :=
      if negb (String.eqb (Dir cmd) EmptyString)
      then setDir command (Dir cmd)
      else if negb (String.eqb (workingDir r) EmptyString)
      then setDir command (workingDir r)
      else command in
    (* Set environment variables if specified *)
    let command :=
      if Nat.ltb 0 (length (EnvVars cmd))
      then setEnv command (environ w ++ EnvVars cmd)
      else command in
    logWriter <- GetLogWriter (logger r) (Name cmd) ;;
    (* Write command metadata to log file *)
    Write logWriter (nl +:+ nl +:+ separator +:+ nl) ;;;
    Write logWriter ("Command: " +:+ Name cmd +:+ nl) ;;;
    Write logWriter ("Description: " +:+ Description cmd +:+ nl) ;;;
    executedAt <- timeNow w ;;
    Write logWriter
      ("Executed at: " +:+ Time.FormatRFC3339 executedAt +:+ nl) ;;;
    Write logWriter ("Working Directory: " +:+ WorkDir command +:+ nl) ;;;
    Write logWriter
      ("Full Command: " +:+ Cmd cmd +:+ " " +:+
       GoStrings.Join (Args cmd) " " +:+ nl) ;;;
    Write logWriter (separator +:+ nl +:+ nl) ;;;
    (* Execute the command *)
    ran <- Run command logWriter ;;
    let '(err, stdout, stderr) := ran in
    (* Log completion status *)
    match err with
    | Some e =>
        Write logWriter (nl +:+ nl +:+ separator +:+ nl) ;;;
        Write logWriter ("Command failed with error: " +:+ e +:+ nl) ;;;
        Write logWriter (separator +:+ nl +:+ nl)
    | None =>
        Write logWriter (nl +:+ nl +:+ separator +:+ nl) ;;;
        Write logWriter ("Command completed successfully" +:+ nl) ;;;
        Write logWriter (separator +:+ nl +:+ nl)
    end ;;;
    (* Calculate execution time *)
    finished <- timeNow w ;;
    let durationStr :=
      fmtSeconds w (Time.unixNano finished - Time.unixNano startTime) in
    (* Prepare output for Discord *)
    let resultMsg :=
      match err with
      | Some e =>
          "❌ Command **" +:+ Name cmd +:+ "** failed (took " +:+
          durationStr +:+ ")" +:+ nl +:+
          (if Nat.ltb 0 (len stderr) then
             let errText := stderr in
             let errText :=
               if Nat.ltb 1500 (len errText)
               then sliceTo errText 1500 +:+ "... (truncated)"
               else errText in
             "```" +:+ nl +:+ errText +:+ nl +:+ "```"
           else "Error: " +:+ e)
      | None =>
          "✅ Command **" +:+ Name cmd +:+
          "** completed successfully (took " +:+ durationStr +:+ ")" +:+ nl +:+
          (if Nat.ltb 0 (len stdout) then
             let outText := stdout in
             let outText :=
               if Nat.ltb 1500 (len outText)
               then sliceTo outText 1500 +:+ "... (truncated)"
               else outText in
             "```" +:+ nl +:+ outText +:+ nl +:+ "```"
           else EmptyString)
      end in
    (* Add log file info to result *)
    logPath <- GetLogPath (logger r) (Name cmd) ;;
    let resultMsg :=
      resultMsg +:+ (nl +:+ "📄 Log file: `" +:+ logPath +:+ "`") in
    (* Send result to Discord *)
    sendErr <- SendMessage (discord r) resultMsg ;;
    match sendErr with
    | Some e => ret (Some ("failed to send result message: " +:+ e))
    | None => ret err
    end
  end.

(** [(r *Runner) ExecuteAll]. *)
Fixpoint ExecuteAll (r : Runner) (commands : list Command)
  : M (option error) :=
  match commands with
  | [] => ret None
  | cmd :: rest =>
      err <- Execute r cmd ;;
      match err with
      | Some e =>
          ret (Some ("command '" +:+ Name cmd +:+ "' failed: " +:+ e))
      | None => ExecuteAll r rest
      end
  end.

End WithWorld.

End command.

(** ** Package [logger] ([internal/logger/logger.go]) *)

Module logger.
Import config.

Definition withDirectory (cfg : LogConfig) (d : string) : LogConfig :=
  {| Directory := d; MaxSize := MaxSize cfg; MaxAge := MaxAge cfg;
     MaxBackups := MaxBackups cfg; Compress := Compress cfg |}.

Definition withMaxSize (cfg : LogConfig) (n : Z) : LogConfig :=
  {| Directory := Directory cfg; MaxSize := n; MaxAge := MaxAge cfg;
     MaxBackups := MaxBackups cfg; Compress := Compress cfg |}.

Definition withMaxAge (cfg : LogConfig) (n : Z) : LogConfig :=
  {| Directory := Directory cfg; MaxSize := MaxSize cfg; MaxAge := n;
     MaxBackups := MaxBackups cfg; Compress := Compress cfg |}.

Definition withMaxBackups (cfg : LogConfig) (n : Z) : LogConfig :=
  {| Directory := Directory cfg; MaxSize := MaxSize cfg; MaxAge := MaxAge cfg;
     MaxBackups := n; Compress := Compress cfg |}.

(** [sanitizeFilename]. *)
Definition sanitizeFilename (w : World) (name : string) : string :=
  let name := ToLower (caseLower w) name in
  let name := ReplaceAll name " " "-" in
  let name := ReplaceAll name "/" "-" in
  let name := ReplaceAll name "\" "-" in
  let name := ReplaceAll name ":" "-" in
  let name := ReplaceAll name "*" "-" in
  let name := ReplaceAll name "?" "-" in
  let name := ReplaceAll name dquote "-" in
  let name := ReplaceAll name "<" "-" in
  let name := ReplaceAll name ">" "-" in
  let name := ReplaceAll name "|" "-" in
  name.

(** [fmt.Sprintf] of layout [%s-%s.log]. *)
Definition logFileName (safeCommandName today : string) : string :=
  safeCommandName +:+ "-" +:+ today +:+ ".log".

Section WithWorld.
Variable w : World.

(** [NewCommandLogger], on the events so far. *)
Definition NewCommandLogger (cfg : LogConfig) (tr : list Event)
  : list Event * (CommandLogger + error) :=
  let withDir :=
    if String.eqb (Directory cfg) EmptyString then
      match userHomeDir w with
      | inr e => inr ("failed to get home directory: " +:+ e)
      | inl homeDir =>
          inl (withDirectory cfg (Filepath.Join [homeDir; ".delivr"; "logs"]))
      end
    else inl cfg in
  match withDir with
  | inr e => (tr, inr e)
  | inl cfg =>
      let cfg := if Z.eqb (MaxSize cfg) 0 then withMaxSize cfg 10 else cfg in
      let cfg := if Z.eqb (MaxAge cfg) 0 then withMaxAge cfg 30 else cfg in
      let cfg := if Z.eqb (MaxBackups cfg) 0 then withMaxBackups cfg 5 else cfg in
      let res := mkdirAll w tr (Directory cfg) in
      let tr := tr ++ [EvMkdirAll (Directory cfg) res] in
      match res with
      | Some e => (tr, inr ("failed to create log directory: " +:+ e))
      | None =>
          (tr, inl {| lconfig := cfg; baseDir := Directory cfg; loggers := ∅ |})
      end
  end.

(** A rotating log file as an [io.Writer]. *)
Definition fileWriter (f : RotatingFile) : Writer :=
  {| Write := writeLog f |}.

(** The method [GetLogWriter] of [CommandLogger]. *)
Definition GetLogWriter (commandName : string) : M Writer :=
  fun st =>
    let l := cmdLogger st in
    let safeCommandName := sanitizeFilename w commandName in
    match loggers l !! safeCommandName with
    | Some lg => (st, fileWriter lg)
    | None =>
        let today := Time.FormatDate (now w (trace st)) in
        let logPath :=
          Filepath.Join [baseDir l; logFileName safeCommandName today] in
        let lg := {| Filename := logPath;
                     rMaxSize := MaxSize (lconfig l);
                     rMaxBackups := MaxBackups (lconfig l);
                     rMaxAge := MaxAge (lconfig l);
                     rCompress := Compress (lconfig l) |} in
        ({| trace := trace st;
            cmdLogger := {| lconfig := lconfig l; baseDir := baseDir l;
                            loggers := <[safeCommandName := lg]> (loggers l) |} |},
         fileWriter lg)
    end.

(** The method [GetLogPath] of [CommandLogger]. *)
Definition GetLogPath (commandName : string) : M string :=
  fun st =>
    let safeCommandName := sanitizeFilename w commandName in
    let today := Time.FormatDate (now w (trace st)) in
    (st, Filepath.Join [baseDir (cmdLogger st);
                        logFileName safeCommandName today]).

(** The command logger behind the interface [Logger]. *)
Definition asLogger : command.Logger :=
  {| command.GetLogWriter := GetLogWriter;
     command.GetLogPath := GetLogPath |}.

End WithWorld.

End logger.

(** ** Package [discord]: the webhook client *)

(** [fmt] verb [%d]. *)
Definition fmtInt (z : Z) : string := NilZero.string_of_int (Z.to_int z).

Section Webhook.
Variable w : World.

(** [sendWebhookMessage], shared by both variants of the client: one POST
    of the message, and any status outside 2xx is an error. *)
Definition sendWebhookMessage (webhookURL content : string)
  : M (option error) :=
  fun st =>
    let message := {| Content := content; Username := "Delivr" |} in
    let resp := post w (trace st) webhookURL message in
    let err :=
      match resp with
      | TransportError e => Some ("error sending webhook: " +:+ e)
      | Response statusCode status decoded =>
          if Z.ltb statusCode 200 || Z.leb 300 statusCode then
            match decoded with
            | Some response =>
                Some ("error sending message to Discord: HTTP " +:+
                      fmtInt statusCode +:+ " " +:+ status +:+ ", " +:+ response)
            | None =>
                Some ("error sending message to Discord: HTTP " +:+
                      fmtInt statusCode +:+ " " +:+ status)
            end
          else None
      end in
    (emit (EvPost webhookURL message resp) st, err).

End Webhook.

(** The webhook-only client: [NewClient] takes the webhook URL alone. *)
Module discord.

Record Client := { webhookURL : string }.

(** [NewClient]. *)
Definition NewClient (webhookURL : string) : Client + error :=
  if String.eqb webhookURL EmptyString then
    inr "discord webhook URL is required"
  else if negb (HasPrefix webhookURL "https://discord.com/api/webhooks/") then
    inr "invalid webhook URL format, must start with https://discord.com/api/webhooks/"
  else inl {| webhookURL := webhookURL |}.

(** [SendMessage]. *)
Definition SendMessage (w : World) (c : Client) (content : string)
  : M (option error) :=
  sendWebhookMessage w (webhookURL c) content.

Definition asDiscord (w : World) (c : Client) : command.Discord :=
  {| command.SendMessage := SendMessage w c |}.

End discord.

(** The client of [internal/discord/client.go], which keeps the bot token
    of the older configuration: [NewClient] takes a token and a channel, and
    this is the call that [main] makes. *)
Module discord_bot.

Record Client := { webhookURL : string; isWebhook : bool }.

(** [NewClient]. *)
Definition NewClient (token channelID : string) : Client + error :=
  if String.eqb token EmptyString && String.eqb channelID EmptyString then
    inr "either discord token or channel ID (webhook URL) is required"
  else if HasPrefix channelID "https://discord.com/api/webhooks/" then
    inl {| webhookURL := channelID; isWebhook := true |}
  else inr "only webhook URLs are supported in this version".

(** [SendMessage]. *)
Definition SendMessage (w : World) (c : Client) (content : string)
  : M (option error) :=
  if isWebhook c then sendWebhookMessage w (webhookURL c) content
  else ret (Some "only webhook messages are supported in this version").

Definition asDiscord (w : World) (c : Client) : command.Discord :=
  {| command.SendMessage := SendMessage w c |}.

End discord_bot.

(** ** The command loop of [main] ([main.go]) *)

Module main.
Import config.

Section WithWorld.
Variable w : World.

(** The loop of [main] over the configured commands: a failure is
    logged and reported, and the loop goes on. *)
Fixpoint commandLoop (discord : discord_bot.Client)
  (cmdRunner : command.Runner) (commands : list Command) : M unit :=
  match commands with
  | [] => ret tt
  | cmd :: rest =>
      err <- command.Execute w cmdRunner cmd ;;
      match err with
      | Some e =>
          logPrintf ("Error executing command '" +:+ Name cmd +:+ "': " +:+ e) ;;;
          sendErr <- discord_bot.SendMessage w discord
            ("❌ Error executing command '" +:+ Name cmd +:+ "': " +:+ e) ;;
          match sendErr with
          | Some e' =>
              logPrintf ("Failed to send error message to Discord: " +:+ e')
          | None => ret tt
          end
      | None => ret tt
      end ;;;
      commandLoop discord cmdRunner rest
  end.

End WithWorld.

End main.

Import logger.

(** ** Definitions that follow the wording of the specification and of
    its amended statements *)

Module Spec.

(** The ten characters that the specification lists for the sanitization
    of log file names: space / \ : * ? double-quote < > | *)
Definition isSpecial (c : ascii) : bool :=
  hasByte c (" /\:*?" +:+ dquote +:+ "<>|").

Definition isSpecialRune (r : Z) : bool :=
  existsb (Z.eqb r) [0x20; 0x2F; 0x5C; 0x3A; 0x2A; 0x3F; 0x22; 0x3C; 0x3E; 0x7C]%Z.

(** The lower-case form of a character: of the letters A to Z the letter
    a to z, of any other ASCII character the character itself, and of a
    character beyond ASCII what the case table of Unicode gives. *)
Definition lowerRune (caseTable : Z -> Z) (r : Z) : Z :=
  if ((65 <=? r) && (r <=? 90))%Z then (r + 32)%Z
  else if (r <=? 127)%Z then r
  else caseTable r.

(** One character of a sanitized name, in the words of the specification:
    the character is lower-cased, and a listed character becomes a
    hyphen. *)
Definition sanitizeRune (caseTable : Z -> Z) (r : Z) : Z :=
  let l := lowerRune caseTable r in
  if isSpecialRune l then 0x2D%Z else l.

(** The lower-case form of an ASCII character: of a letter from A to Z
    the letter from a to z, of any other character the character itself. *)
Definition lowerChar (c : ascii) : ascii :=
  if (N.leb 65 (N_of_ascii c) && N.leb (N_of_ascii c) 90)%bool
  then ascii_of_N (N_of_ascii c + 32)
  else c.

(** One character of a sanitized name of ASCII characters: a listed
    character becomes a hyphen, a letter from A to Z becomes the letter
    from a to z, any other character is left unchanged. *)
Definition sanitizeChar (c : ascii) : ascii :=
  if isSpecial c then "-"%char else lowerChar c.

(** Output truncation as the code does it, on bytes: more than 1500 bytes
    are cut to the first 1500 and marked, anything shorter is passed
    through. *)
Definition truncated (text : string) : string :=
  if Nat.ltb 1500 (String.length text)
  then String.substring 0 1500 text +:+ "... (truncated)"
  else text.

(** The first [n] characters of a text.  [skip] counts the bytes of the
    character being copied that remain. *)
Fixpoint firstRunes (n skip : nat) (s : string) : string :=
  match s with
  | EmptyString => EmptyString
  | String c t =>
      match skip with
      | S k => String c (firstRunes n k t)
      | O =>
          match n with
          | O => EmptyString
          | S m =>
              String c (firstRunes m (snd (Utf8.DecodeRuneInString s) - 1) t)
          end
      end
  end.

(** Output truncation in the words of the specification, on characters:
    more than 1500 characters are cut to the first 1500 and marked,
    anything shorter is passed through. *)
Definition truncatedChars (text : string) : string :=
  if Nat.ltb 1500 (Utf8.RuneCountInString text)
  then firstRunes 1500 0 text +:+ "... (truncated)"
  else text.

End Spec.

(** ** Auxiliary definitions *)

(** Replacing a one-byte pattern by one byte works byte by byte. *)
Definition replaceByte (old new c : ascii) : ascii :=
  if Ascii.eqb c old then new else c.

(** The ten replacements of [sanitizeFilename] on one byte, in the order
    of the source. *)
Definition replaceSpecial (c : ascii) : ascii :=
  replaceByte "|" "-" (replaceByte ">" "-" (replaceByte "<" "-"
  (replaceByte (byte_of 34) "-" (replaceByte "?" "-" (replaceByte "*" "-"
  (replaceByte ":" "-" (replaceByte "\" "-" (replaceByte "/" "-"
  (replaceByte " " "-" c))))))))).

(** The same on a character. *)
Definition replaceSpecialRune (r : Z) : Z :=
  if Spec.isSpecialRune r then 0x2D%Z else r.

(** The byte-wise form of [sanitizeFilename] on ASCII text: lower-casing
    followed by the ten replacements. *)
Definition sanitizeByte (c : ascii) : ascii := replaceSpecial (toLowerByte c).

(** ** Shapes of paths, for the proofs about [Clean] *)

Module PathShape.
Import Filepath.

Definition slashFree (s : string) : Prop := hasByte slash s = false.

(** A name that [Clean] keeps as it is. *)
Definition plainName (f : string) : Prop :=
  slashFree f /\ f <> EmptyString /\ f <> "." /\ f <> "..".

(** The kept elements never hold an empty or a [.] element, and a [..]
    is kept only at the start of a path that is not rooted. *)
Fixpoint keptOk (rooted : bool) (kept : list string) : Prop :=
  match kept with
  | [] => True
  | e :: kept' =>
      e <> EmptyString /\ e <> "." /\
      (e = ".." -> rooted = false /\
                   match kept' with [] => True | k :: _ => k = ".." end) /\
      keptOk rooted kept'
  end.

(** The elements of a directory, each followed by a separator. *)
Fixpoint dirString (l : list string) : string :=
  match l with
  | [] => EmptyString
  | e :: l' => e +:+ String slash (dirString l')
  end.

(** The elements that [Clean] keeps of a path. *)
Definition keptOf (path : string) : list string :=
  cleanElements (isRooted path) [] (elements path).

End PathShape.

(** Every log file that the command logger has opened lies directly in its
    base directory. *)
Definition cacheInside (l : CommandLogger) : Prop :=
  map_Forall (fun _ f => Filepath.Dir (Filename f) = Filepath.Clean (baseDir l))
             (loggers l).

(** ** One execution of a command, step by step *)

(** The error that [sendWebhookMessage] makes of the outcome of a POST. *)
Definition responseError (resp : HttpResult) : option error :=
  match resp with
  | TransportError e => Some ("error sending webhook: " +:+ e)
  | Response statusCode status decoded =>
      if Z.ltb statusCode 200 || Z.leb 300 statusCode then
        match decoded with
        | Some response =>
            Some ("error sending message to Discord: HTTP " +:+
                  fmtInt statusCode +:+ " " +:+ status +:+ ", " +:+ response)
        | None =>
            Some ("error sending message to Discord: HTTP " +:+
                  fmtInt statusCode +:+ " " +:+ status)
        end
      else None
  end.

(** The body of every message of the client. *)
Definition delivr (content : string) : Message :=
  {| Content := content; Username := "Delivr" |}.

(** A client that posts to a webhook, behind the interface [Discord]; both
    variants of the client are of this form once constructed. *)
Definition webhookDiscord (w : World) (url : string) : command.Discord :=
  {| command.SendMessage := sendWebhookMessage w url |}.

(** The runner as [main] wires it: a webhook client and the command
    logger. *)
Definition wiredRunner (w : World) (url workingDir dockerHost : string)
  : command.Runner :=
  command.NewRunner (webhookDiscord w url) (logger.asLogger w)
                    workingDir dockerHost.

(** The steps of [Execute] on the wired runner, each from the state that
    the steps before it leave. *)
Module Account.
Import config command.

Section Steps.
Variables (w : World) (url workingDir dockerHost : string).
Variables (cmd : Command) (st : State).

Definition startMessage : string :=
  "🏃 Running command: **" +:+ Name cmd +:+ "**" +:+ nl +:+
  "> " +:+ Description cmd.

Definition startResp : HttpResult :=
  post w (trace st) url (delivr startMessage).

Definition afterStart : list Event :=
  trace st ++ [EvPost url (delivr startMessage) startResp].

(** The process as configured before it runs. *)
Definition proc : Process :=
  let command := exec_Command (Cmd cmd) (Args cmd) in
  let command :=
    if negb (String.eqb dockerHost EmptyString)
       && String.eqb (Cmd cmd) "docker"
    then setEnv command (environ w ++ ["DOCKER_HOST=" +:+ dockerHost])
    else command in
  let command :=
    if negb (String.eqb (Dir cmd) EmptyString)
    then setDir command (Dir cmd)
    else if negb (String.eqb workingDir EmptyString)
    then setDir command workingDir
    else command in
  if Nat.ltb 0 (length (EnvVars cmd))
  then setEnv command (environ w ++ EnvVars cmd)
  else command.

Definition safeName : string := sanitizeFilename w (Name cmd).

(** The rotating file behind the log writer: the cached one, or a new
    one named after the day of its creation. *)
Definition logFile : RotatingFile :=
  match loggers (cmdLogger st) !! safeName with
  | Some lg => lg
  | None =>
      {| Filename :=
           Filepath.Join
             [baseDir (cmdLogger st);
              logFileName safeName (Time.FormatDate (now w afterStart))];
         rMaxSize := MaxSize (lconfig (cmdLogger st));
         rMaxBackups := MaxBackups (lconfig (cmdLogger st));
         rMaxAge := MaxAge (lconfig (cmdLogger st));
         rCompress := Compress (lconfig (cmdLogger st)) |}
  end.

Definition loggerAfter : CommandLogger :=
  match loggers (cmdLogger st) !! safeName with
  | Some _ => cmdLogger st
  | None =>
      {| lconfig := lconfig (cmdLogger st);
         baseDir := baseDir (cmdLogger st);
         loggers := <[safeName := logFile]> (loggers (cmdLogger st)) |}
  end.

Definition writes (texts : list string) : list Event :=
  map (EvWrite (Filename logFile)) texts.

Definition headerStart : list string :=
  [nl +:+ nl +:+ separator +:+ nl;
   "Command: " +:+ Name cmd +:+ nl;
   "Description: " +:+ Description cmd +:+ nl].

Definition afterHeaderStart : list Event := afterStart ++ writes headerStart.

Definition headerEnd : list string :=
  ["Executed at: " +:+ Time.FormatRFC3339 (now w afterHeaderStart) +:+ nl;
   "Working Directory: " +:+ WorkDir proc +:+ nl;
   "Full Command: " +:+ Cmd cmd +:+ " " +:+
     GoStrings.Join (Args cmd) " " +:+ nl;
   separator +:+ nl +:+ nl].

Definition beforeRun : list Event := afterHeaderStart ++ writes headerEnd.

Definition runRes : RunResult := runProcess w beforeRun proc.

Definition stdout : string := captured Stdout (chunks runRes).
Definition stderr : string := captured Stderr (chunks runRes).

Definition afterRun : list Event :=
  beforeRun ++ EvRun proc runRes :: writes (map snd (chunks runRes)).

Definition footer : list string :=
  match runErr runRes with
  | Some e =>
      [nl +:+ nl +:+ separator +:+ nl;
       "Command failed with error: " +:+ e +:+ nl;
       separator +:+ nl +:+ nl]
  | None =>
      [nl +:+ nl +:+ separator +:+ nl;
       "Command completed successfully" +:+ nl;
       separator +:+ nl +:+ nl]
  end.

Definition afterFooter : list Event := afterRun ++ writes footer.

Definition durationStr : string :=
  fmtSeconds w (Time.unixNano (now w afterFooter)
                - Time.unixNano (now w (trace st))).

Definition logPath : string :=
  Filepath.Join
    [baseDir (cmdLogger st);
     logFileName safeName (Time.FormatDate (now w afterFooter))].

(** The first line of the result notification. *)
Definition resultHead : string :=
  match runErr runRes with
  | Some _ =>
      "❌ Command **" +:+ Name cmd +:+ "** failed (took " +:+
      durationStr +:+ ")" +:+ nl
  | None =>
      "✅ Command **" +:+ Name cmd +:+
      "** completed successfully (took " +:+ durationStr +:+ ")" +:+ nl
  end.

(** Its last line. *)
Definition resultTail : string :=
  nl +:+ "📄 Log file: `" +:+ logPath +:+ "`".

Definition codeBlock (text : string) : string :=
  "```" +:+ nl +:+ text +:+ nl +:+ "```".

(** What the notification shows between the two, given how the
    captured text of a stream is cut. *)
Definition resultBody (cut : string -> string) : string :=
  match runErr runRes with
  | Some e =>
      if Nat.ltb 0 (len stderr) then codeBlock (cut stderr)
      else "Error: " +:+ e
  | None =>
      if Nat.ltb 0 (len stdout) then codeBlock (cut stdout)
      else EmptyString
  end.

Definition resultMessage : string :=
  (resultHead +:+ resultBody Spec.truncated) +:+ resultTail.

Definition resultResp : HttpResult :=
  post w afterFooter url (delivr resultMessage).

Definition finished : list Event :=
  afterFooter ++ [EvPost url (delivr resultMessage) resultResp].

End Steps.

End Account.

(** ** What can be read off the events *)

(** The writes to log files, in order: file and text. *)
Definition logWrites (tr : list Event) : list (string * string) :=
  omap (fun ev => match ev with
                  | EvWrite file text => Some (file, text)
                  | _ => None
                  end) tr.

(** The child processes that [Run] was called for, in order.  A process
    that could not be started is listed too: the result of its call holds
    the error. *)
Definition processesRun (tr : list Event) : list Process :=
  omap (fun ev => match ev with EvRun p _ => Some p | _ => None end) tr.

(** The bodies posted to a webhook, in order. *)
Definition posted (tr : list Event) : list Message :=
  omap (fun ev => match ev with EvPost _ body _ => Some body | _ => None end) tr.

(** The environment that the program gives to [os/exec] for a child: the
    field [Env], or the environment of the service when the field is left
    [nil].  Before it starts the child, [os/exec] drops an entry whose key
    occurs again later in the list and, for a [nil] field with a directory
    set, adds an entry for PWD: a key other than PWD that has no entry
    here has none for the child. *)
Definition effectiveEnv (w : World) (p : Process) : list string :=
  match Env p with
  | Some env => env
  | None => environ w
  end.

(** The footer that [Execute] writes after a child that succeeded. *)
Definition successFooter : list string :=
  [nl +:+ nl +:+ command.separator +:+ nl;
   "Command completed successfully" +:+ nl;
   command.separator +:+ nl +:+ nl].

(** The client that [NewClient] of the bot variant returns for a webhook. *)
Definition mainClient (url : string) : discord_bot.Client :=
  {| discord_bot.webhookURL := url; discord_bot.isWebhook := true |}.

(** The body of the start notification of a command. *)
Definition startBody (cmd : config.Command) : Message :=
  delivr (Account.startMessage cmd).

Definition isStartBody (m : Message) : bool :=
  HasPrefix (Content m) "🏃 Running command: **".

(** The start notifications among the posted bodies, in order. *)
Definition started (tr : list Event) : list Message :=
  filter (fun m => isStartBody m = true) (posted tr).

(** For every start notification, in order, whether it was delivered. *)
Definition startsDelivered (tr : list Event) : list bool :=
  omap (fun ev => match ev with
                  | EvPost _ body res =>
                      if isStartBody body
                      then Some (match responseError res with
                                 | None => true
                                 | Some _ => false
                                 end)
                      else None
                  | _ => None
                  end) tr.

(** The elements of a list whose flag is set. *)
Fixpoint selected {A} (l : list A) (flags : list bool) : list A :=
  match l, flags with
  | x :: l', true :: flags' => x :: selected l' flags'
  | _ :: l', false :: flags' => selected l' flags'
  | _, _ => []
  end.

(** ** Sample surroundings *)

Module Demo.
Import config.

Definition noon : Time.Time :=
  {| Time.unixNano := 1710000000000000000;
     Time.year := 2024; Time.month := 3; Time.day := 9;
     Time.hour := 16; Time.minute := 0; Time.second := 0;
     Time.zoneOffset := 0 |}.

Definition delivered : HttpResult := Response 204 "204 No Content" None.

Definition refused : HttpResult :=
  Response 500 "500 Internal Server Error" None.

(** The child [false] fails without output, any other child prints a
    greeting on standard output. *)
Definition runs (p : Process) : RunResult :=
  if String.eqb (Path p) "false"
  then {| runErr := Some "exit status 1"; chunks := [] |}
  else {| runErr := None; chunks := [(Stdout, "hello" +:+ nl)] |}.

(** A case table for the letters of Latin-1: the capital letters from
    U+00C0 to U+00DE, the multiplication sign apart, have their small
    letter 32 places further. *)
Definition latin1 (r : Z) : Z :=
  if ((0xC0 <=? r) && (r <=? 0xDE) && negb (r =? 0xD7))%Z
  then (r + 32)%Z else r.

Definition world (answer : list Event -> HttpResult) : World :=
  {| environ := ["PATH=/usr/bin"];
     userHomeDir := inl "/home/u";
     mkdirAll := fun _ _ => None;
     post := fun tr _ _ => answer tr;
     runProcess := fun _ p => runs p;
     now := fun _ => noon;
     fmtSeconds := fun _ => "0.01 seconds";
     caseLower := latin1 |}.

(** The webhook accepts every message. *)
Definition quiet : World := world (fun _ => delivered).

Fixpoint copies (n : nat) (c : ascii) : string :=
  match n with
  | O => EmptyString
  | S k => String c (copies k c)
  end.

(** As [quiet], with a child that prints 1600 bytes on standard output. *)
Definition verbose : World :=
  {| environ := environ quiet;
     userHomeDir := userHomeDir quiet;
     mkdirAll := mkdirAll quiet;
     post := post quiet;
     runProcess := fun _ _ =>
       {| runErr := None; chunks := [(Stdout, copies 1600 "x")] |};
     now := now quiet;
     fmtSeconds := fmtSeconds quiet;
     caseLower := caseLower quiet |}.

Fixpoint repeated (n : nat) (s : string) : string :=
  match n with
  | O => EmptyString
  | S k => s +:+ repeated k s
  end.

(** The letter e with an acute accent, which UTF-8 encodes in two bytes,
    751 times. *)
Definition accents : string := repeated 751 "é".

(** As [quiet], with a child that prints [accents]. *)
Definition accented : World :=
  {| environ := environ quiet;
     userHomeDir := userHomeDir quiet;
     mkdirAll := mkdirAll quiet;
     post := post quiet;
     runProcess := fun _ _ =>
       {| runErr := None; chunks := [(Stdout, accents)] |};
     now := now quiet;
     fmtSeconds := fmtSeconds quiet;
     caseLower := caseLower quiet |}.

(** The webhook refuses every message. *)
Definition deaf : World := world (fun _ => refused).

(** The webhook refuses the messages that follow the run of a child. *)
Definition lateFailure : World :=
  world (fun tr => match processesRun tr with
                   | [] => delivered
                   | _ => refused
                   end).

Definition url : string := "https://discord.com/api/webhooks/1/token".

Definition freshLogger : CommandLogger :=
  {| lconfig := {| Directory := "/var/log/delivr"; MaxSize := 10;
                   MaxAge := 30; MaxBackups := 5; Compress := false |};
     baseDir := "/var/log/delivr";
     loggers := ∅ |}.

Definition initial : State := {| trace := []; cmdLogger := freshLogger |}.

Definition hello : Command :=
  {| Name := "Say Hello"; Description := "Prints a greeting";
     Cmd := "echo"; Args := ["hello"]; Dir := EmptyString; EnvVars := [] |}.

Definition failing : Command :=
  {| Name := "Fail"; Description := "Always fails";
     Cmd := "false"; Args := []; Dir := EmptyString; EnvVars := [] |}.

Definition dockerPs : Command :=
  {| Name := "Show Docker Status";
     Description := "Lists all running Docker containers";
     Cmd := "docker"; Args := ["ps"; "-a"]; Dir := EmptyString;
     EnvVars := ["COMPOSE_PROJECT_NAME=web"] |}.

Definition unset : LogConfig :=
  {| Directory := EmptyString; MaxSize := 0; MaxAge := 0;
     MaxBackups := 0; Compress := false |}.

End Demo.

(** ** Locating and loading the configuration file *)

(** [filepath.Ext]: the suffix of the final element of the path from its
    last dot on, empty when that element has no dot. *)
Module PathExt.

Fixpoint Ext (path : string) : string :=
  match path with
  | EmptyString => EmptyString
  | String c r =>
      if hasByte "/" r || hasByte "." r then Ext r
      else if Ascii.eqb c "." then path
      else EmptyString
  end.

End PathExt.

(** The variant of package [config] that reads JSON and YAML and looks for
    hidden files first.  The files are taken not to change while the
    configuration is located: [stat] answers by the path alone. *)
Module configload.
Import config.

Record DiscordConfig := { ChannelID : string }.

Record DockerConfig := { Host : string }.

(** The struct [Config]; a pointer field that is [nil] is [None]. *)
Record Config := {
  Discord : DiscordConfig;
  Docker : option DockerConfig;
  Logs : option LogConfig;
  Commands : list Command;
  WorkingDir : string }.

(** The outcome of [os.Stat]: no error, an error for which
    [os.IsNotExist] holds, or another error. *)
Inductive StatResult :=
| StatOk
| StatNotExist
| StatFailed (e : error).

(** The files and the environment, the two decoders of the libraries,
    each with the error it returns on text it cannot decode, and the
    lower-case mapping of the table [unicode.CaseRanges], which
    [strings.ToLower] consults for a rune above [MaxASCII]. *)
Record Files := {
  stat : string -> StatResult;
  getenv : string -> string;
  homeDir : string + error;
  readFile : string -> string + error;
  yamlUnmarshal : string -> Config + error;
  jsonUnmarshal : string -> Config + error;
  caseTable : Z -> Z }.

(** The variable [loadedConfigPath] of the package and what has been
    printed on standard output. *)
Record Loader := {
  loadedConfigPath : string;
  printed : list string }.

(** [_, err := os.Stat(p); err == nil]. *)
Definition statOk (fs : Files) (p : string) : bool :=
  match stat fs p with
  | StatOk => true
  | _ => false
  end.

(** [_, err := os.Stat(p); os.IsNotExist(err)]. *)
Definition statNotExist (fs : Files) (p : string) : bool :=
  match stat fs p with
  | StatNotExist => true
  | _ => false
  end.

(** [DefaultConfigPath]. *)
Definition DefaultConfigPath (fs : Files) : string :=
  if statOk fs ".delivr.yml" then ".delivr.yml"
  else if statOk fs ".delivr.json" then ".delivr.json"
  else if statOk fs "config.yml" then "config.yml"
  else if statOk fs "config.json" then "config.json"
  else
    match homeDir fs with
    | inl home =>
        let homeYamlCfg := Filepath.Join [home; ".delivr"; "config.yml"] in
        if statOk fs homeYamlCfg then homeYamlCfg
        else
          let homeJsonCfg := Filepath.Join [home; ".delivr"; "config.json"] in
          if statOk fs homeJsonCfg then homeJsonCfg
          else ".delivr.yml"
    | inr _ => ".delivr.yml"
    end.

(** [isYAMLFile]. *)
Definition isYAMLFile (fs : Files) (path : string) : bool :=
  let ext := ToLower (caseTable fs) (PathExt.Ext path) in
  String.eqb ext ".yml" || String.eqb ext ".yaml".

Definition printf (line : string) (st : Loader) : Loader :=
  {| loadedConfigPath := loadedConfigPath st; printed := printed st ++ [line] |}.

(** [Load]. *)
Definition Load (fs : Files) (customPath : string) (st : Loader)
  : Loader * (Config + error) :=
  let configPath := DefaultConfigPath fs in
  let configPath :=
    if negb (String.eqb customPath EmptyString) then customPath
    else if negb (String.eqb (getenv fs "DELIVR_CONFIG") EmptyString)
    then getenv fs "DELIVR_CONFIG"
    else configPath in
  (* the deprecated names, looked for when nothing else names a file *)
  let '(st, configPath) :=
    if String.eqb customPath EmptyString
       && String.eqb (getenv fs "DELIVR_CONFIG") EmptyString
    then
      if statNotExist fs configPath then
        if statOk fs "config.yml" then
          (printf ("Warning: Using deprecated config name 'config.yml'. " +:+
                   "Consider renaming to '.delivr.yml'" +:+ nl) st,
           "config.yml")
        else if statOk fs "config.json" then
          (printf ("Warning: Using deprecated config name 'config.json'. " +:+
                   "Consider renaming to '.delivr.json'" +:+ nl) st,
           "config.json")
        else (st, configPath)
      else (st, configPath)
    else (st, configPath) in
  if statNotExist fs configPath then
    (st, inr ("configuration file not found: " +:+ configPath))
  else
    match readFile fs configPath with
    | inr e => (st, inr e)
    | inl data =>
        if isYAMLFile fs configPath then
          match yamlUnmarshal fs data with
          | inr e => (st, inr ("error parsing YAML config: " +:+ e))
          | inl config =>
              ({| loadedConfigPath := configPath; printed := printed st |},
               inl config)
          end
        else
          match jsonUnmarshal fs data with
          | inr e => (st, inr ("error parsing JSON config: " +:+ e))
          | inl config =>
              ({| loadedConfigPath := configPath; printed := printed st |},
               inl config)
          end
    end.

(** [GetLoadedConfigPath]. *)
Definition GetLoadedConfigPath (st : Loader) : string := loadedConfigPath st.

(** The places [DefaultConfigPath] looks at, in its order. *)
Definition candidates (fs : Files) : list string :=
  [".delivr.yml"; ".delivr.json"; "config.yml"; "config.json"] ++
  match homeDir fs with
  | inl home => [Filepath.Join [home; ".delivr"; "config.yml"];
                 Filepath.Join [home; ".delivr"; "config.json"]]
  | inr _ => []
  end.

(** The file that names the configuration: the explicit path, else the
    variable of the environment, else the default. *)
Definition resolvedPath (fs : Files) (customPath : string) : string :=
  if negb (String.eqb customPath EmptyString) then customPath
  else if negb (String.eqb (getenv fs "DELIVR_CONFIG") EmptyString)
  then getenv fs "DELIVR_CONFIG"
  else DefaultConfigPath fs.

(** Reading the configuration at a given path: the file must not be
    known to be missing, must be readable, and must decode in the format
    its extension selects. *)
Definition readConfig (fs : Files) (path : string) : Config + error :=
  if statNotExist fs path then
    inr ("configuration file not found: " +:+ path)
  else
    match readFile fs path with
    | inr e => inr e
    | inl data =>
        if isYAMLFile fs path then
          match yamlUnmarshal fs data with
          | inr e => inr ("error parsing YAML config: " +:+ e)
          | inl config => inl config
          end
        else
          match jsonUnmarshal fs data with
          | inr e => inr ("error parsing JSON config: " +:+ e)
          | inl config => inl config
          end
    end.

End configload.

(** ** [main] from the construction of the client on *)

(** The configuration as [main] uses it, with a bot token and with the
    Docker and logging settings held by value. *)
Module configjson.
Import config.

Record DiscordConfig := { Token : string; ChannelID : string }.

Record DockerConfig := { Host : string }.

Record Config := {
  Discord : DiscordConfig;
  Docker : DockerConfig;
  Logs : LogConfig;
  Commands : list Command;
  WorkingDir : string }.

End configjson.

Module startup.
Import config configjson.

(** How [main] ends: [log.Fatalf] has ended the process, [main] has
    returned, or [main] is waiting for a signal. *)
Inductive Outcome := Fatal | Returned | Waiting.

(** The command logger before [main] has created it.  No step of [main]
    that runs before the creation reads it. *)
Definition noLogger : CommandLogger :=
  {| lconfig := {| Directory := EmptyString; MaxSize := 0; MaxAge := 0;
                   MaxBackups := 0; Compress := false |};
     baseDir := EmptyString;
     loggers := ∅ |}.

Section WithWorld.
Variable w : World.

(** [if err := discord.SendMessage(content); err != nil { log.Printf(...) }]. *)
Definition sendOrWarn (discord : discord_bot.Client) (content warning : string)
  : M unit :=
  err <- discord_bot.SendMessage w discord content ;;
  match err with
  | Some e => logPrintf (warning +:+ e)
  | None => ret tt
  end.

(** The state once the startup message has been sent through the client
    for the webhook [url]. *)
Definition startupState (url : string) (tr : list Event) : State :=
  fst (sendOrWarn (mainClient url) "🚀 Delivr service started"
                  "Warning: Could not send startup message: "
                  {| trace := tr; cmdLogger := noLogger |}).

(** [main] after the configuration is loaded, up to its return or up to
    the wait for a signal in daemon mode.  The deferred [Close] of the
    command logger, which releases its files, leaves no event. *)
Definition main (daemonMode : bool) (cfg : Config) (tr : list Event)
  : State * Outcome :=
  let st := {| trace := tr; cmdLogger := noLogger |} in
  match discord_bot.NewClient (Token (Discord cfg)) (ChannelID (Discord cfg)) with
  | inr e =>
      (emit (EvConsole ("Failed to initialize Discord client: " +:+ e)) st, Fatal)
  | inl discord =>
      let (st, _) :=
        sendOrWarn discord "🚀 Delivr service started"
                   "Warning: Could not send startup message: " st in
      match NewCommandLogger w (Logs cfg) (trace st) with
      | (tr, inr e) =>
          (emit (EvConsole ("Failed to initialize logger: " +:+ e))
                {| trace := tr; cmdLogger := noLogger |}, Fatal)
      | (tr, inl cmdLogger) =>
          let st := {| trace := tr; cmdLogger := cmdLogger |} in
          let dockerHost :=
            if negb (String.eqb (Host (Docker cfg)) EmptyString)
            then Host (Docker cfg) else EmptyString in
          let cmdRunner :=
            command.NewRunner (discord_bot.asDiscord w discord)
                              (logger.asLogger w) (WorkingDir cfg) dockerHost in
          let (st, _) := main.commandLoop w discord cmdRunner (Commands cfg) st in
          if negb daemonMode then
            let (st, _) :=
              (sendOrWarn discord
                 "✅ Delivr - Toutes les commandes ont été exécutées"
                 "Warning: Could not send completion message: " ;;;
               logPrintf "All commands executed, shutting down...") st in
            (st, Returned)
          else
            (emit (EvConsole "Running in daemon mode, press Ctrl+C to exit") st,
             Waiting)
      end
  end.

End WithWorld.

End startup.

(** ** Sample configurations *)

Module Samples.
Import config.

(** As [Demo.quiet], on a machine where the home directory is unknown. *)
Definition homeless : World :=
  {| environ := environ Demo.quiet;
     userHomeDir := inr "$HOME is not defined";
     mkdirAll := mkdirAll Demo.quiet;
     post := post Demo.quiet;
     runProcess := runProcess Demo.quiet;
     now := now Demo.quiet;
     fmtSeconds := fmtSeconds Demo.quiet;
     caseLower := caseLower Demo.quiet |}.

Definition dockerVersion : Command :=
  {| Name := "Docker Version"; Description := "Shows the version of Docker";
     Cmd := "docker"; Args := ["version"]; Dir := EmptyString; EnvVars := [] |}.

Definition logsHere : LogConfig :=
  {| Directory := "./logs"; MaxSize := 10; MaxAge := 30; MaxBackups := 5;
     Compress := true |}.

Definition settings : configjson.Config :=
  {| configjson.Discord :=
       {| configjson.Token := EmptyString; configjson.ChannelID := Demo.url |};
     configjson.Docker := {| configjson.Host := "unix:///var/run/docker.sock" |};
     configjson.Logs := logsHere;
     configjson.Commands := [Demo.hello; Demo.failing; Demo.hello];
     configjson.WorkingDir := EmptyString |}.

(** As [settings], with the identifier of a channel in place of a webhook. *)
Definition channelOnly : configjson.Config :=
  {| configjson.Discord :=
       {| configjson.Token := "bot-token";
          configjson.ChannelID := "1234567890" |};
     configjson.Docker := configjson.Docker settings;
     configjson.Logs := logsHere;
     configjson.Commands := configjson.Commands settings;
     configjson.WorkingDir := EmptyString |}.

(** As [settings], without any logging setting. *)
Definition noLogs : configjson.Config :=
  {| configjson.Discord := configjson.Discord settings;
     configjson.Docker := configjson.Docker settings;
     configjson.Logs := Demo.unset;
     configjson.Commands := configjson.Commands settings;
     configjson.WorkingDir := EmptyString |}.

Definition loaded : configload.Config :=
  {| configload.Discord := {| configload.ChannelID := Demo.url |};
     configload.Docker := None;
     configload.Logs := Some logsHere;
     configload.Commands := [Demo.hello];
     configload.WorkingDir := EmptyString |}.

(** A directory that holds [config.yml] alone, a YAML file of the
    configuration [loaded]. *)
Definition files : configload.Files :=
  {| configload.stat := fun p =>
       if String.eqb p "config.yml" then configload.StatOk
       else configload.StatNotExist;
     configload.getenv := fun _ => EmptyString;
     configload.homeDir := inl "/home/u";
     configload.readFile := fun p =>
       if String.eqb p "config.yml" then inl "commands: [...]"
       else inr "open: no such file or directory";
     configload.yamlUnmarshal := fun _ => inl loaded;
     configload.jsonUnmarshal := fun _ =>
       inr "invalid character 'c' looking for beginning of value";
     configload.caseTable := Demo.latin1 |}.

Definition nothingLoaded : configload.Loader :=
  {| configload.loadedConfigPath := EmptyString; configload.printed := [] |}.

End Samples.

(** * Properties *)

(** ** Strings *)

Lemma append_cons (c : ascii) (s t : string) :
  String c s +:+ t = String c (s +:+ t).
Proof. reflexivity. Qed.

Lemma append_empty_l (t : string) : EmptyString +:+ t = t.
Proof. reflexivity. Qed.

Lemma mapBytes_compose (f g : ascii -> ascii) (s : string) :
  mapBytes f (mapBytes g s) = mapBytes (fun c => f (g c)) s.
Proof. induction s as [|c r IH]; simpl; [reflexivity | now rewrite IH]. Qed.

Lemma mapBytes_ext (f g : ascii -> ascii) (s : string) :
  (forall c, f c = g c) -> mapBytes f s = mapBytes g s.
Proof.
  intros Hfg. induction s as [|c r IH]; simpl; [reflexivity|].
  now rewrite Hfg, IH.
Qed.

Lemma prefix_empty (s : string) : String.prefix EmptyString s = true.
Proof. destruct s; reflexivity. Qed.

Lemma ReplaceAll_byte (old new : ascii) (s : string) :
  ReplaceAll s (String old EmptyString) (String new EmptyString)
  = mapBytes (replaceByte old new) s.
Proof.
  unfold ReplaceAll. induction s as [|c r IH]; [reflexivity|].
  cbn [replaceFrom mapBytes String.prefix String.length Nat.sub].
  unfold replaceByte at 1.
  destruct (ascii_dec old c) as [->|Hne].
  - rewrite Ascii.eqb_refl, prefix_empty, append_cons, append_empty_l.
    now rewrite IH.
  - destruct (Ascii.eqb c old) eqn:E.
    + apply Ascii.eqb_eq in E. congruence.
    + now rewrite IH.
Qed.

Example ReplaceAll_overlap : ReplaceAll "aaaa" "aa" "b" = "bb".
Proof. reflexivity. Qed.

Example ReplaceAll_longer : ReplaceAll "abcabca" "abc" "xy" = "xyxya".
Proof. reflexivity. Qed.

(** ** UTF-8 *)

Ltac dm := Z.div_mod_to_equations; lia.

(** Settles the comparisons of the goal that the context decides. *)
Ltac zdecide :=
  match goal with
  | |- context [Z.ltb ?a ?b] =>
      first [ replace (Z.ltb a b) with true by (symmetry; apply Z.ltb_lt; dm)
            | replace (Z.ltb a b) with false by (symmetry; apply Z.ltb_ge; dm) ]
  | |- context [Z.leb ?a ?b] =>
      first [ replace (Z.leb a b) with true by (symmetry; apply Z.leb_le; dm)
            | replace (Z.leb a b) with false by (symmetry; apply Z.leb_gt; dm) ]
  | |- context [Z.eqb ?a ?b] =>
      first [ replace (Z.eqb a b) with true by (symmetry; apply Z.eqb_eq; dm)
            | replace (Z.eqb a b) with false by (symmetry; apply Z.eqb_neq; dm) ]
  end.

Ltac zcases := repeat (zdecide; cbn [andb orb negb]; cbv beta iota).

(** Splits on the comparisons of the goal. *)
Ltac zsplit :=
  repeat (match goal with
          | |- context [Z.ltb ?a ?b] => destruct (Z.ltb_spec a b)
          | |- context [Z.leb ?a ?b] => destruct (Z.leb_spec a b)
          | |- context [Z.eqb ?a ?b] => destruct (Z.eqb_spec a b)
          end; cbn [andb orb negb]; cbv beta iota; try (exfalso; dm)).

(** The same, with the outcome simplified in the hypotheses too. *)
Ltac zsplit_all :=
  repeat (match goal with
          | |- context [Z.ltb ?a ?b] => destruct (Z.ltb_spec a b)
          | |- context [Z.leb ?a ?b] => destruct (Z.leb_spec a b)
          | |- context [Z.eqb ?a ?b] => destruct (Z.eqb_spec a b)
          end; cbn [andb orb negb] in *; cbv beta iota in *;
          try (exfalso; lia)).

Section Utf8Facts.
Import Utf8.

Local Open Scope Z_scope.

Lemma byteZ_range (c : ascii) : 0 <= byteZ c < 256.
Proof. unfold byteZ. pose proof (N_ascii_bounded c). lia. Qed.

Lemma byteZ_byte (z : Z) : 0 <= z < 256 -> byteZ (byte z) = z.
Proof.
  intros H. unfold byteZ, byte. rewrite N_ascii_embedding by lia. lia.
Qed.

Lemma byte_byteZ (c : ascii) : byte (byteZ c) = c.
Proof. unfold byteZ, byte. now rewrite N2Z.id, ascii_N_embedding. Qed.

(** Bits that do not overlap add up. *)
Lemma lor_add (k x y : Z) :
  0 <= k -> 0 <= y < 2 ^ k -> x mod 2 ^ k = 0 -> Z.lor x y = x + y.
Proof.
  intros Hk Hy Hx.
  assert (Hl : Z.land x y = 0).
  { rewrite <- (Z.mod_small y (2 ^ k)) by lia.
    rewrite <- (Z.land_ones y k) by lia.
    rewrite (Z.land_comm y), Z.land_assoc, Z.land_ones by lia.
    now rewrite Hx. }
  pose proof (Z.add_lor_land x y). lia.
Qed.

Lemma land_63 (x : Z) : Z.land x 0x3F = x mod 64.
Proof. exact (Z.land_ones x 6 ltac:(lia)). Qed.

Lemma land_31 (x : Z) : Z.land x 0x1F = x mod 32.
Proof. exact (Z.land_ones x 5 ltac:(lia)). Qed.

Lemma land_15 (x : Z) : Z.land x 0x0F = x mod 16.
Proof. exact (Z.land_ones x 4 ltac:(lia)). Qed.

Lemma land_7 (x : Z) : Z.land x 0x07 = x mod 8.
Proof. exact (Z.land_ones x 3 ltac:(lia)). Qed.

Lemma shiftr_6 (x : Z) : Z.shiftr x 6 = x / 64.
Proof. exact (Z.shiftr_div_pow2 x 6 ltac:(lia)). Qed.

Lemma shiftr_12 (x : Z) : Z.shiftr x 12 = x / 4096.
Proof. exact (Z.shiftr_div_pow2 x 12 ltac:(lia)). Qed.

Lemma shiftr_18 (x : Z) : Z.shiftr x 18 = x / 262144.
Proof. exact (Z.shiftr_div_pow2 x 18 ltac:(lia)). Qed.

Lemma shiftl_6 (x : Z) : Z.shiftl x 6 = x * 64.
Proof. exact (Z.shiftl_mul_pow2 x 6 ltac:(lia)). Qed.

Lemma shiftl_12 (x : Z) : Z.shiftl x 12 = x * 4096.
Proof. exact (Z.shiftl_mul_pow2 x 12 ltac:(lia)). Qed.

Lemma shiftl_18 (x : Z) : Z.shiftl x 18 = x * 262144.
Proof. exact (Z.shiftl_mul_pow2 x 18 ltac:(lia)). Qed.

Lemma lor2 (a b : Z) :
  0 <= a -> 0 <= b < 64 -> Z.lor (a * 64) b = a * 64 + b.
Proof.
  intros Ha Hb. apply (lor_add 6); [lia | lia |].
  change (2 ^ 6) with 64. now rewrite Z.mod_mul by lia.
Qed.

Lemma lor_4096 (a b : Z) :
  0 <= a -> 0 <= b < 4096 -> Z.lor (a * 4096) b = a * 4096 + b.
Proof.
  intros Ha Hb. apply (lor_add 12); [lia | lia |].
  change (2 ^ 12) with 4096. now rewrite Z.mod_mul by lia.
Qed.

Lemma lor_262144 (a b : Z) :
  0 <= a -> 0 <= b < 262144 -> Z.lor (a * 262144) b = a * 262144 + b.
Proof.
  intros Ha Hb. apply (lor_add 18); [lia | lia |].
  change (2 ^ 18) with 262144. now rewrite Z.mod_mul by lia.
Qed.

Lemma lor3 (a b c : Z) :
  0 <= a -> 0 <= b < 64 -> 0 <= c < 64 ->
  Z.lor (Z.lor (a * 4096) (b * 64)) c = a * 4096 + b * 64 + c.
Proof.
  intros Ha Hb Hc. rewrite (lor_4096 a (b * 64)) by lia.
  replace (a * 4096 + b * 64) with ((a * 64 + b) * 64) by lia.
  apply lor2; lia.
Qed.

Lemma lor4 (a b c d : Z) :
  0 <= a -> 0 <= b < 64 -> 0 <= c < 64 -> 0 <= d < 64 ->
  Z.lor (Z.lor (Z.lor (a * 262144) (b * 4096)) (c * 64)) d
  = a * 262144 + b * 4096 + c * 64 + d.
Proof.
  intros Ha Hb Hc Hd. rewrite (lor_262144 a (b * 4096)) by lia.
  replace (a * 262144 + b * 4096) with ((a * 64 + b) * 4096) by lia.
  rewrite lor3 by lia. lia.
Qed.

Lemma lor_80 (y : Z) : 0 <= y < 64 -> Z.lor 0x80 y = 128 + y.
Proof. intros H. now apply (lor_add 6). Qed.

Lemma lor_C0 (y : Z) : 0 <= y < 32 -> Z.lor 0xC0 y = 192 + y.
Proof. intros H. now apply (lor_add 5). Qed.

Lemma lor_E0 (y : Z) : 0 <= y < 16 -> Z.lor 0xE0 y = 224 + y.
Proof. intros H. now apply (lor_add 4). Qed.

Lemma lor_F0 (y : Z) : 0 <= y < 8 -> Z.lor 0xF0 y = 240 + y.
Proof. intros H. now apply (lor_add 3). Qed.

Lemma ValidRune_cases (r : Z) :
  ValidRune r = true <-> 0 <= r < 0xD800 \/ 0xDFFF < r <= 0x10FFFF.
Proof.
  unfold ValidRune, MaxRune. rewrite orb_true_iff, !andb_true_iff.
  rewrite Z.leb_le, Z.ltb_lt, Z.ltb_lt, Z.leb_le. tauto.
Qed.

(** The encodings of one, two, three and four bytes. *)
Lemma AppendRune_1 (r : Z) :
  0 <= r <= 0x7F -> AppendRune r = String (byte r) EmptyString.
Proof.
  intros H. unfold AppendRune, MaxRune, RuneError. zcases. reflexivity.
Qed.

Lemma AppendRune_2 (r : Z) :
  0x80 <= r <= 0x7FF ->
  AppendRune r
  = String (byte (192 + r / 64)) (String (byte (128 + r mod 64)) EmptyString).
Proof.
  intros H. unfold AppendRune, MaxRune, RuneError. zcases.
  rewrite shiftr_6, land_63, lor_C0, lor_80 by dm. reflexivity.
Qed.

Lemma AppendRune_3 (r : Z) :
  0x800 <= r <= 0xFFFF -> ~ 0xD800 <= r <= 0xDFFF ->
  AppendRune r
  = String (byte (224 + r / 4096))
     (String (byte (128 + (r / 64) mod 64))
       (String (byte (128 + r mod 64)) EmptyString)).
Proof.
  intros H Hs. unfold AppendRune, MaxRune, RuneError.
  assert (Hr : r < 0xD800 \/ 0xDFFF < r) by lia.
  destruct Hr; zcases;
    rewrite shiftr_6, shiftr_12, !land_63, lor_E0, !lor_80 by dm; reflexivity.
Qed.

Lemma AppendRune_4 (r : Z) :
  0x10000 <= r <= 0x10FFFF ->
  AppendRune r
  = String (byte (240 + r / 262144))
     (String (byte (128 + (r / 4096) mod 64))
       (String (byte (128 + (r / 64) mod 64))
         (String (byte (128 + r mod 64)) EmptyString))).
Proof.
  intros H. unfold AppendRune, MaxRune, RuneError. zcases.
  rewrite shiftr_6, shiftr_12, shiftr_18, !land_63, lor_F0, !lor_80 by dm.
  reflexivity.
Qed.

(** What is not a code point is written as the replacement character. *)
Lemma AppendRune_invalid (r : Z) :
  0 <= r -> ValidRune r = false -> AppendRune r = AppendRune RuneError.
Proof.
  intros H0 Hv.
  assert (Hr : 0xD800 <= r <= 0xDFFF \/ 0x10FFFF < r).
  { destruct (ValidRune r) eqn:E; [discriminate|].
    destruct (Z.lt_ge_cases r 0xD800) as [Hl|Hl].
    - assert (ValidRune r = true) by (apply ValidRune_cases; lia). congruence.
    - destruct (Z.le_gt_cases r 0xDFFF) as [Hm|Hm]; [lia|].
      destruct (Z.le_gt_cases r 0x10FFFF) as [Hn|Hn]; [|lia].
      assert (ValidRune r = true) by (apply ValidRune_cases; lia). congruence. }
  unfold AppendRune at 1. unfold MaxRune.
  destruct Hr; zcases; reflexivity.
Qed.

(** Decoding what was encoded gives the rune back. *)
Lemma Decode_Append (r : Z) (rest : string) :
  ValidRune r = true ->
  DecodeRuneInString (AppendRune r +:+ rest)
  = (r, String.length (AppendRune r)).
Proof.
  intros Hv. apply ValidRune_cases in Hv.
  assert (Hc : 0 <= r <= 0x7F \/ 0x80 <= r <= 0x7FF \/
               (0x800 <= r <= 0xFFFF /\ ~ 0xD800 <= r <= 0xDFFF) \/
               0x10000 <= r <= 0x10FFFF) by lia.
  destruct Hc as [H|[H|[[H Hs]|H]]].
  - rewrite AppendRune_1 by exact H. rewrite append_cons.
    unfold DecodeRuneInString. cbv zeta. rewrite byteZ_byte by lia.
    zcases. reflexivity.
  - rewrite AppendRune_2 by exact H. rewrite !append_cons.
    unfold DecodeRuneInString, outside, acceptRange. cbv zeta.
    rewrite !byteZ_byte by dm. zsplit.
    rewrite land_31, land_63, shiftl_6, lor2 by dm.
    cbn [String.length]. f_equal. dm.
  - rewrite AppendRune_3 by assumption. rewrite !append_cons.
    unfold DecodeRuneInString, outside, acceptRange. cbv zeta.
    rewrite !byteZ_byte by dm. zsplit;
      rewrite land_15, !land_63, shiftl_6, shiftl_12, lor3 by dm;
      cbn [String.length]; f_equal; dm.
  - rewrite AppendRune_4 by assumption. rewrite !append_cons.
    unfold DecodeRuneInString, outside, acceptRange. cbv zeta.
    rewrite !byteZ_byte by dm. zsplit;
      rewrite land_7, !land_63, shiftl_6, shiftl_12, shiftl_18, lor4 by dm;
      cbn [String.length]; f_equal; dm.
Qed.

Lemma Decode_ascii (c : ascii) (t : string) :
  byteZ c < 0x80 -> DecodeRuneInString (String c t) = (byteZ c, 1%nat).
Proof.
  intros H. unfold DecodeRuneInString. cbv zeta. zcases. reflexivity.
Qed.

(** Every decoded rune is a code point. *)
Lemma Decode_valid (s : string) :
  ValidRune (fst (DecodeRuneInString s)) = true.
Proof.
  apply ValidRune_cases.
  destruct s as [|c0 [|c1 [|c2 [|c3 t]]]];
    unfold DecodeRuneInString, outside, acceptRange, RuneError; cbv zeta;
    try (cbn [fst]; lia).
  all: pose proof (byteZ_range c0).
  all: try pose proof (byteZ_range c1).
  all: try pose proof (byteZ_range c2).
  all: try pose proof (byteZ_range c3).
  all: zsplit; cbn [fst]; try lia.
  all: rewrite ?land_7, ?land_15, ?land_31, ?land_63, ?shiftl_6, ?shiftl_12,
         ?shiftl_18.
  all: first [ rewrite lor4 by dm | rewrite lor3 by dm | rewrite lor2 by dm ].
  all: dm.
Qed.

Lemma rangeOver_skip (a rest : string) :
  rangeOver (String.length a) (a +:+ rest) = rangeOver 0 rest.
Proof.
  induction a as [|c a IH]; [reflexivity|].
  rewrite append_cons. cbn [String.length rangeOver]. exact IH.
Qed.

Lemma AppendRune_cons (r : Z) : exists c a, AppendRune r = String c a.
Proof.
  unfold AppendRune.
  repeat match goal with
         | |- context [if ?b then _ else _] => destruct b
         end; eauto.
Qed.

Lemma runes_Append (r : Z) (rest : string) :
  ValidRune r = true -> runes (AppendRune r +:+ rest) = r :: runes rest.
Proof.
  intros Hv. pose proof (Decode_Append r rest Hv) as Hd.
  destruct (AppendRune_cons r) as (c & a & E). rewrite E in *.
  rewrite append_cons in *. unfold runes. cbn [rangeOver]. rewrite Hd.
  cbn [String.length Nat.sub]. rewrite Nat.sub_0_r.
  now rewrite rangeOver_skip.
Qed.

Lemma runes_AppendRunes (rs : list Z) :
  Forall (fun r => ValidRune r = true) rs -> runes (AppendRunes rs) = rs.
Proof.
  induction 1 as [|r rs Hr _ IH]; [reflexivity|].
  cbn [AppendRunes]. now rewrite runes_Append, IH.
Qed.

Lemma rangeOver_valid (skip : nat) (s : string) :
  Forall (fun r => ValidRune r = true) (rangeOver skip s).
Proof.
  revert skip. induction s as [|c t IH]; intros skip; [constructor|].
  cbn [rangeOver]. destruct skip as [|k]; [|apply IH].
  pose proof (Decode_valid (String c t)) as Hv.
  destruct (DecodeRuneInString (String c t)) as [r width].
  constructor; [exact Hv | apply IH].
Qed.

Lemma runes_valid (s : string) :
  Forall (fun r => ValidRune r = true) (runes s).
Proof. apply rangeOver_valid. Qed.

Lemma runes_ascii_cons (c : ascii) (t : string) :
  byteZ c < 0x80 -> runes (String c t) = byteZ c :: runes t.
Proof.
  intros H. unfold runes. cbn [rangeOver]. now rewrite Decode_ascii.
Qed.

End Utf8Facts.

Example runes_example :
  Utf8.runes "aé€😀" = [97; 233; 8364; 128512]%Z /\
  Utf8.AppendRunes [97; 233; 8364; 128512]%Z = "aé€😀".
Proof. split; vm_compute; reflexivity. Qed.

(** A byte that is not part of an encoding is read as U+FFFD, one rune for
    each such byte. *)
Example runes_invalid :
  Utf8.runes (String (Utf8.byte 0xE2) (String (Utf8.byte 0x82) "A"))
  = [0xFFFD; 0xFFFD; 65]%Z.
Proof. vm_compute. reflexivity. Qed.

(** An encoding that is longer than needed, the encoding of a surrogate
    half and an encoding beyond the last code point are no text: each of
    their bytes is read as U+FFFD. *)
Example runes_rejected :
  Utf8.runes (String (Utf8.byte 0xC0) (String (Utf8.byte 0x80) EmptyString))
  = [0xFFFD; 0xFFFD]%Z /\
  Utf8.runes (String (Utf8.byte 0xED) (String (Utf8.byte 0xA0)
               (String (Utf8.byte 0x80) EmptyString)))
  = [0xFFFD; 0xFFFD; 0xFFFD]%Z /\
  Utf8.runes (String (Utf8.byte 0xF4) (String (Utf8.byte 0x90)
               (String (Utf8.byte 0x80) (String (Utf8.byte 0x80) EmptyString))))
  = [0xFFFD; 0xFFFD; 0xFFFD; 0xFFFD]%Z.
Proof. repeat split; vm_compute; reflexivity. Qed.

Example firstRunes_example :
  Spec.firstRunes 2 0 "aé€x" = "aé" /\
  Spec.firstRunes 3 0 "aé€x" = "aé€" /\
  Utf8.RuneCountInString "aé€x" = 4.
Proof. repeat split; vm_compute; reflexivity. Qed.

(** ** Lower case *)

Lemma mapBytes_append (f : ascii -> ascii) (a b : string) :
  mapBytes f (a +:+ b) = mapBytes f a +:+ mapBytes f b.
Proof.
  induction a as [|c a IH]; [reflexivity|].
  rewrite append_cons. cbn [mapBytes]. now rewrite IH, append_cons.
Qed.

Lemma mapBytes_noUpper (s : string) :
  hasUpper s = false -> mapBytes toLowerByte s = s.
Proof.
  induction s as [|c s IH]; [reflexivity|]. cbn [hasUpper mapBytes].
  intros H. apply orb_false_iff in H as [Hc Hs].
  rewrite IH by exact Hs. unfold toLowerByte. now rewrite Hc.
Qed.

Lemma ToLower_ascii (caseTable : Z -> Z) (s : string) :
  isASCII s = true -> ToLower caseTable s = mapBytes toLowerByte s.
Proof.
  intros H. unfold ToLower. rewrite H.
  destruct (hasUpper s) eqn:E; [reflexivity|].
  symmetry. now apply mapBytes_noUpper.
Qed.

(** On one ASCII byte, writing the lower-case rune is lower-casing the
    byte. *)
Lemma writeLower_byte (caseTable : Z -> Z) (c : ascii) :
  (Utf8.byteZ c <? 0x80)%Z = true ->
  (if (0 <=? Unicode.ToLower caseTable (Utf8.byteZ c))%Z
   then Utf8.AppendRune (Unicode.ToLower caseTable (Utf8.byteZ c))
   else EmptyString)
  = String (toLowerByte c) EmptyString.
Proof.
  destruct c as [[] [] [] [] [] [] [] []]; intros H; vm_compute in H;
    try discriminate H; vm_compute; reflexivity.
Qed.

Lemma Map_ascii (caseTable : Z -> Z) (s : string) :
  isASCII s = true ->
  Map (Unicode.ToLower caseTable) s = mapBytes toLowerByte s.
Proof.
  induction s as [|c s IH]; [reflexivity|]. cbn [isASCII].
  intros H. apply andb_true_iff in H as [Hc Hs].
  unfold Map in *. rewrite runes_ascii_cons by now apply Z.ltb_lt.
  cbn [map writeMapped mapBytes].
  rewrite (writeLower_byte caseTable c Hc), (IH Hs). reflexivity.
Qed.

(** [strings.ToLower] maps every character of the text, whatever the
    text. *)
Lemma ToLower_Map (caseTable : Z -> Z) (s : string) :
  ToLower caseTable s = Map (Unicode.ToLower caseTable) s.
Proof.
  destruct (isASCII s) eqn:E.
  - now rewrite ToLower_ascii, Map_ascii.
  - unfold ToLower. now rewrite E.
Qed.

Lemma lowerRune_ToLower (caseTable : Z -> Z) (r : Z) :
  Spec.lowerRune caseTable r = Unicode.ToLower caseTable r.
Proof.
  unfold Spec.lowerRune, Unicode.ToLower.
  change (0x61 - 0x41)%Z with 32%Z. zsplit; reflexivity.
Qed.

(** ** Sanitization of log file names *)

Lemma sanitizeFilename_replaced (w : World) (s : string) :
  sanitizeFilename w s = mapBytes replaceSpecial (ToLower (caseLower w) s).
Proof.
  unfold sanitizeFilename, dquote.
  rewrite !ReplaceAll_byte, !mapBytes_compose.
  reflexivity.
Qed.

Lemma sanitizeFilename_bytes (w : World) (s : string) :
  isASCII s = true -> sanitizeFilename w s = mapBytes sanitizeByte s.
Proof.
  intros H. rewrite sanitizeFilename_replaced, ToLower_ascii by exact H.
  rewrite mapBytes_compose. reflexivity.
Qed.

Lemma sanitizeByte_spec (c : ascii) : sanitizeByte c = Spec.sanitizeChar c.
Proof. destruct c as [[] [] [] [] [] [] [] []]; vm_compute; reflexivity. Qed.

(** The replacements touch ASCII bytes alone, and on them they are the
    replacement of the character. *)
Lemma replaceSpecial_high (c : ascii) :
  (0x80 <=? Utf8.byteZ c)%Z = true -> replaceSpecial c = c.
Proof.
  destruct c as [[] [] [] [] [] [] [] []]; vm_compute;
    first [discriminate | reflexivity].
Qed.

Lemma replaceSpecial_low (c : ascii) :
  (Utf8.byteZ c <? 0x80)%Z = true ->
  Utf8.byte (replaceSpecialRune (Utf8.byteZ c)) = replaceSpecial c.
Proof.
  destruct c as [[] [] [] [] [] [] [] []]; vm_compute;
    first [discriminate | reflexivity].
Qed.

Lemma replaceSpecialRune_cases (r : Z) :
  (replaceSpecialRune r = 0x2D /\ 0 <= r <= 0x7F)%Z \/ replaceSpecialRune r = r.
Proof.
  unfold replaceSpecialRune, Spec.isSpecialRune. cbn [existsb].
  zsplit; first [right; reflexivity | left; split; [reflexivity | lia]].
Qed.

Lemma replaceSpecial_AppendRune (r : Z) :
  (0 <= r)%Z ->
  mapBytes replaceSpecial (Utf8.AppendRune r)
  = Utf8.AppendRune (replaceSpecialRune r).
Proof.
  intros H0.
  assert (Hhigh : forall z, (128 <= z < 256)%Z ->
                            replaceSpecial (Utf8.byte z) = Utf8.byte z).
  { intros z Hz. apply replaceSpecial_high. rewrite byteZ_byte by lia.
    apply Z.leb_le. lia. }
  assert (Hvalid : forall x, Utf8.ValidRune x = true -> (128 <= x)%Z ->
            mapBytes replaceSpecial (Utf8.AppendRune x) = Utf8.AppendRune x).
  { intros x Hv Hx. apply ValidRune_cases in Hv.
    assert (Hc : (0x80 <= x <= 0x7FF \/
                  (0x800 <= x <= 0xFFFF /\ ~ 0xD800 <= x <= 0xDFFF) \/
                  0x10000 <= x <= 0x10FFFF)%Z) by lia.
    destruct Hc as [Hc|[[Hc Hs]|Hc]].
    - rewrite AppendRune_2 by exact Hc. cbn [mapBytes].
      now rewrite !Hhigh by dm.
    - rewrite AppendRune_3 by assumption. cbn [mapBytes].
      now rewrite !Hhigh by dm.
    - rewrite AppendRune_4 by assumption. cbn [mapBytes].
      now rewrite !Hhigh by dm. }
  destruct (Z.lt_ge_cases r 128) as [Hlow|Hge].
  - rewrite AppendRune_1 by lia. cbn [mapBytes].
    assert (Hb : (Utf8.byteZ (Utf8.byte r) <? 0x80)%Z = true).
    { rewrite byteZ_byte by lia. apply Z.ltb_lt. lia. }
    rewrite <- (replaceSpecial_low _ Hb), byteZ_byte by lia.
    destruct (replaceSpecialRune_cases r) as [[-> _]| ->];
      [reflexivity | now rewrite AppendRune_1 by lia].
  - assert (Hsame : replaceSpecialRune r = r).
    { destruct (replaceSpecialRune_cases r) as [[_ Hr]|Hr]; [lia | exact Hr]. }
    rewrite Hsame. destruct (Utf8.ValidRune r) eqn:Hv.
    + now apply Hvalid.
    + rewrite AppendRune_invalid by assumption.
      apply Hvalid; [reflexivity | unfold Utf8.RuneError; lia].
Qed.

Lemma replaceSpecial_writeMapped (rs : list Z) :
  mapBytes replaceSpecial (writeMapped rs)
  = writeMapped (map replaceSpecialRune rs).
Proof.
  induction rs as [|r rs IH]; [reflexivity|].
  cbn [writeMapped map]. rewrite mapBytes_append, IH. f_equal.
  destruct (Z.leb_spec 0 r) as [H|H].
  - rewrite replaceSpecial_AppendRune by exact H.
    destruct (replaceSpecialRune_cases r) as [[-> _]| ->];
      [reflexivity|]. now apply Z.leb_le in H as ->.
  - destruct (replaceSpecialRune_cases r) as [[_ Hr]| ->]; [lia|].
    apply Z.leb_gt in H. now rewrite H.
Qed.

(** The sanitized name, character by character. *)
Lemma sanitizeFilename_runes (w : World) (s : string) :
  sanitizeFilename w s
  = writeMapped (map (Spec.sanitizeRune (caseLower w)) (Utf8.runes s)).
Proof.
  rewrite sanitizeFilename_replaced, ToLower_Map. unfold Map.
  rewrite replaceSpecial_writeMapped, map_map.
  f_equal. apply map_ext. intros r.
  unfold Spec.sanitizeRune. now rewrite lowerRune_ToLower.
Qed.

Lemma writeMapped_valid (rs : list Z) :
  Forall (fun r => Utf8.ValidRune r = true) rs ->
  writeMapped rs = Utf8.AppendRunes rs.
Proof.
  induction 1 as [|r rs Hr _ IH]; [reflexivity|].
  cbn [writeMapped Utf8.AppendRunes]. rewrite IH.
  apply ValidRune_cases in Hr.
  assert (H : (0 <=? r)%Z = true) by (apply Z.leb_le; lia).
  now rewrite H.
Qed.

Example sanitize_example :
  sanitizeFilename Demo.quiet "Show Docker/Status: A*B?"
  = "show-docker-status--a-b-".
Proof. vm_compute. reflexivity. Qed.

(** A name with letters beyond ASCII is decoded and lower-cased by the
    case table, and a byte that is no text is replaced. *)
Example sanitize_accents :
  sanitizeFilename Demo.quiet "ÉCOLE D'ÉTÉ" = "école-d'été" /\
  sanitizeFilename Demo.quiet (String (Utf8.byte 0xFF) "A")
  = Utf8.AppendRunes [0xFFFD; 0x61]%Z.
Proof. split; vm_compute; reflexivity. Qed.

Section Sanitization.

Variable w : World.

Local Abbreviation lower := (Unicode.ToLower (caseLower w)).

(** What is assumed of the case table of the library: the lower-case form
    of a code point is a code point, and it is its own lower-case form. *)
Hypothesis lower_valid :
  forall r, Utf8.ValidRune r = true -> Utf8.ValidRune (lower r) = true.
Hypothesis lower_idempotent :
  forall r, Utf8.ValidRune r = true -> lower (lower r) = lower r.

Lemma sanitizeRune_valid (r : Z) :
  Utf8.ValidRune r = true ->
  Utf8.ValidRune (Spec.sanitizeRune (caseLower w) r) = true.
Proof.
  intros Hr. unfold Spec.sanitizeRune. rewrite lowerRune_ToLower.
  destruct (Spec.isSpecialRune (lower r)); [reflexivity|].
  now apply lower_valid.
Qed.

Lemma sanitizeRune_idempotent (r : Z) :
  Utf8.ValidRune r = true ->
  Spec.sanitizeRune (caseLower w) (Spec.sanitizeRune (caseLower w) r)
  = Spec.sanitizeRune (caseLower w) r.
Proof.
  intros Hr. unfold Spec.sanitizeRune. rewrite !lowerRune_ToLower.
  destruct (Spec.isSpecialRune (lower r)) eqn:E.
  - reflexivity.
  - rewrite lower_idempotent by exact Hr. now rewrite E.
Qed.

Lemma sanitizeFilename_chars (s : string) :
  sanitizeFilename w s
  = Utf8.AppendRunes (map (Spec.sanitizeRune (caseLower w)) (Utf8.runes s)).
Proof.
  rewrite sanitizeFilename_runes. apply writeMapped_valid.
  apply Forall_map. eapply Forall_impl; [apply runes_valid|].
  intros r Hr. now apply sanitizeRune_valid.
Qed.

Lemma sanitizeFilename_idem (s : string) :
  sanitizeFilename w (sanitizeFilename w s) = sanitizeFilename w s.
Proof.
  rewrite (sanitizeFilename_chars (sanitizeFilename w s)).
  rewrite (sanitizeFilename_chars s).
  rewrite runes_AppendRunes.
  - rewrite map_map. f_equal. apply map_ext_in. intros r Hr.
    apply sanitizeRune_idempotent.
    pose proof (runes_valid s) as Hv. rewrite List.Forall_forall in Hv.
    now apply Hv.
  - apply Forall_map. eapply Forall_impl; [apply runes_valid|].
    intros r Hr. now apply sanitizeRune_valid.
Qed.

End Sanitization.

(** C8.  Sanitizing a log file name is a function of the name alone and is
    idempotent; it works character by character on the characters that
    Go reads in the name, a byte that is not part of a UTF-8 encoding
    being read and written as U+FFFD: each character is lower-cased, each
    of the ten listed characters becomes a hyphen, and every other
    character is left as it is.  On a name of ASCII characters this is a
    map on its bytes in
    which the letters from A to Z become the letters from a to z.  The
    lower-case form of a character beyond ASCII is that of the case table
    of the library, of which it is assumed that the lower-case form of a
    code point is a code point that is its own lower-case form. *)
Theorem sanitizeFilename_idempotent_charwise (w : World) (s : string) :
  (forall r, Utf8.ValidRune r = true ->
             Utf8.ValidRune (Unicode.ToLower (caseLower w) r) = true) ->
  (forall r, Utf8.ValidRune r = true ->
             Unicode.ToLower (caseLower w) (Unicode.ToLower (caseLower w) r)
             = Unicode.ToLower (caseLower w) r) ->
  sanitizeFilename w (sanitizeFilename w s) = sanitizeFilename w s /\
  sanitizeFilename w s
  = Utf8.AppendRunes (map (Spec.sanitizeRune (caseLower w)) (Utf8.runes s)) /\
  (isASCII s = true -> sanitizeFilename w s = mapBytes Spec.sanitizeChar s).
Proof.
  intros Hv Hi. split; [|split].
  - now apply sanitizeFilename_idem.
  - now apply sanitizeFilename_chars.
  - intros Ha. rewrite sanitizeFilename_bytes by exact Ha.
    apply mapBytes_ext, sanitizeByte_spec.
Qed.

(** ** Bytes that occur in a string *)

Lemma hasByte_append (c : ascii) (a b : string) :
  hasByte c (a +:+ b) = hasByte c a || hasByte c b.
Proof.
  induction a as [|d a IH]; [reflexivity|].
  rewrite append_cons. simpl. rewrite IH. now destruct (Ascii.eqb c d).
Qed.

Lemma hasByte_mapBytes (c : ascii) (f : ascii -> ascii) (s : string) :
  (forall x, Ascii.eqb c (f x) = false) -> hasByte c (mapBytes f s) = false.
Proof.
  intros Hf. induction s as [|d s IH]; [reflexivity|].
  simpl. now rewrite Hf, IH.
Qed.

Lemma append_empty_r (s : string) : s +:+ EmptyString = s.
Proof.
  induction s as [|c s IH]; [reflexivity|]. now rewrite append_cons, IH.
Qed.

Lemma append_assoc (a b c : string) : (a +:+ b) +:+ c = a +:+ (b +:+ c).
Proof.
  induction a as [|x a IH]; [reflexivity|]. now rewrite !append_cons, IH.
Qed.

(** ** Paths *)

Module FilepathFacts.
Import Filepath PathShape.

Lemma elements_nonempty (s : string) : elements s <> [].
Proof.
  induction s as [|c s IH]; cbn [elements]; [discriminate|].
  destruct (Ascii.eqb c slash); [discriminate|].
  destruct (elements s); [contradiction | discriminate].
Qed.

Lemma elements_slashFree (f : string) : slashFree f -> elements f = [f].
Proof.
  unfold slashFree. induction f as [|c f IH]; cbn [elements hasByte];
    [reflexivity|].
  intros H. apply orb_false_iff in H as [Hc Hf].
  rewrite Ascii.eqb_sym, Hc. now rewrite (IH Hf).
Qed.

Lemma elements_join (a b : string) :
  elements (a +:+ String slash b) = elements a ++ elements b.
Proof.
  induction a as [|c a IH].
  - rewrite append_empty_l. reflexivity.
  - rewrite append_cons. cbn [elements]. rewrite IH.
    destruct (Ascii.eqb c slash); [reflexivity|].
    pose proof (elements_nonempty a) as Hne.
    destruct (elements a); [contradiction | reflexivity].
Qed.

Lemma elements_all_slashFree (s : string) : Forall slashFree (elements s).
Proof.
  induction s as [|c s IH]; cbn [elements].
  - repeat constructor.
  - destruct (Ascii.eqb c slash) eqn:E.
    + constructor; [reflexivity | exact IH].
    + destruct (elements s) as [|h t].
      * repeat constructor. unfold slashFree. cbn [hasByte].
        now rewrite Ascii.eqb_sym, E.
      * inversion IH as [|? ? Hh Ht]; subst. constructor; [|exact Ht].
        unfold slashFree in *. cbn [hasByte].
        now rewrite Ascii.eqb_sym, E, Hh.
Qed.

Lemma cleanStep_plain (rooted : bool) (kept : list string) (f : string) :
  f <> EmptyString -> f <> "." -> f <> ".." ->
  cleanStep rooted kept f = f :: kept.
Proof.
  intros H1 H2 H3. unfold cleanStep.
  apply String.eqb_neq in H1, H2, H3. now rewrite H1, H2, H3.
Qed.

Lemma cleanStep_keptOk (rooted : bool) (kept : list string) (e : string) :
  keptOk rooted kept -> keptOk rooted (cleanStep rooted kept e).
Proof.
  intros Hk. unfold cleanStep.
  destruct (String.eqb e EmptyString) eqn:E1; [exact Hk|].
  destruct (String.eqb e ".") eqn:E2; [exact Hk|].
  apply String.eqb_neq in E1, E2.
  destruct (String.eqb e "..") eqn:E3.
  - apply String.eqb_eq in E3. subst e.
    destruct kept as [|k kept'].
    + destruct rooted; simpl; [exact I|]. repeat split; auto.
    + destruct (String.eqb k "..") eqn:E4.
      * apply String.eqb_eq in E4. subst k.
        pose proof Hk as Hk'. simpl in Hk'.
        destruct Hk' as (Ha & Hb & Hc & Hd).
        destruct (Hc eq_refl) as [Hr _].
        change (".." <> EmptyString /\ ".." <> "." /\
                (".." = ".." -> rooted = false /\ ".." = "..") /\
                keptOk rooted (".." :: kept')).
        split; [exact Ha|]. split; [exact Hb|].
        split; [intros _; split; [exact Hr | reflexivity] | exact Hk].
      * simpl in Hk. tauto.
  - apply String.eqb_neq in E3. simpl. repeat split; auto; contradiction.
Qed.

Lemma cleanElements_keptOk (rooted : bool) (es kept : list string) :
  keptOk rooted kept -> keptOk rooted (cleanElements rooted kept es).
Proof.
  revert kept. induction es as [|e es IH]; intros kept Hk; [exact Hk|].
  simpl. apply IH, cleanStep_keptOk, Hk.
Qed.

Lemma cleanStep_slashFree (rooted : bool) (kept : list string) (e : string) :
  Forall slashFree kept -> slashFree e ->
  Forall slashFree (cleanStep rooted kept e).
Proof.
  intros Hk He. unfold cleanStep.
  repeat match goal with
         | |- context [if ?b then _ else _] => destruct b
         | |- context [match ?l with [] => _ | _ :: _ => _ end] => destruct l
         end;
    repeat constructor; auto; inversion Hk; auto.
Qed.

Lemma cleanElements_slashFree (rooted : bool) (es kept : list string) :
  Forall slashFree kept -> Forall slashFree es ->
  Forall slashFree (cleanElements rooted kept es).
Proof.
  revert kept. induction es as [|e es IH]; intros kept Hk Hes; [exact Hk|].
  inversion Hes; subst. simpl. apply IH; [apply cleanStep_slashFree|]; auto.
Qed.

Lemma keptOk_suffix (rooted : bool) (l kept : list string) :
  keptOk rooted (l ++ kept) -> keptOk rooted kept.
Proof.
  induction l as [|e l IH]; [auto|]. intros H. apply IH. simpl in H. tauto.
Qed.

(** Cleaning elements that are clean already keeps them all. *)
Lemma cleanElements_stable (rooted : bool) (l kept : list string) :
  keptOk rooted (rev l ++ kept) ->
  cleanElements rooted kept l = rev l ++ kept.
Proof.
  revert kept. induction l as [|e l IH]; intros kept H; [reflexivity|].
  cbn [rev] in *. rewrite <- app_assoc in *. cbn [app] in *.
  cbn [cleanElements fold_left].
  assert (Hstep : cleanStep rooted kept e = e :: kept).
  { apply keptOk_suffix in H. destruct H as (H1 & H2 & H3 & _).
    destruct (String.eqb e "..") eqn:E.
    - apply String.eqb_eq in E. subst e. destruct (H3 eq_refl) as [Hr Hk].
      unfold cleanStep. cbn [String.eqb Ascii.eqb Bool.eqb].
      destruct kept as [|k kept']; [now rewrite Hr|].
      subst k. reflexivity.
    - apply String.eqb_neq in E. now apply cleanStep_plain. }
  rewrite Hstep. apply (IH (e :: kept)), H.
Qed.

Lemma concat_snoc (l : list string) (f : string) :
  String.concat "/" (l ++ [f]) = dirString l +:+ f.
Proof.
  induction l as [|e l IH]; [reflexivity|].
  cbn [app dirString]. rewrite append_assoc, append_cons, <- IH.
  destruct l; reflexivity.
Qed.

Lemma elements_dirString (l : list string) :
  Forall slashFree l -> elements (dirString l) = l ++ [EmptyString].
Proof.
  induction 1 as [|e l He Hl IH]; [reflexivity|].
  cbn [dirString]. rewrite elements_join, IH, (elements_slashFree e He).
  reflexivity.
Qed.

Lemma upToLastSlash_slashFree (f : string) :
  slashFree f -> upToLastSlash f = EmptyString.
Proof.
  unfold slashFree. induction f as [|c f IH]; [reflexivity|].
  cbn [hasByte upToLastSlash]. intros H.
  apply orb_false_iff in H as [Hc Hf].
  now rewrite Hf, Ascii.eqb_sym, Hc.
Qed.

Lemma hasByte_join (a b : string) : hasByte slash (a +:+ String slash b) = true.
Proof.
  rewrite hasByte_append. cbn [hasByte]. rewrite Ascii.eqb_refl.
  now destruct (hasByte slash a).
Qed.

Lemma upToLastSlash_join (a b : string) :
  upToLastSlash (a +:+ String slash b) = a +:+ String slash (upToLastSlash b).
Proof.
  induction a as [|c a IH].
  - rewrite !append_empty_l. cbn [upToLastSlash].
    destruct (hasByte slash b) eqn:E; [reflexivity|].
    now rewrite Ascii.eqb_refl, upToLastSlash_slashFree.
  - rewrite !append_cons. cbn [upToLastSlash].
    now rewrite hasByte_join, IH.
Qed.

Lemma upToLastSlash_dirString (l : list string) (f : string) :
  slashFree f -> upToLastSlash (dirString l +:+ f) = dirString l.
Proof.
  intros Hf. induction l as [|e l IH].
  - now apply upToLastSlash_slashFree.
  - cbn [dirString]. rewrite append_assoc, append_cons.
    now rewrite upToLastSlash_join, IH.
Qed.

Lemma isRooted_dirString (rooted : bool) (kept : list string) :
  keptOk rooted kept -> Forall slashFree kept ->
  isRooted (dirString (rev kept)) = false.
Proof.
  intros Hk Hs.
  assert (Hall : Forall (fun e => slashFree e /\ e <> EmptyString) (rev kept)).
  { apply Forall_rev. induction Hs as [|e l He Hl IH]; constructor.
    - split; [exact He|]. simpl in Hk. tauto.
    - apply IH. simpl in Hk. tauto. }
  destruct (rev kept) as [|e l]; [reflexivity|].
  inversion Hall as [|? ? [He Hne] _]; subst.
  destruct e as [|c e]; [contradiction|].
  unfold slashFree in He. cbn [hasByte] in He.
  apply orb_false_iff in He as [Hc _].
  cbn [dirString]. rewrite append_cons. cbn [isRooted].
  now rewrite Ascii.eqb_sym.
Qed.

Lemma keptOf_ok (path : string) :
  keptOk (isRooted path) (keptOf path) /\ Forall slashFree (keptOf path).
Proof.
  split.
  - apply cleanElements_keptOk. exact I.
  - apply cleanElements_slashFree; [constructor | apply elements_all_slashFree].
Qed.

(** Joining a directory and a plain file name appends the name to the
    cleaned directory. *)
Lemma Join_plain (base f : string) :
  plainName f ->
  Join [base; f] = render (isRooted base) (f :: keptOf base).
Proof.
  intros (Hs & H1 & H2 & H3). cbn [Join].
  apply String.eqb_neq in H1 as H1'. rewrite H1'.
  destruct (String.eqb base EmptyString) eqn:Eb.
  - apply String.eqb_eq in Eb. subst base.
    cbn [String.concat]. unfold Clean.
    assert (Hr : isRooted f = false).
    { destruct f as [|c f]; [reflexivity|]. unfold slashFree in Hs.
      cbn [hasByte] in Hs. apply orb_false_iff in Hs as [Hc _].
      cbn [isRooted]. now rewrite Ascii.eqb_sym. }
    rewrite Hr, (elements_slashFree f Hs).
    cbn [cleanElements fold_left]. now rewrite cleanStep_plain.
  - apply String.eqb_neq in Eb.
    change (String.concat "/" [base; f]) with (base +:+ String slash f).
    unfold Clean.
    assert (Hr : isRooted (base +:+ String slash f) = isRooted base).
    { destruct base; [contradiction | reflexivity]. }
    rewrite Hr, elements_join, (elements_slashFree f Hs).
    unfold cleanElements. rewrite fold_left_app. cbn [fold_left].
    now rewrite cleanStep_plain.
Qed.

Lemma render_snoc (rooted : bool) (kept : list string) (f : string) :
  render rooted (f :: kept)
  = (if rooted then "/" else EmptyString) +:+ dirString (rev kept) +:+ f.
Proof.
  unfold render. cbn [rev]. rewrite concat_snoc. now destruct rooted.
Qed.

Lemma Clean_dirString (rooted : bool) (kept : list string) :
  keptOk rooted kept -> Forall slashFree kept ->
  Clean ((if rooted then "/" else EmptyString) +:+ dirString (rev kept))
  = render rooted kept.
Proof.
  intros Hk Hs. unfold Clean.
  assert (Hr : isRooted ((if rooted then "/" else EmptyString)
                         +:+ dirString (rev kept)) = rooted).
  { destruct rooted; [reflexivity|]. rewrite append_empty_l.
    now apply (isRooted_dirString false). }
  rewrite Hr. f_equal.
  assert (Hel : cleanElements rooted []
                  (elements (dirString (rev kept))) = kept).
  { rewrite elements_dirString by now apply Forall_rev.
    unfold cleanElements. rewrite fold_left_app. cbn [fold_left].
    fold (cleanElements rooted [] (rev kept)).
    rewrite cleanElements_stable; rewrite rev_involutive, app_nil_r;
      [reflexivity | exact Hk]. }
  destruct rooted.
  - rewrite append_cons, append_empty_l. cbn [elements].
    rewrite Ascii.eqb_refl. exact Hel.
  - rewrite append_empty_l. exact Hel.
Qed.

(** A plain file name joined to a directory lies directly in it. *)
Lemma Dir_Join_plain (base f : string) :
  plainName f -> Dir (Join [base; f]) = Clean base.
Proof.
  intros Hf. rewrite (Join_plain base f Hf), render_snoc.
  destruct (keptOf_ok base) as [Hk Hs]. destruct Hf as (Hsf & _).
  unfold Dir.
  assert (Hup : upToLastSlash
                  ((if isRooted base then "/" else EmptyString)
                   +:+ dirString (rev (keptOf base)) +:+ f)
                = (if isRooted base then "/" else EmptyString)
                  +:+ dirString (rev (keptOf base))).
  { destruct (isRooted base).
    - rewrite !append_cons, !append_empty_l.
      change (String "/" ?x) with (String slash x).
      rewrite <- (append_empty_l (String slash _)), upToLastSlash_join.
      now rewrite upToLastSlash_dirString.
    - rewrite !append_empty_l. now apply upToLastSlash_dirString. }
  rewrite Hup. now apply Clean_dirString.
Qed.

End FilepathFacts.

(** The model of [Clean], [Join] and [Dir] on the cases that Go documents. *)
Example Clean_cases :
  map Filepath.Clean
    ["abc//def//ghi"; "abc/def/../ghi/../jkl"; "/../abc"; "../../abc";
     EmptyString; "/"; "abc/./../def"; "abc/../../././../def"; "abc/def/..";
     "abc/def/../.."; "/abc/def/../.."; "abc/"; "/abc/"]
  = ["abc/def/ghi"; "abc/jkl"; "/abc"; "../../abc";
     "."; "/"; "def"; "../../def"; "abc";
     "."; "/"; "abc"; "/abc"].
Proof. reflexivity. Qed.

Example Dir_cases :
  map Filepath.Dir
    [EmptyString; "/"; "////"; "/foo"; "x/"; "abc"; "abc/def"; "a/b/.x"; "a/b/c."]
  = ["."; "/"; "/"; "/"; "x"; "."; "abc"; "a/b"; "a/b"].
Proof. reflexivity. Qed.

Example Join_cases :
  map Filepath.Join
    [["a"; "b"]; ["a"; EmptyString]; [EmptyString; "b"]; ["/"; "a"];
     ["a/"; "b"]; [EmptyString; EmptyString]; ["/home/u"; ".delivr"; "logs"]]
  = ["a/b"; "a"; "b"; "/a"; "a/b"; EmptyString; "/home/u/.delivr/logs"].
Proof. reflexivity. Qed.

(** ** The log file of a command lies directly in the log directory *)

Lemma hasByte_zeros (c : ascii) (n : nat) :
  Ascii.eqb c "0" = false -> hasByte c (Time.zeros n) = false.
Proof.
  intros Hc. unfold Time.zeros. induction (seq 0 n) as [|x l IH]; [reflexivity|].
  cbn [fold_right hasByte]. now rewrite Hc, IH.
Qed.

Lemma hasByte_digits (c : ascii) (u : Decimal.uint) :
  hasByte c "0123456789" = false ->
  hasByte c (NilZero.string_of_uint u) = false.
Proof.
  intros Hc. cbn [hasByte] in Hc.
  repeat (apply orb_false_iff in Hc as [? Hc]).
  assert (Hne : hasByte c (NilEmpty.string_of_uint u) = false).
  { induction u; cbn [NilEmpty.string_of_uint hasByte]; [reflexivity|..];
      rewrite IHu, orb_false_r; assumption. }
  destruct u; try exact Hne. cbn [NilZero.string_of_uint hasByte].
  now rewrite orb_false_r.
Qed.

Lemma hasByte_appendInt (c : ascii) (x : N) (width : nat) :
  hasByte c "0123456789" = false ->
  hasByte c (Time.appendInt x width) = false.
Proof.
  intros Hc. unfold Time.appendInt.
  rewrite hasByte_append, hasByte_digits by exact Hc.
  rewrite hasByte_zeros; [reflexivity|].
  cbn [hasByte] in Hc. now apply orb_false_iff in Hc as [? _].
Qed.

(** A date in the layout [2006-01-02] holds digits and hyphens only. *)
Lemma hasByte_FormatDate (c : ascii) (t : Time.Time) :
  hasByte c "0123456789-" = false -> hasByte c (Time.FormatDate t) = false.
Proof.
  intros Hc.
  assert (Hd : hasByte c "0123456789" = false /\ hasByte c "-" = false).
  { cbn [hasByte] in *.
    repeat match type of Hc with
           | context [Ascii.eqb c ?d] =>
               destruct (Ascii.eqb c d); [cbn in Hc; discriminate Hc|]
           end.
    split; reflexivity. }
  destruct Hd as [Hd Hh].
  unfold Time.FormatDate.
  now rewrite !hasByte_append, !hasByte_appendInt, Hh by exact Hd.
Qed.

Lemma replaceSpecial_not_separator (x : ascii) :
  Ascii.eqb "/" (replaceSpecial x) = false /\
  Ascii.eqb "\" (replaceSpecial x) = false.
Proof. destruct x as [[] [] [] [] [] [] [] []]; vm_compute; split; reflexivity. Qed.

(** The file name of a log holds neither a slash nor a backslash. *)
Lemma logFileName_no_separator (w : World) (name : string) (t : Time.Time) :
  hasByte "/" (logFileName (sanitizeFilename w name) (Time.FormatDate t))
  = false /\
  hasByte "\" (logFileName (sanitizeFilename w name) (Time.FormatDate t))
  = false.
Proof.
  unfold logFileName. rewrite !hasByte_append, sanitizeFilename_replaced.
  rewrite !hasByte_mapBytes by apply replaceSpecial_not_separator.
  rewrite !hasByte_FormatDate by reflexivity.
  split; reflexivity.
Qed.

Lemma logFileName_plain (w : World) (name : string) (t : Time.Time) :
  PathShape.plainName
    (logFileName (sanitizeFilename w name) (Time.FormatDate t)).
Proof.
  split; [apply logFileName_no_separator|].
  assert (Hh : hasByte "-" (logFileName (sanitizeFilename w name)
                              (Time.FormatDate t)) = true).
  { unfold logFileName. rewrite !hasByte_append. cbn [hasByte Ascii.eqb Bool.eqb].
    now rewrite !orb_true_r. }
  repeat split; intros E; rewrite E in Hh; discriminate.
Qed.

(** C9.  For every command name, the file name that the logger builds holds
    no path separator, so the path that [GetLogPath] reports lies directly
    in the log directory; and as long as every file opened so far does, so
    does the file behind the writer that [GetLogWriter] returns, cached or
    new. *)
Theorem log_path_directly_in_log_directory
  (w : World) (name : string) (st : State) :
  cacheInside (cmdLogger st) ->
  let fname := logFileName (sanitizeFilename w name)
                           (Time.FormatDate (now w (trace st))) in
  (hasByte "/" fname = false /\ hasByte "\" fname = false) /\
  (snd (GetLogPath w name st) = Filepath.Join [baseDir (cmdLogger st); fname] /\
   Filepath.Dir (snd (GetLogPath w name st))
   = Filepath.Clean (baseDir (cmdLogger st))) /\
  (exists f,
      snd (GetLogWriter w name st) = fileWriter f /\
      loggers (cmdLogger (fst (GetLogWriter w name st)))
        !! sanitizeFilename w name = Some f /\
      Filepath.Dir (Filename f) = Filepath.Clean (baseDir (cmdLogger st)) /\
      baseDir (cmdLogger (fst (GetLogWriter w name st))) = baseDir (cmdLogger st) /\
      cacheInside (cmdLogger (fst (GetLogWriter w name st)))).
Proof.
  intros Hcache fname.
  pose proof (logFileName_plain w name (now w (trace st))) as Hplain.
  fold fname in Hplain.
  split; [apply logFileName_no_separator|].
  split.
  - split; [reflexivity|]. cbn [GetLogPath snd].
    now apply FilepathFacts.Dir_Join_plain.
  - unfold GetLogWriter.
    destruct (loggers (cmdLogger st) !! sanitizeFilename w name) as [lg|] eqn:E.
    + exists lg. cbn [fst snd]. repeat split; auto.
      exact (Hcache _ _ E).
    + eexists. cbn [fst snd cmdLogger loggers baseDir].
      split; [reflexivity|]. split; [apply lookup_insert_eq|].
      cbn [Filename]. fold fname.
      split; [now apply FilepathFacts.Dir_Join_plain|].
      split; [reflexivity|].
      unfold cacheInside. cbn [loggers baseDir].
      apply map_Forall_insert_2; [|exact Hcache].
      cbn [Filename]. now apply FilepathFacts.Dir_Join_plain.
Qed.

(** ** [Execute] on the wired runner follows the account *)

Section ExecuteFacts.
Import config command.

Variables (w : World) (url wdir dhost : string).

Lemma sendWebhookMessage_eq (content : string) (st : State) :
  sendWebhookMessage w url content st
  = (emit (EvPost url (delivr content)
                  (post w (trace st) url (delivr content))) st,
     responseError (post w (trace st) url (delivr content))).
Proof. reflexivity. Qed.

Lemma writeAll_file (f : RotatingFile) (texts : list string) (st : State) :
  writeAll (fileWriter f) texts st
  = ({| trace := trace st ++ map (EvWrite (Filename f)) texts;
        cmdLogger := cmdLogger st |}, tt).
Proof.
  revert st. induction texts as [|t texts IH]; intros st.
  - cbn [writeAll map]. rewrite app_nil_r. now destruct st.
  - cbn [writeAll map]. unfold bind at 1. cbn [Write fileWriter].
    unfold writeLog at 1. rewrite IH. unfold emit. cbn [trace cmdLogger].
    now rewrite <- app_assoc.
Qed.

Lemma GetLogWriter_account (cmd : Command) (st : State) :
  logger.GetLogWriter w (Name cmd)
    {| trace := Account.afterStart w url cmd st; cmdLogger := cmdLogger st |}
  = ({| trace := Account.afterStart w url cmd st;
        cmdLogger := Account.loggerAfter w url cmd st |},
     fileWriter (Account.logFile w url cmd st)).
Proof.
  unfold logger.GetLogWriter, Account.loggerAfter, Account.logFile.
  cbn [trace cmdLogger]. fold (Account.safeName w cmd).
  destruct (loggers (cmdLogger st) !! Account.safeName w cmd); reflexivity.
Qed.

Lemma baseDir_loggerAfter (cmd : Command) (st : State) :
  baseDir (Account.loggerAfter w url cmd st) = baseDir (cmdLogger st).
Proof.
  unfold Account.loggerAfter.
  destruct (loggers (cmdLogger st) !! Account.safeName w cmd); reflexivity.
Qed.

Lemma Execute_account (cmd : Command) (st : State) :
  Execute w (wiredRunner w url wdir dhost) cmd st
  = match responseError (Account.startResp w url cmd st) with
    | Some e =>
        ({| trace := Account.afterStart w url cmd st;
            cmdLogger := cmdLogger st |},
         Some ("failed to send start message: " +:+ e))
    | None =>
        ({| trace := Account.finished w url wdir dhost cmd st;
            cmdLogger := Account.loggerAfter w url cmd st |},
         match responseError
                 (Account.resultResp w url wdir dhost cmd st) with
         | Some e => Some ("failed to send result message: " +:+ e)
         | None => runErr (Account.runRes w url wdir dhost cmd st)
         end)
    end.
Proof.
  unfold Execute, wiredRunner, NewRunner.
  cbn [discord logger workingDir dockerHost].
  unfold bind at 1. unfold timeNow at 1.
  unfold bind at 1. cbn [SendMessage webhookDiscord].
  rewrite sendWebhookMessage_eq.
  fold (Account.startMessage cmd). fold (Account.startResp w url cmd st).
  destruct (responseError (Account.startResp w url cmd st)) as [e|] eqn:Estart;
    [reflexivity|].
  set (p := if Nat.ltb 0 (length (EnvVars cmd)) then _ else _).
  change p with (Account.proc w wdir dhost cmd) in *. clear p.
  unfold bind at 1. cbn [GetLogWriter asLogger]. unfold emit at 1.
  fold (Account.afterStart w url cmd st).
  rewrite GetLogWriter_account.
  set (f := Account.logFile w url cmd st).
  unfold bind, ret, timeNow, Run. cbn [Write fileWriter].
  unfold writeLog, emit. cbn [trace cmdLogger].
  rewrite writeAll_file. cbn [trace cmdLogger]. cbv beta iota zeta.
  unfold Account.finished, Account.resultResp, Account.resultMessage,
    Account.resultTail, Account.resultBody, Account.resultHead,
    Account.logPath, Account.durationStr, Account.afterFooter,
    Account.footer, Account.afterRun, Account.stdout, Account.stderr,
    Account.runRes, Account.beforeRun, Account.headerEnd,
    Account.afterHeaderStart, Account.headerStart, Account.writes,
    Account.codeBlock, Spec.truncated, len, sliceTo.
  fold f. cbn [map]. rewrite <- !app_assoc. cbn [app].
  set (tr3 := Account.afterStart w url cmd st ++ _).
  set (res := runProcess w tr3 (Account.proc w wdir dhost cmd)).
  destruct (runErr res) as [e|] eqn:Erun;
    cbv beta iota zeta; cbn [trace cmdLogger GetLogPath asLogger];
    unfold logger.GetLogPath; cbn [trace cmdLogger];
    rewrite sendWebhookMessage_eq; unfold emit; cbn [trace cmdLogger map];
    rewrite <- !app_assoc; cbn [app];
    fold (Account.safeName w cmd);
    rewrite ?append_assoc.
  all: rewrite baseDir_loggerAfter.
  all: match goal with
       | |- context [responseError ?r] => destruct (responseError r)
       end.
  all: reflexivity.
Qed.

(** Every execution keeps the log files of the command logger directly in
    its base directory. *)
Lemma Execute_keeps_cacheInside (cmd : Command) (st : State) :
  cacheInside (cmdLogger st) ->
  cacheInside (cmdLogger (fst (Execute w (wiredRunner w url wdir dhost) cmd st))).
Proof.
  intros Hc. rewrite Execute_account.
  destruct (responseError (Account.startResp w url cmd st)); [exact Hc|].
  cbn [fst cmdLogger]. unfold Account.loggerAfter, Account.logFile.
  destruct (loggers (cmdLogger st) !! Account.safeName w cmd); [exact Hc|].
  unfold cacheInside. cbn [loggers baseDir].
  apply map_Forall_insert_2; [|exact Hc]. cbn [Filename].
  apply FilepathFacts.Dir_Join_plain, logFileName_plain.
Qed.

End ExecuteFacts.

(** ** The first bytes of a string *)

Lemma length_append (a b : string) :
  String.length (a +:+ b) = String.length a + String.length b.
Proof.
  induction a as [|c a IH]; [reflexivity|].
  rewrite append_cons. cbn [String.length]. now rewrite IH.
Qed.

(** [s[:n]] is the prefix of [s] of length [n], for [n] up to [len(s)]. *)
Lemma sliceTo_prefix (n : nat) (s : string) :
  n <= String.length s ->
  exists rest, s = sliceTo s n +:+ rest /\ String.length (sliceTo s n) = n.
Proof.
  unfold sliceTo. revert s. induction n as [|n IH]; intros s Hn.
  - exists s. now destruct s.
  - destruct s as [|c s]; cbn [String.length] in Hn; [lia|].
    destruct (IH s) as (rest & Hs & Hl); [lia|].
    exists rest. cbn [String.substring]. rewrite append_cons.
    cbn [String.length]. split; [now rewrite <- Hs | now rewrite Hl].
Qed.

(** The cut on bytes: above 1500 bytes exactly the first 1500 bytes
    remain, followed by the marker; up to 1500 bytes nothing changes. *)
Lemma truncated_cases (text : string) :
  (1500 < String.length text ->
   exists first rest,
     text = first +:+ rest /\ String.length first = 1500 /\
     Spec.truncated text = first +:+ "... (truncated)") /\
  (String.length text <= 1500 -> Spec.truncated text = text).
Proof.
  unfold Spec.truncated. split; intros H.
  - destruct (sliceTo_prefix 1500 text) as (rest & Hs & Hl); [lia|].
    exists (sliceTo text 1500), rest. repeat split; [exact Hs | exact Hl |].
    apply Nat.ltb_lt in H. now rewrite H.
  - apply Nat.ltb_ge in H. now rewrite H.
Qed.

Example hello_runs :
  command.Execute Demo.quiet (wiredRunner Demo.quiet Demo.url "/srv" EmptyString)
    Demo.hello Demo.initial
  = ({| trace :=
          [EvPost Demo.url
             (delivr ("🏃 Running command: **Say Hello**" +:+ nl +:+
                      "> Prints a greeting")) Demo.delivered;
           EvWrite "/var/log/delivr/say-hello-2024-03-09.log"
             (nl +:+ nl +:+ command.separator +:+ nl);
           EvWrite "/var/log/delivr/say-hello-2024-03-09.log"
             ("Command: Say Hello" +:+ nl);
           EvWrite "/var/log/delivr/say-hello-2024-03-09.log"
             ("Description: Prints a greeting" +:+ nl);
           EvWrite "/var/log/delivr/say-hello-2024-03-09.log"
             ("Executed at: 2024-03-09T16:00:00Z" +:+ nl);
           EvWrite "/var/log/delivr/say-hello-2024-03-09.log"
             ("Working Directory: /srv" +:+ nl);
           EvWrite "/var/log/delivr/say-hello-2024-03-09.log"
             ("Full Command: echo hello" +:+ nl);
           EvWrite "/var/log/delivr/say-hello-2024-03-09.log"
             (command.separator +:+ nl +:+ nl);
           EvRun {| Path := "echo"; Argv := ["echo"; "hello"]; Env := None;
                    WorkDir := "/srv" |}
                 {| runErr := None; chunks := [(Stdout, "hello" +:+ nl)] |};
           EvWrite "/var/log/delivr/say-hello-2024-03-09.log" ("hello" +:+ nl);
           EvWrite "/var/log/delivr/say-hello-2024-03-09.log"
             (nl +:+ nl +:+ command.separator +:+ nl);
           EvWrite "/var/log/delivr/say-hello-2024-03-09.log"
             ("Command completed successfully" +:+ nl);
           EvWrite "/var/log/delivr/say-hello-2024-03-09.log"
             (command.separator +:+ nl +:+ nl);
           EvPost Demo.url
             (delivr ("✅ Command **Say Hello** completed successfully " +:+
                      "(took 0.01 seconds)" +:+ nl +:+
                      "```" +:+ nl +:+ "hello" +:+ nl +:+ nl +:+ "```" +:+ nl +:+
                      "📄 Log file: `/var/log/delivr/say-hello-2024-03-09.log`"))
             Demo.delivered];
        cmdLogger :=
          {| lconfig := lconfig Demo.freshLogger;
             baseDir := "/var/log/delivr";
             loggers :=
               {[ "say-hello" :=
                    {| Filename := "/var/log/delivr/say-hello-2024-03-09.log";
                       rMaxSize := 10; rMaxBackups := 5; rMaxAge := 30;
                       rCompress := false |} ]} |} |},
     None).
Proof. vm_compute. reflexivity. Qed.

(** ** The notifications and the result of [Execute] *)

Section ExecuteClaims.
Import config command.

Variables (w : World) (url wdir dhost : string).
Variables (cmd : Command) (st : State).

Local Abbreviation runner := (wiredRunner w url wdir dhost).
Local Abbreviation res := (Account.runRes w url wdir dhost cmd st).

Lemma Execute_started :
  responseError (Account.startResp w url cmd st) = None ->
  Execute w runner cmd st
  = ({| trace := Account.finished w url wdir dhost cmd st;
        cmdLogger := Account.loggerAfter w url cmd st |},
     match responseError (Account.resultResp w url wdir dhost cmd st) with
     | Some e => Some ("failed to send result message: " +:+ e)
     | None => runErr res
     end).
Proof. intros H. now rewrite Execute_account, H. Qed.

Lemma In_finished_run :
  In (EvRun (Account.proc w wdir dhost cmd) res)
     (Account.finished w url wdir dhost cmd st).
Proof.
  unfold Account.finished, Account.afterFooter, Account.afterRun.
  rewrite !in_app_iff. left. left. right. now left.
Qed.

(** C1, amended: the limit is counted in bytes.  Once the command has
    run, the result notification is the last message posted; between its
    first and its last line its content, the text that the client encodes
    for the webhook, shows the captured stream of the outcome (standard
    error after a failure, standard output after a success) in a code
    block: a capture longer than 1500 bytes is shown as exactly its first
    1500 bytes followed by the fixed marker, which ends in [(truncated)],
    and a capture of up to 1500 bytes is shown unmodified. *)
Theorem result_notification_truncates_capture :
  responseError (Account.startResp w url cmd st) = None ->
  let shown := Account.resultBody w url wdir dhost cmd st Spec.truncated in
  last (trace (fst (Execute w runner cmd st)))
  = Some (EvPost url
            (delivr ((Account.resultHead w url wdir dhost cmd st +:+ shown)
                     +:+ Account.resultTail w url wdir dhost cmd st))
            (Account.resultResp w url wdir dhost cmd st)) /\
  In (EvRun (Account.proc w wdir dhost cmd) res)
     (trace (fst (Execute w runner cmd st))) /\
  (forall e, runErr res = Some e -> captured Stderr (chunks res) <> EmptyString ->
     shown = "```" +:+ nl +:+ Spec.truncated (captured Stderr (chunks res))
             +:+ nl +:+ "```") /\
  (runErr res = None -> captured Stdout (chunks res) <> EmptyString ->
     shown = "```" +:+ nl +:+ Spec.truncated (captured Stdout (chunks res))
             +:+ nl +:+ "```") /\
  (forall text,
     (1500 < String.length text ->
      exists first rest,
        text = first +:+ rest /\ String.length first = 1500 /\
        Spec.truncated text = first +:+ "... (truncated)") /\
     (String.length text <= 1500 -> Spec.truncated text = text)).
Proof.
  intros Hstart shown. rewrite (Execute_started Hstart). cbn [fst trace].
  split; [|split; [apply In_finished_run|]].
  - unfold Account.finished. now rewrite last_snoc.
  - assert (Hlen : forall s, s <> EmptyString -> Nat.ltb 0 (len s) = true).
    { intros [|c s] Hs; [contradiction | reflexivity]. }
    unfold shown, Account.resultBody, Account.stdout, Account.stderr,
      Account.codeBlock.
    split; [|split]; [| |exact truncated_cases].
    + intros e He Hne. now rewrite He, (Hlen _ Hne).
    + intros He Hne. now rewrite He, (Hlen _ Hne).
Qed.

(** C5.  When the result notification is delivered, [Execute] returns the
    error of the child process, [nil] after a success; when its delivery
    fails, [Execute] returns that failure instead, also after a child
    that succeeded.  (A failed start notification is returned before any
    child runs.) *)
Theorem Execute_returns_run_error_unless_notification_fails :
  snd (Execute w runner cmd st)
  = match responseError (Account.startResp w url cmd st) with
    | Some e => Some ("failed to send start message: " +:+ e)
    | None =>
        match responseError (Account.resultResp w url wdir dhost cmd st) with
        | Some e => Some ("failed to send result message: " +:+ e)
        | None => runErr res
        end
    end /\
  match responseError (Account.startResp w url cmd st) with
  | Some _ => processesRun (trace (fst (Execute w runner cmd st)))
              = processesRun (trace st)
  | None =>
      In (EvRun (Account.proc w wdir dhost cmd) res)
         (trace (fst (Execute w runner cmd st))) /\
      last (trace (fst (Execute w runner cmd st)))
      = Some (EvPost url
                (delivr (Account.resultMessage w url wdir dhost cmd st))
                (Account.resultResp w url wdir dhost cmd st))
  end.
Proof.
  rewrite Execute_account.
  destruct (responseError (Account.startResp w url cmd st)) as [e|].
  - cbn [fst snd trace]. split; [reflexivity|].
    unfold Account.afterStart, processesRun. rewrite omap_app.
    cbn [omap]. cbv beta iota. apply app_nil_r.
  - cbn [fst snd trace]. split; [reflexivity|].
    split; [apply In_finished_run|].
    unfold Account.finished. now rewrite last_snoc.
Qed.

End ExecuteClaims.

(** ** The log and the abort on a failed start notification *)

Lemma logWrites_app (a b : list Event) :
  logWrites (a ++ b) = logWrites a ++ logWrites b.
Proof. apply omap_app. Qed.

Lemma logWrites_writes (file : string) (texts : list string) :
  logWrites (map (EvWrite file) texts) = map (pair file) texts.
Proof.
  induction texts as [|t texts IH]; [reflexivity|].
  cbn [map]. change (logWrites (EvWrite file t :: ?l))
    with ((file, t) :: logWrites l).
  now rewrite IH.
Qed.

Lemma processesRun_app (a b : list Event) :
  processesRun (a ++ b) = processesRun a ++ processesRun b.
Proof. apply omap_app. Qed.

(** With any client and any logger behind the interfaces: a failed start
    notification ends [Execute] in the state in which the send left it. *)
Lemma Execute_start_failure (w : World) (r : command.Runner)
  (cmd : config.Command) (st st1 : State) (e : error) :
  command.SendMessage (command.discord r) (Account.startMessage cmd) st
  = (st1, Some e) ->
  command.Execute w r cmd st
  = (st1, Some ("failed to send start message: " +:+ e)).
Proof.
  intros H. unfold command.Execute, bind at 1, timeNow at 1, bind at 1.
  fold (Account.startMessage cmd). now rewrite H.
Qed.

Section LogClaims.
Import config command.

Variables (w : World) (url wdir dhost : string).
Variables (cmd : Command) (st : State).

Local Abbreviation runner := (wiredRunner w url wdir dhost).
Local Abbreviation res := (Account.runRes w url wdir dhost cmd st).
Local Abbreviation file := (Filename (Account.logFile w url cmd st)).

(** C6.  When the start notification cannot be sent, [Execute] returns
    that failure at once: the attempt to post is the only new event, so
    no child process is run, nothing is written to any log, and the
    command logger is as before. *)
Theorem failed_start_notification_aborts (e : error) :
  responseError (Account.startResp w url cmd st) = Some e ->
  Execute w runner cmd st
  = ({| trace := trace st ++
                 [EvPost url (delivr (Account.startMessage cmd))
                         (Account.startResp w url cmd st)];
        cmdLogger := cmdLogger st |},
     Some ("failed to send start message: " +:+ e)) /\
  processesRun (trace (fst (Execute w runner cmd st)))
  = processesRun (trace st) /\
  logWrites (trace (fst (Execute w runner cmd st))) = logWrites (trace st) /\
  cmdLogger (fst (Execute w runner cmd st)) = cmdLogger st.
Proof.
  intros H. rewrite Execute_account, H.
  cbn [fst trace cmdLogger]. unfold Account.afterStart.
  rewrite processesRun_app, logWrites_app.
  repeat split; apply app_nil_r.
Qed.

Lemma footer_success_iff :
  Account.footer w url wdir dhost cmd st = successFooter <-> runErr res = None.
Proof.
  unfold Account.footer, successFooter.
  destruct (runErr res) as [e|]; split; try reflexivity; try discriminate.
Qed.

(** C10.  Once the command has run, what [Execute] has written to the
    log is the header, the output of the child and a footer that depends
    on the result of the child alone: it is the success footer exactly
    when the child returned no error.  All of it is written before the
    result notification is posted, and that post adds no write; so
    [Execute] returns an error while the log records a success whenever
    the child succeeds and the notification fails. *)
Theorem log_footer_follows_run_result_only :
  responseError (Account.startResp w url cmd st) = None ->
  let st' := fst (Execute w runner cmd st) in
  let footer := Account.footer w url wdir dhost cmd st in
  logWrites (trace st')
  = logWrites (trace st) ++
    map (pair file)
        (Account.headerStart cmd ++ Account.headerEnd w url wdir dhost cmd st ++
         map snd (chunks res) ++ footer) /\
  (footer = successFooter <-> runErr res = None) /\
  trace st'
  = Account.afterFooter w url wdir dhost cmd st ++
    [EvPost url (delivr (Account.resultMessage w url wdir dhost cmd st))
            (Account.resultResp w url wdir dhost cmd st)] /\
  logWrites (trace st')
  = logWrites (Account.afterFooter w url wdir dhost cmd st) /\
  (forall e,
      runErr res = None ->
      responseError (Account.resultResp w url wdir dhost cmd st) = Some e ->
      snd (Execute w runner cmd st)
      = Some ("failed to send result message: " +:+ e) /\
      footer = successFooter).
Proof.
  intros Hstart st' footer. unfold st'.
  rewrite (Execute_started w url wdir dhost cmd st Hstart).
  cbn [fst snd trace].
  assert (Hpost : logWrites (Account.finished w url wdir dhost cmd st)
                  = logWrites (Account.afterFooter w url wdir dhost cmd st)).
  { unfold Account.finished. rewrite logWrites_app. apply app_nil_r. }
  split; [|split; [apply footer_success_iff|split; [reflexivity|split]]].
  - rewrite Hpost.
    unfold Account.afterFooter, Account.afterRun, Account.beforeRun,
      Account.afterHeaderStart, Account.afterStart, Account.writes.
    rewrite !logWrites_app.
    change (logWrites (EvRun ?p ?r :: ?l)) with (logWrites l).
    rewrite !logWrites_writes, !map_app, <- !app_assoc.
    reflexivity.
  - exact Hpost.
  - intros e Hrun Hres. rewrite Hres.
    split; [reflexivity|]. now apply footer_success_iff.
Qed.

End LogClaims.

(** ** Construction of the client *)

(** C7.  The client is constructed exactly for the webhook URLs that start
    with the required prefix and is rejected with an error for every other
    URL, the empty one included; the same holds for the channel of the
    client with a bot token. *)
Theorem NewClient_accepts_exactly_prefixed_urls (webhookURL token : string) :
  discord.NewClient webhookURL
  = (if HasPrefix webhookURL "https://discord.com/api/webhooks/"
     then inl {| discord.webhookURL := webhookURL |}
     else inr (if String.eqb webhookURL EmptyString
               then "discord webhook URL is required"
               else "invalid webhook URL format, must start with https://discord.com/api/webhooks/")) /\
  discord.NewClient EmptyString = inr "discord webhook URL is required" /\
  discord_bot.NewClient token webhookURL
  = (if HasPrefix webhookURL "https://discord.com/api/webhooks/"
     then inl {| discord_bot.webhookURL := webhookURL;
                 discord_bot.isWebhook := true |}
     else inr (if String.eqb token EmptyString
                  && String.eqb webhookURL EmptyString
               then "either discord token or channel ID (webhook URL) is required"
               else "only webhook URLs are supported in this version")).
Proof.
  split; [|split; [reflexivity|]].
  - unfold discord.NewClient.
    destruct (String.eqb webhookURL EmptyString) eqn:E.
    + apply String.eqb_eq in E. subst. reflexivity.
    + now destruct (HasPrefix webhookURL _).
  - unfold discord_bot.NewClient.
    destruct (String.eqb token EmptyString && String.eqb webhookURL EmptyString)
      eqn:E; [|reflexivity].
    apply andb_true_iff in E as [_ E]. apply String.eqb_eq in E. now subst.
Qed.

Example NewClient_cases :
  discord.NewClient Demo.url = inl {| discord.webhookURL := Demo.url |} /\
  discord.NewClient "http://discord.com/api/webhooks/1/token"
  = inr "invalid webhook URL format, must start with https://discord.com/api/webhooks/" /\
  discord.NewClient "https://discord.com/api/webhooks"
  = inr "invalid webhook URL format, must start with https://discord.com/api/webhooks/".
Proof. repeat split. Qed.

(** ** Defaults of the logger *)

(** Whenever the logger is constructed, the sizes left at zero are set to
    their defaults and the compression flag is the configured one. *)
Lemma NewCommandLogger_settings (w : World) (cfg : config.LogConfig)
  (tr tr' : list Event) (l : CommandLogger) :
  NewCommandLogger w cfg tr = (tr', inl l) ->
  config.MaxSize (lconfig l)
  = (if Z.eqb (config.MaxSize cfg) 0 then 10 else config.MaxSize cfg)%Z /\
  config.MaxAge (lconfig l)
  = (if Z.eqb (config.MaxAge cfg) 0 then 30 else config.MaxAge cfg)%Z /\
  config.MaxBackups (lconfig l)
  = (if Z.eqb (config.MaxBackups cfg) 0 then 5 else config.MaxBackups cfg)%Z /\
  config.Compress (lconfig l) = config.Compress cfg /\
  (config.Directory cfg = EmptyString ->
   exists homeDir, userHomeDir w = inl homeDir /\
     baseDir l = Filepath.Join [homeDir; ".delivr"; "logs"]) /\
  loggers l = ∅.
Proof.
  unfold NewCommandLogger. intros H.
  assert (Hgen : forall cfg0 : config.LogConfig,
    config.MaxSize cfg0 = config.MaxSize cfg ->
    config.MaxAge cfg0 = config.MaxAge cfg ->
    config.MaxBackups cfg0 = config.MaxBackups cfg ->
    config.Compress cfg0 = config.Compress cfg ->
    forall cfg3,
    cfg3 = (let c1 := if Z.eqb (config.MaxSize cfg0) 0
                      then withMaxSize cfg0 10 else cfg0 in
            let c2 := if Z.eqb (config.MaxAge c1) 0
                      then withMaxAge c1 30 else c1 in
            if Z.eqb (config.MaxBackups c2) 0
            then withMaxBackups c2 5 else c2) ->
    config.MaxSize cfg3
    = (if Z.eqb (config.MaxSize cfg) 0 then 10 else config.MaxSize cfg)%Z /\
    config.MaxAge cfg3
    = (if Z.eqb (config.MaxAge cfg) 0 then 30 else config.MaxAge cfg)%Z /\
    config.MaxBackups cfg3
    = (if Z.eqb (config.MaxBackups cfg) 0 then 5 else config.MaxBackups cfg)%Z /\
    config.Compress cfg3 = config.Compress cfg /\
    config.Directory cfg3 = config.Directory cfg0).
  { intros cfg0 H1 H2 H3 H4 cfg3 ->. cbv zeta.
    rewrite <- H1, <- H2, <- H3, <- H4.
    destruct cfg0 as [d ms ma mb c].
    cbn [config.MaxSize config.MaxAge config.MaxBackups config.Compress
         config.Directory].
    destruct (Z.eqb ms 0); cbn [config.MaxAge withMaxSize];
      destruct (Z.eqb ma 0); cbn [config.MaxBackups withMaxAge withMaxSize];
      destruct (Z.eqb mb 0); repeat split. }
  destruct (String.eqb (config.Directory cfg) EmptyString) eqn:Ed.
  - destruct (userHomeDir w) as [homeDir|e]; [|discriminate].
    cbv beta iota zeta in H.
    match type of H with
    | context [mkdirAll w tr ?d] => destruct (mkdirAll w tr d); [discriminate|]
    end.
    injection H as _ <-. cbn [lconfig baseDir loggers].
    edestruct (Hgen (withDirectory cfg (Filepath.Join [homeDir; ".delivr"; "logs"])))
      as (H1 & H2 & H3 & H4 & H5); try reflexivity.
    refine (conj H1 (conj H2 (conj H3 (conj H4 (conj _ eq_refl))))).
    intros _. exists homeDir. split; [reflexivity | exact H5].
  - apply String.eqb_neq in Ed. cbv beta iota zeta in H.
    match type of H with
    | context [mkdirAll w tr ?d] => destruct (mkdirAll w tr d); [discriminate|]
    end.
    injection H as _ <-. cbn [lconfig baseDir loggers].
    edestruct (Hgen cfg) as (H1 & H2 & H3 & H4 & H5); try reflexivity.
    refine (conj H1 (conj H2 (conj H3 (conj H4 (conj _ eq_refl))))).
    intros E. contradiction.
Qed.

(** A logger that has just been constructed has opened no log file. *)
Lemma NewCommandLogger_cacheInside (w : World) (cfg : config.LogConfig)
  (tr tr' : list Event) (l : CommandLogger) :
  NewCommandLogger w cfg tr = (tr', inl l) -> cacheInside l.
Proof.
  intros H. apply NewCommandLogger_settings in H as (_ & _ & _ & _ & _ & He).
  unfold cacheInside. rewrite He. apply map_Forall_empty.
Qed.

(** C4, at a configuration that leaves every logging setting unspecified:
    the directory, the maximal size, the maximal age and the number of
    backups receive their defaults, and compression stays disabled. *)
Theorem NewCommandLogger_unset_leaves_compression_off :
  NewCommandLogger Demo.quiet Demo.unset []
  = ([EvMkdirAll "/home/u/.delivr/logs" None],
     inl {| lconfig := {| config.Directory := "/home/u/.delivr/logs";
                          config.MaxSize := 10;
                          config.MaxAge := 30;
                          config.MaxBackups := 5;
                          config.Compress := false |};
            baseDir := "/home/u/.delivr/logs";
            loggers := ∅ |}).
Proof. vm_compute. reflexivity. Qed.

(** ** The environment of a [docker] child *)

Section DockerHost.
Import config command.

Variables (w : World) (wdir dhost : string) (cmd : Command).

(** Without extra variables a [docker] command receives the host. *)
Lemma docker_host_injected :
  Cmd cmd = "docker" -> dhost <> EmptyString -> EnvVars cmd = [] ->
  effectiveEnv w (Account.proc w wdir dhost cmd)
  = environ w ++ ["DOCKER_HOST=" +:+ dhost].
Proof.
  intros Hc Hd He. unfold Account.proc. rewrite Hc, He.
  apply String.eqb_neq in Hd. rewrite Hd. cbn.
  destruct (negb (String.eqb (Dir cmd) EmptyString));
    [reflexivity|]. now destruct (negb (String.eqb wdir EmptyString)).
Qed.

(** With extra variables the environment is the one of the process
    followed by those variables, whatever the executable. *)
Lemma extra_env_replaces_environment :
  EnvVars cmd <> [] ->
  effectiveEnv w (Account.proc w wdir dhost cmd) = environ w ++ EnvVars cmd.
Proof.
  intros He. unfold Account.proc.
  destruct (EnvVars cmd); [contradiction | reflexivity].
Qed.

End DockerHost.

(** C3, at a [docker] command with one extra variable and a configured
    host: the child runs with the environment of the process and the extra
    variable, and the entry for the host is not in it. *)
Theorem docker_host_missing_with_extra_env :
  let st' := fst (command.Execute Demo.quiet
                    (wiredRunner Demo.quiet Demo.url EmptyString
                                 "tcp://10.0.0.5:2375")
                    Demo.dockerPs Demo.initial) in
  map (effectiveEnv Demo.quiet) (processesRun (trace st'))
  = [["PATH=/usr/bin"; "COMPOSE_PROJECT_NAME=web"]] /\
  ~ In "DOCKER_HOST=tcp://10.0.0.5:2375"
       ["PATH=/usr/bin"; "COMPOSE_PROJECT_NAME=web"].
Proof.
  split; [vm_compute; reflexivity|].
  cbn [In]. intros [H|[H|[]]]; discriminate H.
Qed.

(** ** [ExecuteAll] stops at the first failure, the loop of [main] goes on *)

Lemma wiredRunner_main (w : World) (url wdir dhost : string) :
  wiredRunner w url wdir dhost
  = command.NewRunner (discord_bot.asDiscord w (mainClient url))
                      (logger.asLogger w) wdir dhost.
Proof. reflexivity. Qed.

Lemma wiredRunner_webhook_only (w : World) (url wdir dhost : string) :
  wiredRunner w url wdir dhost
  = command.NewRunner (discord.asDiscord w {| discord.webhookURL := url |})
                      (logger.asLogger w) wdir dhost.
Proof. reflexivity. Qed.

Lemma prefix_append (p s : string) : String.prefix p (p +:+ s) = true.
Proof.
  induction p as [|c p IH]; [apply prefix_empty|].
  rewrite append_cons. cbn [String.prefix].
  destruct (ascii_dec c c); [exact IH | contradiction].
Qed.

Lemma started_app (a b : list Event) : started (a ++ b) = started a ++ started b.
Proof. unfold started, posted. now rewrite omap_app, filter_app. Qed.

Lemma started_writes (file : string) (texts : list string) :
  started (map (EvWrite file) texts) = [].
Proof. induction texts as [|t texts IH]; [reflexivity | exact IH]. Qed.

Lemma isStartBody_start (cmd : config.Command) : isStartBody (startBody cmd) = true.
Proof. apply prefix_append. Qed.

Lemma started_post (u : string) (m : Message) (r : HttpResult) (l : list Event) :
  started (EvPost u m r :: l)
  = if isStartBody m then m :: started l else started l.
Proof.
  unfold started. change (posted (EvPost u m r :: l)) with (m :: posted l).
  destruct (isStartBody m) eqn:E.
  - now rewrite filter_cons_True.
  - rewrite filter_cons_False; [reflexivity|]. rewrite E. discriminate.
Qed.

Lemma processesRun_writes (file : string) (texts : list string) :
  processesRun (map (EvWrite file) texts) = [].
Proof. induction texts as [|t texts IH]; [reflexivity | exact IH]. Qed.

Lemma startsDelivered_app (a b : list Event) :
  startsDelivered (a ++ b) = startsDelivered a ++ startsDelivered b.
Proof. apply omap_app. Qed.

Lemma startsDelivered_writes (file : string) (texts : list string) :
  startsDelivered (map (EvWrite file) texts) = [].
Proof. induction texts as [|t texts IH]; [reflexivity | exact IH]. Qed.

Lemma startsDelivered_post (u : string) (m : Message) (r : HttpResult)
  (l : list Event) :
  startsDelivered (EvPost u m r :: l)
  = if isStartBody m
    then match responseError r with None => true | Some _ => false end
         :: startsDelivered l
    else startsDelivered l.
Proof.
  unfold startsDelivered. cbn [omap list_omap].
  now destruct (isStartBody m).
Qed.

Lemma selected_all {A} (l : list A) (flags : list bool) :
  length flags = length l -> Forall (eq true) flags -> selected l flags = l.
Proof.
  revert flags. induction l as [|x l IH]; intros [|b flags] Hl Hf;
    try discriminate Hl; [reflexivity|].
  inversion Hf as [|? ? Hb Hf']; subst. cbn [selected].
  f_equal. apply IH; [now injection Hl | exact Hf'].
Qed.

Section Loops.
Import config command.

Variables (w : World) (url wdir dhost : string).

Local Abbreviation runner := (wiredRunner w url wdir dhost).

Lemma isStartBody_result (cmd : Command) (st : State) :
  isStartBody (delivr (Account.resultMessage w url wdir dhost cmd st)) = false.
Proof.
  unfold isStartBody, Account.resultMessage, Account.resultHead.
  cbn [Content delivr].
  now destruct (runErr (Account.runRes w url wdir dhost cmd st)).
Qed.

(** One execution posts exactly one start notification, its own. *)
Lemma Execute_started_once (cmd : Command) (st : State) :
  exists new,
    trace (fst (Execute w runner cmd st)) = trace st ++ new /\
    started new = [startBody cmd].
Proof.
  rewrite Execute_account.
  destruct (responseError (Account.startResp w url cmd st)).
  - eexists. split; [reflexivity|].
    fold (startBody cmd). now rewrite started_post, isStartBody_start.
  - cbn [fst trace].
    unfold Account.finished, Account.afterFooter, Account.afterRun,
      Account.beforeRun, Account.afterHeaderStart, Account.afterStart,
      Account.writes.
    rewrite <- !app_assoc. eexists. split; [reflexivity|].
    rewrite !started_app, !started_writes.
    change (started (EvRun ?p ?r :: ?l)) with (started l).
    rewrite started_writes. cbn [app]. fold (startBody cmd).
    now rewrite !started_post, isStartBody_start, isStartBody_result.
Qed.

Lemma ExecuteAll_app_ok (r : Runner) (pre rest : list Command)
  (st st1 : State) :
  ExecuteAll w r pre st = (st1, None) ->
  ExecuteAll w r (pre ++ rest) st = ExecuteAll w r rest st1.
Proof.
  revert st. induction pre as [|c pre IH]; intros st H.
  - injection H as ->. reflexivity.
  - cbn [app ExecuteAll] in *. unfold bind in *.
    destruct (Execute w r c st) as [sta [e|]]; [discriminate|].
    now apply IH.
Qed.

Lemma ExecuteAll_started (cmds : list Command) (st st1 : State) :
  ExecuteAll w runner cmds st = (st1, None) ->
  exists new, trace st1 = trace st ++ new /\ started new = map startBody cmds.
Proof.
  revert st. induction cmds as [|c cmds IH]; intros st H.
  - injection H as ->. exists []. now rewrite app_nil_r.
  - cbn [ExecuteAll] in H. unfold bind in H.
    destruct (Execute_started_once c st) as (new1 & Ht1 & Hs1).
    destruct (Execute w runner c st) as [sta [e|]]; [discriminate|].
    destruct (IH sta H) as (new2 & Ht2 & Hs2). cbn [fst] in Ht1.
    exists (new1 ++ new2). split.
    + now rewrite Ht2, Ht1, app_assoc.
    + now rewrite started_app, Hs1, Hs2.
Qed.

(** Reporting a failure in the loop of [main] posts no start
    notification and leaves the command logger alone. *)
Lemma commandLoop_effect (cmds : list Command) (st : State) :
  exists new,
    trace (fst (main.commandLoop w (mainClient url) runner cmds st))
    = trace st ++ new /\
    started new = map startBody cmds /\
    (cacheInside (cmdLogger st) ->
     cacheInside
       (cmdLogger (fst (main.commandLoop w (mainClient url) runner cmds st)))).
Proof.
  revert st. induction cmds as [|c cmds IH]; intros st.
  - exists []. now rewrite app_nil_r.
  - destruct (Execute_started_once c st) as (new1 & Ht1 & Hs1).
    pose proof (Execute_keeps_cacheInside w url wdir dhost c st) as Hk1.
    destruct (Execute w runner c st) as [sta err] eqn:E. cbn [fst] in Ht1, Hk1.
    assert (Hrep : exists stb extra,
      (match err with
       | Some e =>
           logPrintf ("Error executing command '" +:+ Name c +:+ "': " +:+ e) ;;;
           sendErr <- discord_bot.SendMessage w (mainClient url)
             ("❌ Error executing command '" +:+ Name c +:+ "': " +:+ e) ;;
           match sendErr with
           | Some e' =>
               logPrintf ("Failed to send error message to Discord: " +:+ e')
           | None => ret tt
           end
       | None => ret tt
       end) sta = (stb, tt) /\
      trace stb = trace sta ++ extra /\ started extra = [] /\
      cmdLogger stb = cmdLogger sta).
    { destruct err as [e|].
      - unfold bind, logPrintf, discord_bot.SendMessage.
        cbn [discord_bot.isWebhook mainClient discord_bot.webhookURL].
        rewrite sendWebhookMessage_eq.
        match goal with
        | |- context [responseError ?r] => destruct (responseError r)
        end; unfold ret, emit; cbn [trace cmdLogger];
          eexists; eexists; (split; [reflexivity|]);
          rewrite <- ?app_assoc; (split; [reflexivity|]);
          cbn [app trace cmdLogger];
          change (started (EvConsole ?x :: ?l)) with (started l);
          rewrite started_post; split; reflexivity.
      - exists sta, []. unfold ret. now rewrite app_nil_r. }
    destruct Hrep as (stb & extra & Hr & Htb & Hsb & Hlb).
    assert (Heq : main.commandLoop w (mainClient url) runner (c :: cmds) st
                  = main.commandLoop w (mainClient url) runner cmds stb).
    { cbn [main.commandLoop]. unfold bind at 1. rewrite E.
      unfold bind at 1. now rewrite Hr. }
    rewrite Heq.
    destruct (IH stb) as (new2 & Ht2 & Hs2 & Hk2).
    exists (new1 ++ extra ++ new2). split; [|split].
    + now rewrite Ht2, Htb, Ht1, <- !app_assoc.
    + rewrite !started_app, Hs1, Hsb, Hs2. reflexivity.
    + intros Hc. apply Hk2. unfold cacheInside. rewrite Hlb. now apply Hk1.
Qed.

Local Abbreviation proc := (Account.proc w wdir dhost).

Local Abbreviation delivered c st :=
  (match responseError (Account.startResp w url c st) with
   | None => true
   | Some _ => false
   end).

(** One execution: its start notification, and the call of [Run] when
    that notification was delivered. *)
Lemma Execute_events (cmd : Command) (st : State) :
  exists new,
    trace (fst (Execute w runner cmd st)) = trace st ++ new /\
    started new = [startBody cmd] /\
    startsDelivered new = [delivered cmd st] /\
    processesRun new = (if delivered cmd st then [proc cmd] else []).
Proof.
  rewrite Execute_account.
  destruct (responseError (Account.startResp w url cmd st)) eqn:E.
  - eexists. split; [reflexivity|]. fold (startBody cmd).
    rewrite started_post, startsDelivered_post, isStartBody_start, E.
    repeat split.
  - cbn [fst trace].
    unfold Account.finished, Account.afterFooter, Account.afterRun,
      Account.beforeRun, Account.afterHeaderStart, Account.afterStart,
      Account.writes.
    rewrite <- !app_assoc. eexists. split; [reflexivity|].
    rewrite !started_app, !started_writes.
    rewrite !startsDelivered_app, !startsDelivered_writes.
    rewrite !processesRun_app, !processesRun_writes.
    change (started (EvRun ?p ?r :: ?l)) with (started l).
    change (startsDelivered (EvRun ?p ?r :: ?l)) with (startsDelivered l).
    change (processesRun (EvRun ?p ?r :: ?l)) with (p :: processesRun l).
    rewrite started_writes, startsDelivered_writes, processesRun_writes.
    cbn [app]. fold (startBody cmd).
    rewrite !started_post, !startsDelivered_post.
    rewrite isStartBody_start, isStartBody_result.
    fold (Account.startResp w url cmd st). rewrite E.
    repeat split.
Qed.

Lemma Execute_ok_delivered (cmd : Command) (st st1 : State) :
  Execute w runner cmd st = (st1, None) -> delivered cmd st = true.
Proof.
  rewrite Execute_account.
  now destruct (responseError (Account.startResp w url cmd st)).
Qed.

(** Commands that all succeed were all run, in order. *)
Lemma ExecuteAll_events (cmds : list Command) (st st1 : State) :
  ExecuteAll w runner cmds st = (st1, None) ->
  exists new,
    trace st1 = trace st ++ new /\
    started new = map startBody cmds /\
    processesRun new = map proc cmds.
Proof.
  revert st. induction cmds as [|c cmds IH]; intros st H.
  - injection H as ->. exists []. now rewrite app_nil_r.
  - cbn [ExecuteAll] in H. unfold bind in H.
    destruct (Execute_events c st) as (new1 & Ht1 & Hs1 & _ & Hp1).
    pose proof (Execute_ok_delivered c st) as Hd.
    destruct (Execute w runner c st) as [sta [e|]]; [discriminate|].
    rewrite (Hd sta eq_refl) in Hp1.
    destruct (IH sta H) as (new2 & Ht2 & Hs2 & Hp2). cbn [fst] in Ht1.
    exists (new1 ++ new2). split; [|split].
    + now rewrite Ht2, Ht1, app_assoc.
    + now rewrite started_app, Hs1, Hs2.
    + now rewrite processesRun_app, Hp1, Hp2.
Qed.

(** The loop of [main] calls [Execute] for every command: each start
    notification is posted, and [Run] is called for exactly the commands
    whose start notification was delivered. *)
Lemma commandLoop_events (cmds : list Command) (st : State) :
  exists new,
    trace (fst (main.commandLoop w (mainClient url) runner cmds st))
    = trace st ++ new /\
    started new = map startBody cmds /\
    length (startsDelivered new) = length cmds /\
    processesRun new = map proc (selected cmds (startsDelivered new)).
Proof.
  revert st. induction cmds as [|c cmds IH]; intros st.
  - exists []. now rewrite app_nil_r.
  - destruct (Execute_events c st) as (new1 & Ht1 & Hs1 & Hd1 & Hp1).
    destruct (Execute w runner c st) as [sta err] eqn:E. cbn [fst] in Ht1.
    assert (Hrep : exists stb extra,
      (match err with
       | Some e =>
           logPrintf ("Error executing command '" +:+ Name c +:+ "': " +:+ e) ;;;
           sendErr <- discord_bot.SendMessage w (mainClient url)
             ("❌ Error executing command '" +:+ Name c +:+ "': " +:+ e) ;;
           match sendErr with
           | Some e' =>
               logPrintf ("Failed to send error message to Discord: " +:+ e')
           | None => ret tt
           end
       | None => ret tt
       end) sta = (stb, tt) /\
      trace stb = trace sta ++ extra /\ started extra = [] /\
      startsDelivered extra = [] /\ processesRun extra = []).
    { destruct err as [e|].
      - unfold bind, logPrintf, discord_bot.SendMessage.
        cbn [discord_bot.isWebhook mainClient discord_bot.webhookURL].
        rewrite sendWebhookMessage_eq.
        match goal with
        | |- context [responseError ?r] => destruct (responseError r)
        end; unfold ret, emit; cbn [trace cmdLogger];
          eexists; eexists; (split; [reflexivity|]);
          rewrite <- ?app_assoc; (split; [reflexivity|]);
          cbn [app trace cmdLogger];
          change (started (EvConsole ?x :: ?l)) with (started l);
          change (startsDelivered (EvConsole ?x :: ?l))
            with (startsDelivered l);
          rewrite started_post, startsDelivered_post;
          repeat split; reflexivity.
      - exists sta, []. unfold ret. now rewrite app_nil_r. }
    destruct Hrep as (stb & extra & Hr & Htb & Hsb & Hdb & Hpb).
    assert (Heq : main.commandLoop w (mainClient url) runner (c :: cmds) st
                  = main.commandLoop w (mainClient url) runner cmds stb).
    { cbn [main.commandLoop]. unfold bind at 1. rewrite E.
      unfold bind at 1. now rewrite Hr. }
    rewrite Heq.
    destruct (IH stb) as (new2 & Ht2 & Hs2 & Hl2 & Hp2).
    exists (new1 ++ extra ++ new2). split; [|split; [|split]].
    + now rewrite Ht2, Htb, Ht1, <- !app_assoc.
    + rewrite !started_app, Hs1, Hsb, Hs2. reflexivity.
    + rewrite !startsDelivered_app, Hd1, Hdb. cbn [app length].
      now rewrite Hl2.
    + rewrite !startsDelivered_app, !processesRun_app, Hd1, Hdb, Hp1, Hpb, Hp2.
      cbn [app]. now destruct (delivered c st).
Qed.

(** C2.  When the commands before [c] succeed and [c] fails,
    [ExecuteAll] has run the commands before [c] in list order: it has
    posted the start notification of each and called [Run] for each.  It
    then stops in the state in which the execution of [c] ended and returns
    that failure: the start notifications posted are those of the
    commands up to [c], [Run] was called for [c] if its start notification
    was delivered, and nothing was posted or run for a later command.
    The loop of [main] over the same list executes every command, whatever
    failed before: it posts the start notification of every command, in
    list order, and calls [Run] for exactly the commands whose start
    notification was delivered, so for every command when all of these
    notifications are delivered. *)
Theorem ExecuteAll_stops_and_main_loop_continues
  (pre : list Command) (c : Command) (rest : list Command)
  (st st1 st2 : State) (e : error) :
  ExecuteAll w runner pre st = (st1, None) ->
  Execute w runner c st1 = (st2, Some e) ->
  ExecuteAll w runner (pre ++ c :: rest) st
  = (st2, Some ("command '" +:+ Name c +:+ "' failed: " +:+ e)) /\
  (exists new,
      trace st1 = trace st ++ new /\
      started new = map startBody pre /\
      processesRun new = map proc pre) /\
  (exists new,
      trace st2 = trace st ++ new /\
      started new = map startBody (pre ++ [c]) /\
      processesRun new
      = map proc (pre ++ if delivered c st1 then [c] else [])) /\
  (exists new,
      trace (fst (main.commandLoop w (mainClient url) runner
                    (pre ++ c :: rest) st))
      = trace st ++ new /\
      started new = map startBody (pre ++ c :: rest) /\
      length (startsDelivered new) = length (pre ++ c :: rest) /\
      processesRun new
      = map proc (selected (pre ++ c :: rest) (startsDelivered new)) /\
      (Forall (eq true) (startsDelivered new) ->
       processesRun new = map proc (pre ++ c :: rest))).
Proof.
  intros Hpre Hc.
  destruct (ExecuteAll_events _ _ _ Hpre) as (new1 & Ht1 & Hs1 & Hp1).
  split; [|split; [|split]].
  - rewrite (ExecuteAll_app_ok _ _ _ _ _ Hpre).
    cbn [ExecuteAll]. unfold bind. now rewrite Hc.
  - now exists new1.
  - destruct (Execute_events c st1) as (new2 & Ht2 & Hs2 & _ & Hp2).
    rewrite Hc in Ht2. cbn [fst] in Ht2.
    exists (new1 ++ new2). split; [|split].
    + now rewrite Ht2, Ht1, app_assoc.
    + now rewrite started_app, Hs1, Hs2, map_app.
    + rewrite processesRun_app, Hp1, Hp2, map_app.
      now destruct (delivered c st1).
  - destruct (commandLoop_events (pre ++ c :: rest) st)
      as (new & Ht & Hs & Hl & Hp).
    exists new. repeat split; try assumption.
    intros Hall. rewrite Hp. now rewrite selected_all.
Qed.

End Loops.

(** ** The theorems at sample inputs *)

Section Witnesses.
Import config command.

Local Abbreviation demoRunner w := (wiredRunner w Demo.url EmptyString EmptyString).

(** A capture of 1600 bytes is shown as its first 1500 bytes and the
    marker. *)
Lemma result_notification_truncates_capture_witness :
  last (trace (fst (Execute Demo.verbose (demoRunner Demo.verbose)
                      Demo.hello Demo.initial)))
  = Some (EvPost Demo.url
            (delivr ("✅ Command **Say Hello** completed successfully " +:+
                     "(took 0.01 seconds)" +:+ nl +:+
                     "```" +:+ nl +:+ Demo.copies 1500 "x" +:+
                     "... (truncated)" +:+ nl +:+ "```" +:+ nl +:+
                     "📄 Log file: `/var/log/delivr/say-hello-2024-03-09.log`"))
            Demo.delivered).
Proof.
  destruct (result_notification_truncates_capture
              Demo.verbose Demo.url EmptyString EmptyString
              Demo.hello Demo.initial) as (H & _); [reflexivity|].
  rewrite H. vm_compute. reflexivity.
Defined.

(** C1 with the limit read in characters fails.  A capture of 751 letters
    of two bytes each is not longer than 1500 characters, so that it should
    be shown unmodified; the notification shows its first 750 letters,
    which are 1500 bytes, and the marker. *)
Lemma capture_of_751_characters_is_cut :
  Utf8.RuneCountInString Demo.accents = 751 /\
  Spec.truncatedChars Demo.accents = Demo.accents /\
  last (trace (fst (Execute Demo.accented (demoRunner Demo.accented)
                      Demo.hello Demo.initial)))
  = Some (EvPost Demo.url
            (delivr ("✅ Command **Say Hello** completed successfully " +:+
                     "(took 0.01 seconds)" +:+ nl +:+
                     "```" +:+ nl +:+ Demo.repeated 750 "é" +:+
                     "... (truncated)" +:+ nl +:+ "```" +:+ nl +:+
                     "📄 Log file: `/var/log/delivr/say-hello-2024-03-09.log`"))
            Demo.delivered) /\
  Demo.repeated 750 "é" +:+ "... (truncated)"
  <> Spec.truncatedChars Demo.accents.
Proof.
  split; [vm_compute; reflexivity|].
  assert (Hsame : Spec.truncatedChars Demo.accents = Demo.accents)
    by (vm_compute; reflexivity).
  split; [exact Hsame|]. split; [vm_compute; reflexivity|].
  rewrite Hsame. intros H.
  apply (f_equal (fun t => Nat.eqb (String.length t) 1502)) in H.
  vm_compute in H. discriminate H.
Qed.

(** A name with capital letters beyond ASCII, under the case table of
    Latin-1. *)
Lemma sanitizeFilename_idempotent_charwise_witness :
  sanitizeFilename Demo.quiet (sanitizeFilename Demo.quiet "ÉCOLE D'ÉTÉ: 1/2")
  = sanitizeFilename Demo.quiet "ÉCOLE D'ÉTÉ: 1/2" /\
  sanitizeFilename Demo.quiet "ÉCOLE D'ÉTÉ: 1/2" = "école-d'été--1-2" /\
  sanitizeFilename Demo.quiet "Say Hello" = "say-hello".
Proof.
  destruct (sanitizeFilename_idempotent_charwise
              Demo.quiet "ÉCOLE D'ÉTÉ: 1/2") as (Hidem & Hchars & _).
  - intros r Hr. apply ValidRune_cases in Hr. apply ValidRune_cases.
    change (caseLower Demo.quiet) with Demo.latin1.
    unfold Unicode.ToLower, Demo.latin1. zsplit_all; lia.
  - intros r Hr. apply ValidRune_cases in Hr.
    change (caseLower Demo.quiet) with Demo.latin1.
    unfold Unicode.ToLower, Demo.latin1. zsplit_all; lia.
  - split; [exact Hidem|]. split; [|vm_compute; reflexivity].
    rewrite Hchars. vm_compute. reflexivity.
Defined.

(** Of the commands hello, fail, hello, [ExecuteAll] runs the first two
    and the loop of [main] all three. *)
Lemma ExecuteAll_stops_and_main_loop_continues_witness :
  let st1 := fst (ExecuteAll Demo.quiet (demoRunner Demo.quiet)
                    [Demo.hello] Demo.initial) in
  let st2 := fst (Execute Demo.quiet (demoRunner Demo.quiet)
                    Demo.failing st1) in
  ExecuteAll Demo.quiet (demoRunner Demo.quiet)
    ([Demo.hello] ++ Demo.failing :: [Demo.hello]) Demo.initial
  = (st2, Some ("command '" +:+ Name Demo.failing +:+ "' failed: " +:+
                "exit status 1")) /\
  (exists new,
      trace st2 = trace Demo.initial ++ new /\
      started new = map startBody ([Demo.hello] ++ [Demo.failing]) /\
      processesRun new
      = map (Account.proc Demo.quiet EmptyString EmptyString)
            [Demo.hello; Demo.failing]) /\
  (exists new,
      trace (fst (main.commandLoop Demo.quiet (mainClient Demo.url)
                    (demoRunner Demo.quiet)
                    ([Demo.hello] ++ Demo.failing :: [Demo.hello])
                    Demo.initial))
      = trace Demo.initial ++ new /\
      started new
      = map startBody ([Demo.hello] ++ Demo.failing :: [Demo.hello]) /\
      processesRun new
      = map (Account.proc Demo.quiet EmptyString EmptyString)
            ([Demo.hello] ++ Demo.failing :: [Demo.hello])).
Proof.
  intros st1 st2.
  destruct (ExecuteAll_stops_and_main_loop_continues
              Demo.quiet Demo.url EmptyString EmptyString
              [Demo.hello] Demo.failing [Demo.hello] Demo.initial
              st1 st2 "exit status 1")
    as (Hall & _ & (new2 & Ht2 & Hs2 & Hp2) & (new & Ht & Hs & _ & _ & Hp)).
  - vm_compute. reflexivity.
  - vm_compute. reflexivity.
  - split; [exact Hall|]. split.
    + exists new2. split; [exact Ht2|]. split; [exact Hs2|]. exact Hp2.
    + exists new. split; [exact Ht|]. split; [exact Hs|]. apply Hp.
      change (trace Demo.initial ++ new) with new in Ht. rewrite <- Ht.
      vm_compute. repeat constructor.
Defined.

Example ExecuteAll_stops_at_fail :
  snd (ExecuteAll Demo.quiet (demoRunner Demo.quiet)
         [Demo.hello; Demo.failing; Demo.hello] Demo.initial)
  = Some "command 'Fail' failed: exit status 1" /\
  processesRun
    (trace (fst (ExecuteAll Demo.quiet (demoRunner Demo.quiet)
                   [Demo.hello; Demo.failing; Demo.hello] Demo.initial)))
  = [{| Path := "echo"; Argv := ["echo"; "hello"]; Env := None;
        WorkDir := EmptyString |};
     {| Path := "false"; Argv := ["false"]; Env := None;
        WorkDir := EmptyString |}].
Proof. vm_compute. split; reflexivity. Qed.

Example main_loop_runs_all :
  processesRun
    (trace (fst (main.commandLoop Demo.quiet (mainClient Demo.url)
                   (demoRunner Demo.quiet)
                   [Demo.hello; Demo.failing; Demo.hello] Demo.initial)))
  = [{| Path := "echo"; Argv := ["echo"; "hello"]; Env := None;
        WorkDir := EmptyString |};
     {| Path := "false"; Argv := ["false"]; Env := None;
        WorkDir := EmptyString |};
     {| Path := "echo"; Argv := ["echo"; "hello"]; Env := None;
        WorkDir := EmptyString |}].
Proof. vm_compute. reflexivity. Qed.

(** With a webhook that refuses every message, the refused start
    notification is the only event. *)
Lemma failed_start_notification_aborts_witness :
  Execute Demo.deaf (demoRunner Demo.deaf) Demo.hello Demo.initial
  = ({| trace :=
          [EvPost Demo.url (startBody Demo.hello) Demo.refused];
        cmdLogger := Demo.freshLogger |},
     Some ("failed to send start message: " +:+
           "error sending message to Discord: HTTP 500 500 Internal Server Error")).
Proof.
  destruct (failed_start_notification_aborts
              Demo.deaf Demo.url EmptyString EmptyString
              Demo.hello Demo.initial
              "error sending message to Discord: HTTP 500 500 Internal Server Error")
    as (H & _); [reflexivity|].
  rewrite H. reflexivity.
Defined.

(** With a webhook that refuses the result notification of a child that
    succeeded, [Execute] returns an error and the log holds the success
    footer. *)
Lemma log_footer_follows_run_result_only_witness :
  snd (Execute Demo.lateFailure (demoRunner Demo.lateFailure)
         Demo.hello Demo.initial)
  = Some ("failed to send result message: " +:+
          "error sending message to Discord: HTTP 500 500 Internal Server Error") /\
  In ("/var/log/delivr/say-hello-2024-03-09.log",
      "Command completed successfully" +:+ nl)
     (logWrites (trace (fst (Execute Demo.lateFailure
                               (demoRunner Demo.lateFailure)
                               Demo.hello Demo.initial)))).
Proof.
  destruct (log_footer_follows_run_result_only
              Demo.lateFailure Demo.url EmptyString EmptyString
              Demo.hello Demo.initial) as (Hw & _ & _ & _ & Hret);
    [reflexivity|].
  destruct (Hret "error sending message to Discord: HTTP 500 500 Internal Server Error")
    as (Hr & _); [reflexivity | reflexivity |].
  split; [exact Hr|]. rewrite Hw. vm_compute. tauto.
Defined.

(** With no log file opened yet, the path and the writer of a name made
    of separators and dots lie in the log directory. *)
Lemma log_path_directly_in_log_directory_witness :
  snd (logger.GetLogPath Demo.quiet "../../etc/passwd" Demo.initial)
  = "/var/log/delivr/..-..-etc-passwd-2024-03-09.log" /\
  Filepath.Dir (snd (logger.GetLogPath Demo.quiet "../../etc/passwd" Demo.initial))
  = "/var/log/delivr".
Proof.
  destruct (log_path_directly_in_log_directory
              Demo.quiet "../../etc/passwd" Demo.initial)
    as (_ & (Hp & Hd) & _); [apply map_Forall_empty|].
  split; [reflexivity | exact Hd].
Defined.

End Witnesses.

(** * Further properties of the runner, the logger and the client *)

Lemma posted_app (a b : list Event) : posted (a ++ b) = posted a ++ posted b.
Proof. apply omap_app. Qed.

Lemma posted_writes (file : string) (texts : list string) :
  posted (map (EvWrite file) texts) = [].
Proof. induction texts as [|t texts IH]; [reflexivity | exact IH]. Qed.

Lemma In_run_writes (p : Process) (r : RunResult) (file : string)
  (texts : list string) :
  ~ In (EvRun p r) (map (EvWrite file) texts).
Proof.
  intros H. apply in_map_iff in H as (t & Ht & _). discriminate Ht.
Qed.

Section ExecuteMore.
Import config command.

Variables (w : World) (url wdir dhost : string).
Variables (cmd : Command) (st : State).

Local Abbreviation runner := (wiredRunner w url wdir dhost).
Local Abbreviation proc := (Account.proc w wdir dhost cmd).

Lemma proc_fields :
  Path proc = Cmd cmd /\ Argv proc = Cmd cmd :: Args cmd /\
  WorkDir proc = (if String.eqb (Dir cmd) EmptyString then wdir else Dir cmd).
Proof.
  unfold Account.proc.
  destruct (negb (String.eqb dhost EmptyString) && String.eqb (Cmd cmd) "docker"),
    (String.eqb (Dir cmd) EmptyString) eqn:Ed,
    (String.eqb wdir EmptyString) eqn:Ew,
    (Nat.ltb 0 (length (EnvVars cmd)));
    cbn; repeat split; try reflexivity;
    apply String.eqb_eq in Ew; now rewrite Ew.
Qed.

Lemma processesRun_finished :
  processesRun (Account.finished w url wdir dhost cmd st)
  = processesRun (trace st) ++ [proc].
Proof.
  unfold Account.finished, Account.afterFooter, Account.afterRun,
    Account.beforeRun, Account.afterHeaderStart, Account.afterStart,
    Account.writes.
  rewrite !processesRun_app.
  change (processesRun (EvRun ?p ?r :: ?l)) with (p :: processesRun l).
  rewrite !processesRun_writes. cbn [processesRun omap app].
  now rewrite !app_nil_r.
Qed.

(** X1.  [Execute] calls [Run] once when the start notification was
    delivered and never otherwise.  The call is for the command that
    [exec.Command] makes of the configured executable name and arguments:
    the name followed by the arguments is the argument vector, and the
    working directory is the directory of the command if that is set,
    else the global working directory, else none (the current directory).
    Whether a child process comes to exist is the answer of the system to
    that call: [Run] returns the error when the executable is not found or
    the directory does not exist. *)
Theorem Execute_calls_Run_once_for_the_configured_command :
  processesRun (trace (fst (Execute w runner cmd st)))
  = processesRun (trace st) ++
    match responseError (Account.startResp w url cmd st) with
    | Some _ => []
    | None => [proc]
    end /\
  Path proc = Cmd cmd /\
  Argv proc = Cmd cmd :: Args cmd /\
  WorkDir proc = (if String.eqb (Dir cmd) EmptyString then wdir else Dir cmd).
Proof.
  split; [|exact proc_fields].
  rewrite Execute_account.
  destruct (responseError (Account.startResp w url cmd st)).
  - cbn [fst trace]. unfold Account.afterStart.
    now rewrite processesRun_app.
  - cbn [fst trace]. apply processesRun_finished.
Qed.

(** The field [Env] as [Execute] leaves it. *)
Lemma proc_Env :
  Env proc
  = if Nat.ltb 0 (length (EnvVars cmd))
    then Some (environ w ++ EnvVars cmd)
    else if negb (String.eqb dhost EmptyString) && String.eqb (Cmd cmd) "docker"
    then Some (environ w ++ ["DOCKER_HOST=" +:+ dhost])
    else None.
Proof.
  unfold Account.proc.
  destruct (negb (String.eqb dhost EmptyString) && String.eqb (Cmd cmd) "docker"),
    (negb (String.eqb (Dir cmd) EmptyString)),
    (negb (String.eqb wdir EmptyString)),
    (Nat.ltb 0 (length (EnvVars cmd)));
    reflexivity.
Qed.

Lemma In_run_finished (p : Process) (r : RunResult) :
  In (EvRun p r) (Account.finished w url wdir dhost cmd st) ->
  In (EvRun p r) (trace st) \/ p = proc.
Proof.
  unfold Account.finished, Account.afterFooter, Account.afterRun,
    Account.beforeRun, Account.afterHeaderStart, Account.afterStart,
    Account.writes.
  intros H. repeat rewrite in_app_iff in H. cbn [In] in H.
  repeat match goal with
         | H : _ \/ _ |- _ => destruct H as [H|H]
         end;
    try discriminate H; try contradiction;
    try (exfalso; exact (In_run_writes _ _ _ _ H));
    first [now left | right; now injection H as <- _].
Qed.

(** X2.  In every call of [Run] that [Execute] makes, the field [Env] of
    the command is set as follows: to the environment of the service
    followed by the variables of the command, in their order, when the
    command has variables; else to the environment of the service followed
    by the entry for the Docker host, when a host is configured and the
    executable is [docker]; else it is left [nil], so that the child
    inherits the environment from [os/exec]. *)
Theorem Execute_sets_the_environment_field (p : Process) (r : RunResult) :
  In (EvRun p r) (trace (fst (Execute w runner cmd st))) ->
  In (EvRun p r) (trace st) \/
  Env p
  = if Nat.ltb 0 (length (EnvVars cmd))
    then Some (environ w ++ EnvVars cmd)
    else if negb (String.eqb dhost EmptyString) && String.eqb (Cmd cmd) "docker"
    then Some (environ w ++ ["DOCKER_HOST=" +:+ dhost])
    else None.
Proof.
  rewrite Execute_account.
  destruct (responseError (Account.startResp w url cmd st)); cbn [fst trace].
  - unfold Account.afterStart. rewrite in_app_iff. cbn [In].
    intros [H|[H|[]]]; [now left | discriminate H].
  - intros H. apply In_run_finished in H as [H| ->]; [now left | right].
    apply proc_Env.
Qed.

(** X3.  [Execute] posts the start notification and, when that was sent,
    the result notification after it, and nothing else; both carry the
    user name Delivr, and the result notification ends with the line that
    names the log file. *)
Theorem Execute_posts_start_then_result :
  posted (trace (fst (Execute w runner cmd st)))
  = posted (trace st) ++
    delivr (Account.startMessage cmd) ::
    match responseError (Account.startResp w url cmd st) with
    | Some _ => []
    | None => [delivr (Account.resultMessage w url wdir dhost cmd st)]
    end /\
  Username (delivr (Account.startMessage cmd)) = "Delivr" /\
  Username (delivr (Account.resultMessage w url wdir dhost cmd st)) = "Delivr" /\
  exists before,
    Account.resultMessage w url wdir dhost cmd st
    = before +:+ nl +:+ "📄 Log file: `" +:+
      snd (logger.GetLogPath w (Name cmd)
             {| trace := Account.afterFooter w url wdir dhost cmd st;
                cmdLogger := Account.loggerAfter w url cmd st |}) +:+ "`".
Proof.
  split; [|split; [reflexivity|split; [reflexivity|]]].
  - rewrite Execute_account.
    destruct (responseError (Account.startResp w url cmd st)); cbn [fst trace].
    + unfold Account.afterStart. now rewrite posted_app.
    + unfold Account.finished, Account.afterFooter, Account.afterRun,
        Account.beforeRun, Account.afterHeaderStart, Account.afterStart,
        Account.writes.
      rewrite !posted_app.
      change (posted (EvRun ?p ?r :: ?l)) with (posted l).
      rewrite !posted_writes. cbn [posted omap app].
      now rewrite <- !app_assoc.
  - eexists. unfold Account.resultMessage, Account.resultTail, Account.logPath.
    unfold logger.GetLogPath. cbn [snd trace cmdLogger].
    rewrite baseDir_loggerAfter. reflexivity.
Qed.

(** X4.  [Execute] never replaces or removes a log file that the command
    logger has opened, and leaves the entries of all other names as they
    are; once the command has run, the logger holds a file for the
    sanitized name of the command. *)
Theorem Execute_keeps_opened_log_files :
  (forall k f,
      loggers (cmdLogger st) !! k = Some f ->
      loggers (cmdLogger (fst (Execute w runner cmd st))) !! k = Some f) /\
  (forall k,
      k <> sanitizeFilename w (Name cmd) ->
      loggers (cmdLogger (fst (Execute w runner cmd st))) !! k
      = loggers (cmdLogger st) !! k) /\
  (responseError (Account.startResp w url cmd st) = None ->
   loggers (cmdLogger (fst (Execute w runner cmd st)))
     !! sanitizeFilename w (Name cmd)
   = Some (Account.logFile w url cmd st)).
Proof.
  rewrite Execute_account.
  destruct (responseError (Account.startResp w url cmd st)) as [e|];
    cbn [fst cmdLogger].
  - repeat split; auto. discriminate.
  - unfold Account.loggerAfter, Account.logFile, Account.safeName.
    destruct (loggers (cmdLogger st) !! sanitizeFilename w (Name cmd))
      as [lg|] eqn:E; cbn [loggers].
    + repeat split; auto.
    + repeat split.
      * intros k f Hk. rewrite lookup_insert_ne; [exact Hk|].
        intros <-. rewrite E in Hk. discriminate.
      * intros k Hk. now rewrite lookup_insert_ne.
      * intros _. apply lookup_insert_eq.
Qed.

End ExecuteMore.

Lemma append_cancel_l (a x y : string) : a +:+ x = a +:+ y -> x = y.
Proof.
  induction a as [|c a IH]; [auto|].
  rewrite !append_cons. intros H. injection H as H. now apply IH.
Qed.

Lemma append_cancel_r (a b c : string) : a +:+ c = b +:+ c -> a = b.
Proof.
  revert b. induction a as [|x a IH]; intros [|y b] H.
  - reflexivity.
  - apply (f_equal String.length) in H.
    rewrite !length_append in H. cbn [String.length] in H. lia.
  - apply (f_equal String.length) in H.
    rewrite !length_append in H. cbn [String.length] in H. lia.
  - rewrite !append_cons in H. injection H as -> H. f_equal. now apply IH.
Qed.

Lemma length_mapBytes (f : ascii -> ascii) (s : string) :
  String.length (mapBytes f s) = String.length s.
Proof. induction s as [|c s IH]; [reflexivity|]. cbn. now rewrite IH. Qed.

Lemma replaceSpecial_plain (x : ascii) :
  Spec.isSpecial (replaceSpecial x) = false.
Proof. destruct x as [[] [] [] [] [] [] [] []]; vm_compute; reflexivity. Qed.

Lemma sanitizeByte_plain (x : ascii) :
  (Utf8.byteZ x <? 0x80)%Z = true ->
  (Utf8.byteZ (sanitizeByte x) <? 0x80)%Z = true /\
  isUpperByte (sanitizeByte x) = false.
Proof.
  destruct x as [[] [] [] [] [] [] [] []]; intros H; vm_compute in H;
    try discriminate H; vm_compute; split; reflexivity.
Qed.

(** X5.  None of the ten characters that are replaced occurs in a
    sanitized name, whatever the bytes of the name.  The sanitized form of
    a name of ASCII bytes has the length of the name, is made of ASCII
    bytes and holds no upper-case letter. *)
Theorem sanitizeFilename_output_is_plain (w : World) (s : string) :
  (forall c, hasByte c (sanitizeFilename w s) = true ->
             Spec.isSpecial c = false) /\
  (isASCII s = true ->
   String.length (sanitizeFilename w s) = String.length s /\
   isASCII (sanitizeFilename w s) = true /\
   hasUpper (sanitizeFilename w s) = false).
Proof.
  split.
  - rewrite sanitizeFilename_replaced. intros c.
    induction (ToLower (caseLower w) s) as [|x t IH]; [discriminate|].
    cbn [mapBytes hasByte]. intros H. apply orb_true_iff in H as [H|H].
    + apply Ascii.eqb_eq in H. subst c. apply replaceSpecial_plain.
    + now apply IH.
  - intros Ha. rewrite sanitizeFilename_bytes by exact Ha.
    split; [apply length_mapBytes|].
    induction s as [|x s IH]; [split; reflexivity|].
    cbn [isASCII] in Ha. apply andb_true_iff in Ha as [Hx Hs].
    destruct (sanitizeByte_plain x Hx) as [H1 H2].
    destruct (IH Hs) as [IH1 IH2].
    cbn [mapBytes isASCII hasUpper]. now rewrite H1, H2, IH1, IH2.
Qed.

Section LoggerMore.

Variable w : World.

(** X6.  Once [GetLogWriter] has returned a writer for a name, the command
    logger returns that same writer, and changes nothing, for every name
    with the same sanitized form, in every later state in which the entry
    of that sanitized name is still the one the call left: whatever else
    has happened, whichever other files have been opened and whatever the
    date is by then. *)
Theorem GetLogWriter_reuses_the_writer (name name' : string) (st st2 : State) :
  sanitizeFilename w name' = sanitizeFilename w name ->
  loggers (cmdLogger st2) !! sanitizeFilename w name
  = loggers (cmdLogger (fst (logger.GetLogWriter w name st)))
      !! sanitizeFilename w name ->
  logger.GetLogWriter w name' st2 = (st2, snd (logger.GetLogWriter w name st)).
Proof.
  intros Hn Hl. unfold logger.GetLogWriter at 1. rewrite Hn, Hl.
  unfold logger.GetLogWriter.
  destruct (loggers (cmdLogger st) !! sanitizeFilename w name) as [lg|] eqn:E;
    cbn [fst snd cmdLogger loggers].
  - now rewrite E.
  - now rewrite lookup_insert_eq.
Qed.

(** X7.  [GetLogPath] changes nothing.  For a name whose log file the
    logger opens now, the path it reports later is the file that is
    written exactly when the date, as formatted, is still the date of the
    opening: after a change of day the reported path is another file. *)
Theorem GetLogPath_matches_file_iff_same_day (name : string) (st st2 : State) :
  loggers (cmdLogger st) !! sanitizeFilename w name = None ->
  baseDir (cmdLogger st2) = baseDir (cmdLogger st) ->
  fst (logger.GetLogPath w name st2) = st2 /\
  exists f,
    snd (logger.GetLogWriter w name st) = fileWriter f /\
    (snd (logger.GetLogPath w name st2) = Filename f <->
     Time.FormatDate (now w (trace st2)) = Time.FormatDate (now w (trace st))).
Proof.
  intros Hnew Hbase. split; [reflexivity|].
  unfold logger.GetLogWriter. rewrite Hnew. cbn [snd].
  eexists. split; [reflexivity|]. cbn [Filename snd logger.GetLogPath].
  rewrite Hbase. split.
  - intros H.
    rewrite !FilepathFacts.Join_plain, !FilepathFacts.render_snoc in H
      by apply logFileName_plain.
    apply append_cancel_l, append_cancel_l in H. unfold logFileName in H.
    apply append_cancel_l, append_cancel_l in H.
    now apply append_cancel_r in H.
  - now intros ->.
Qed.

(** X8.  With a log directory configured, [NewCommandLogger] does not need
    the home directory: it creates that directory, once, and either fails
    with the error of the creation or returns a logger on that directory
    without any open file. *)
Theorem NewCommandLogger_uses_configured_directory
  (cfg : config.LogConfig) (tr : list Event) :
  config.Directory cfg <> EmptyString ->
  exists l,
    NewCommandLogger w cfg tr
    = (tr ++ [EvMkdirAll (config.Directory cfg)
                         (mkdirAll w tr (config.Directory cfg))],
       match mkdirAll w tr (config.Directory cfg) with
       | Some e => inr ("failed to create log directory: " +:+ e)
       | None => inl l
       end) /\
    baseDir l = config.Directory cfg /\
    config.Directory (lconfig l) = config.Directory cfg /\
    loggers l = ∅.
Proof.
  intros Hd. apply String.eqb_neq in Hd. unfold NewCommandLogger. rewrite Hd.
  cbv beta iota zeta.
  set (c3 := if Z.eqb (config.MaxBackups _) 0 then _ else _).
  assert (Hdir : config.Directory c3 = config.Directory cfg).
  { unfold c3. destruct cfg as [d ms ma mb c].
    cbn [config.MaxSize config.MaxAge config.MaxBackups config.Directory].
    destruct (Z.eqb ms 0); cbn [config.MaxAge withMaxSize];
      destruct (Z.eqb ma 0); cbn [config.MaxBackups withMaxAge withMaxSize];
      destruct (Z.eqb mb 0); reflexivity. }
  rewrite Hdir.
  exists {| lconfig := c3; baseDir := config.Directory cfg; loggers := ∅ |}.
  split; [|now cbn].
  destruct (mkdirAll w tr (config.Directory cfg)); reflexivity.
Qed.

(** X9.  Without a configured log directory and without a home directory,
    [NewCommandLogger] fails before it touches the file system. *)
Theorem NewCommandLogger_needs_home_directory
  (cfg : config.LogConfig) (tr : list Event) (e : error) :
  config.Directory cfg = EmptyString ->
  userHomeDir w = inr e ->
  NewCommandLogger w cfg tr
  = (tr, inr ("failed to get home directory: " +:+ e)).
Proof.
  intros Hd Hh. unfold NewCommandLogger. now rewrite Hd, Hh.
Qed.

(** X10.  [sendWebhookMessage] posts the content once, under the user name
    Delivr, leaves the command logger alone, and returns no error exactly
    when a response arrives whose status code is in the range 200 to
    299. *)
Theorem sendWebhookMessage_succeeds_iff_2xx (url content : string) (st : State) :
  let resp := post w (trace st) url {| Content := content; Username := "Delivr" |} in
  fst (sendWebhookMessage w url content st)
  = {| trace := trace st ++
                [EvPost url {| Content := content; Username := "Delivr" |} resp];
       cmdLogger := cmdLogger st |} /\
  (snd (sendWebhookMessage w url content st) = None <->
   exists code status decoded,
     resp = Response code status decoded /\ (200 <= code < 300)%Z).
Proof.
  intros resp. split; [reflexivity|].
  unfold sendWebhookMessage. cbn [snd]. fold resp.
  destruct resp as [e|code status decoded].
  - split; [discriminate|]. intros (c & s & d & H & _). discriminate H.
  - destruct (Z.ltb code 200 || Z.leb 300 code) eqn:E.
    + split.
      * intros H. destruct decoded; discriminate H.
      * intros (c & s & d & H & Hr). injection H as <- _ _.
        apply orb_true_iff in E as [E|E];
          [apply Z.ltb_lt in E | apply Z.leb_le in E]; lia.
    + split; [|reflexivity]. intros _.
      apply orb_false_iff in E as [E1 E2].
      apply Z.ltb_ge in E1. apply Z.leb_gt in E2.
      exists code, status, decoded. split; [reflexivity | lia].
Qed.

End LoggerMore.

Section SequencesMore.
Import config command.

Variable w : World.

(** X11.  Every error that [ExecuteAll] returns comes from a first failing
    command: the commands before it succeeded one after the other, its own
    execution failed in the state they left, the final state is the one
    that execution ended in, and the error is the failure of that command
    under its name.  This holds for any implementation of the client and
    of the logger. *)
Theorem ExecuteAll_error_is_first_failure
  (r : Runner) (cmds : list Command) (st st' : State) (err : error) :
  ExecuteAll w r cmds st = (st', Some err) ->
  exists pre c rest st1 e,
    cmds = pre ++ c :: rest /\
    ExecuteAll w r pre st = (st1, None) /\
    Execute w r c st1 = (st', Some e) /\
    err = "command '" +:+ Name c +:+ "' failed: " +:+ e.
Proof.
  revert st. induction cmds as [|c cmds IH]; intros st H; [discriminate H|].
  cbn [ExecuteAll] in H. unfold bind in H.
  destruct (Execute w r c st) as [sta [e|]] eqn:E.
  - injection H as <- <-.
    exists [], c, cmds, st, e. repeat split. exact E.
  - destruct (IH sta H) as (pre & c' & rest & st1 & e & -> & Hpre & Hc & ->).
    exists (c :: pre), c', rest, st1, e. repeat split; [|exact Hc].
    cbn [ExecuteAll]. unfold bind. now rewrite E.
Qed.

(** X12.  When every command succeeds, the loop of [main] does exactly
    what [ExecuteAll] does: it ends in the same state, without any report.
    This holds for any implementation of the client and of the logger. *)
Theorem commandLoop_agrees_with_ExecuteAll_on_success
  (d : discord_bot.Client) (r : Runner) (cmds : list Command) (st st' : State) :
  ExecuteAll w r cmds st = (st', None) ->
  main.commandLoop w d r cmds st = (st', tt).
Proof.
  revert st. induction cmds as [|c cmds IH]; intros st H.
  - injection H as <-. reflexivity.
  - cbn [ExecuteAll main.commandLoop] in *. unfold bind in *.
    destruct (Execute w r c st) as [sta [e|]]; [discriminate H|].
    unfold ret. now apply IH.
Qed.

(** X13.  A client of the variant with a bot token is constructed only for
    a webhook: it is marked as one and posts to the channel it was given,
    so that sending through it is sending to that webhook, and the
    webhook-only variant accepts the same channel.  A token without a
    channel is always rejected. *)
Theorem bot_client_is_always_a_webhook
  (token channelID : string) (c : discord_bot.Client) :
  discord_bot.NewClient token channelID = inl c ->
  discord_bot.isWebhook c = true /\
  discord_bot.webhookURL c = channelID /\
  (forall content st,
      discord_bot.SendMessage w c content st
      = sendWebhookMessage w channelID content st) /\
  discord.NewClient channelID = inl {| discord.webhookURL := channelID |} /\
  (forall token', exists e, discord_bot.NewClient token' EmptyString = inr e).
Proof.
  unfold discord_bot.NewClient, discord.NewClient. intros H.
  destruct (String.eqb token EmptyString && String.eqb channelID EmptyString);
    [discriminate H|].
  destruct (HasPrefix channelID "https://discord.com/api/webhooks/") eqn:Hp;
    [|discriminate H].
  injection H as <-. cbn.
  destruct (String.eqb channelID EmptyString) eqn:Ee.
  - apply String.eqb_eq in Ee. subst. discriminate Hp.
  - repeat split. intros token'. cbn.
    destruct (String.eqb token' EmptyString); cbn; eauto.
Qed.

End SequencesMore.

(** * Locating the configuration, and [main] around the loop *)

Lemma Ext_suffix (p e : string) :
  hasByte "/" e = false -> hasByte "." e = false ->
  PathExt.Ext (p +:+ String "." e) = String "." e.
Proof.
  intros Hs Hd. induction p as [|c p IH].
  - rewrite append_empty_l. cbn [PathExt.Ext]. now rewrite Hs, Hd.
  - rewrite append_cons. cbn [PathExt.Ext].
    rewrite (hasByte_append "." p). cbn [hasByte].
    rewrite Ascii.eqb_refl. cbn [orb].
    rewrite !orb_true_r. exact IH.
Qed.

Lemma Ext_no_dot (p : string) : hasByte "." p = false -> PathExt.Ext p = EmptyString.
Proof.
  induction p as [|c p IH]; [reflexivity|]. cbn [hasByte PathExt.Ext].
  intros H. apply orb_false_iff in H as [Hc Hp]. rewrite Hp, orb_false_r.
  destruct (hasByte "/" p); [now apply IH|].
  rewrite Ascii.eqb_sym, Hc. reflexivity.
Qed.

Lemma toLowerByte_lowerChar (c : ascii) : toLowerByte c = Spec.lowerChar c.
Proof. reflexivity. Qed.

(** X14.  The format of a configuration file follows its extension alone,
    whatever precedes the last dot: the file is YAML exactly when the
    lower-case form of the extension is [.yml] or [.yaml].  For an
    extension of ASCII characters this is the extension with its letters
    from A to Z replaced by the letters from a to z, so that the
    extension counts in any letter case.  A path without any dot is not
    YAML and is therefore read as JSON. *)
Theorem isYAMLFile_follows_the_extension
  (fs : configload.Files) (p e : string) :
  hasByte "/" e = false -> hasByte "." e = false ->
  configload.isYAMLFile fs (p +:+ "." +:+ e)
  = (String.eqb (ToLower (configload.caseTable fs) ("." +:+ e)) ".yml"
     || String.eqb (ToLower (configload.caseTable fs) ("." +:+ e)) ".yaml") /\
  (isASCII e = true ->
   configload.isYAMLFile fs (p +:+ "." +:+ e)
   = (String.eqb (mapBytes Spec.lowerChar e) "yml"
      || String.eqb (mapBytes Spec.lowerChar e) "yaml")) /\
  (hasByte "." p = false -> configload.isYAMLFile fs p = false).
Proof.
  intros Hs Hd. unfold configload.isYAMLFile.
  change ("." +:+ e) with (String "." e).
  rewrite Ext_suffix by assumption.
  split; [reflexivity|]. split.
  - intros Ha.
    rewrite ToLower_ascii by (cbn [isASCII]; now rewrite Ha).
    cbn [mapBytes]. now rewrite (mapBytes_ext _ _ e toLowerByte_lowerChar).
  - intros H. now rewrite Ext_no_dot.
Qed.

Section ConfigLoad.
Import configload.

Variable fs : Files.

Lemma statOk_exists (p : string) :
  statOk fs p = true -> statNotExist fs p = false.
Proof. unfold statOk, statNotExist. now destruct (stat fs p). Qed.

Lemma default_missing_no_deprecated :
  statNotExist fs (DefaultConfigPath fs) = true ->
  statOk fs "config.yml" = false /\ statOk fs "config.json" = false.
Proof.
  unfold DefaultConfigPath.
  destruct (statOk fs ".delivr.yml") eqn:E1;
    [intros H; now rewrite (statOk_exists _ E1) in H|].
  destruct (statOk fs ".delivr.json") eqn:E2;
    [intros H; now rewrite (statOk_exists _ E2) in H|].
  destruct (statOk fs "config.yml") eqn:E3;
    [intros H; now rewrite (statOk_exists _ E3) in H|].
  destruct (statOk fs "config.json") eqn:E4;
    [intros H; now rewrite (statOk_exists _ E4) in H|].
  now split.
Qed.

(** [Load] reads the configuration at the resolved path: the file looked
    for under the deprecated names is never another one. *)
Lemma Load_eq (customPath : string) (st : Loader) :
  Load fs customPath st
  = match readConfig fs (resolvedPath fs customPath) with
    | inl config =>
        ({| loadedConfigPath := resolvedPath fs customPath;
            printed := printed st |}, inl config)
    | inr e => (st, inr e)
    end.
Proof.
  assert (Hfrom : forall p,
    (if statNotExist fs p then
       (st, inr ("configuration file not found: " +:+ p))
     else
       match readFile fs p with
       | inr e => (st, inr e)
       | inl data =>
           if isYAMLFile fs p then
             match yamlUnmarshal fs data with
             | inr e => (st, inr ("error parsing YAML config: " +:+ e))
             | inl config =>
                 ({| loadedConfigPath := p; printed := printed st |}, inl config)
             end
           else
             match jsonUnmarshal fs data with
             | inr e => (st, inr ("error parsing JSON config: " +:+ e))
             | inl config =>
                 ({| loadedConfigPath := p; printed := printed st |}, inl config)
             end
       end)
    = match readConfig fs p with
      | inl config =>
          ({| loadedConfigPath := p; printed := printed st |}, inl config)
      | inr e => (st, inr e)
      end).
  { intros p. unfold readConfig.
    destruct (statNotExist fs p); [reflexivity|].
    destruct (readFile fs p) as [data|e]; [|reflexivity].
    destruct (isYAMLFile fs p);
      [destruct (yamlUnmarshal fs data) | destruct (jsonUnmarshal fs data)];
      reflexivity. }
  unfold Load, resolvedPath.
  destruct (String.eqb customPath EmptyString); cbn [negb andb];
    [|apply Hfrom].
  destruct (String.eqb (getenv fs "DELIVR_CONFIG") EmptyString); cbn [negb];
    [|apply Hfrom].
  destruct (statNotExist fs (DefaultConfigPath fs)) eqn:Hm; [|apply Hfrom].
  destruct (default_missing_no_deprecated Hm) as [-> ->]. apply Hfrom.
Qed.

(** X15.  [DefaultConfigPath] returns the first of its candidates that
    [os.Stat] finds, in the order hidden YAML, hidden JSON, plain YAML,
    plain JSON and then the two files of the home directory, which are
    skipped when the home directory is unknown; when it finds none it
    returns the hidden YAML name.  So a result that does not exist can only
    be that name, with every candidate missing. *)
Theorem DefaultConfigPath_is_first_existing_candidate :
  DefaultConfigPath fs
  = default ".delivr.yml" (List.find (statOk fs) (candidates fs)) /\
  (statOk fs (DefaultConfigPath fs) = false ->
   DefaultConfigPath fs = ".delivr.yml" /\
   Forall (fun p => statOk fs p = false) (candidates fs)).
Proof.
  assert (Hfind : DefaultConfigPath fs
                  = default ".delivr.yml"
                            (List.find (statOk fs) (candidates fs))).
  { unfold DefaultConfigPath, candidates, default.
    cbn [app List.find].
    destruct (statOk fs ".delivr.yml"); [reflexivity|].
    destruct (statOk fs ".delivr.json"); [reflexivity|].
    destruct (statOk fs "config.yml"); [reflexivity|].
    destruct (statOk fs "config.json"); [reflexivity|].
    destruct (homeDir fs) as [home|e]; [|reflexivity]. cbn [List.find].
    destruct (statOk fs (Filepath.Join [home; ".delivr"; "config.yml"]));
      [reflexivity|].
    destruct (statOk fs (Filepath.Join [home; ".delivr"; "config.json"]));
      reflexivity. }
  split; [exact Hfind|]. rewrite Hfind.
  destruct (List.find (statOk fs) (candidates fs)) as [p|] eqn:E;
    unfold default; cbn [from_option id].
  - apply List.find_some in E as [_ E]. intros H. congruence.
  - intros _. split; [reflexivity|]. apply List.Forall_forall. intros p Hp.
    exact (List.find_none _ _ E p Hp).
Qed.

(** X16.  [Load] never prints the warning about a deprecated file name and
    never falls back to one: whenever the default path is missing, neither
    [config.yml] nor [config.json] exists, since [DefaultConfigPath] would
    have returned it.  The configuration is read at the explicit path, else
    at the path of the variable DELIVR_CONFIG, else at the default path. *)
Theorem Load_never_warns_about_deprecated_names
  (customPath : string) (st : Loader) :
  printed (fst (Load fs customPath st)) = printed st /\
  (statNotExist fs (DefaultConfigPath fs) = true ->
   statOk fs "config.yml" = false /\ statOk fs "config.json" = false) /\
  snd (Load fs customPath st) = readConfig fs (resolvedPath fs customPath).
Proof.
  rewrite Load_eq. split; [|split].
  - now destruct (readConfig fs (resolvedPath fs customPath)).
  - apply default_missing_no_deprecated.
  - now destruct (readConfig fs (resolvedPath fs customPath)).
Qed.

(** X17.  A successful [Load] records the path it read, which is the
    explicit path if one is given, else the value of DELIVR_CONFIG if it
    is set, else the default path; that file is not reported missing, it
    was read, and its text decoded to the configuration returned, as YAML
    exactly when the path has a YAML extension. *)
Theorem Load_success_records_the_path_read
  (customPath : string) (st st' : Loader) (config : Config) :
  Load fs customPath st = (st', inl config) ->
  GetLoadedConfigPath st' = resolvedPath fs customPath /\
  printed st' = printed st /\
  statNotExist fs (resolvedPath fs customPath) = false /\
  exists data,
    readFile fs (resolvedPath fs customPath) = inl data /\
    (if isYAMLFile fs (resolvedPath fs customPath)
     then yamlUnmarshal fs data else jsonUnmarshal fs data) = inl config.
Proof.
  rewrite Load_eq. unfold readConfig.
  set (p := resolvedPath fs customPath).
  destruct (statNotExist fs p); [discriminate|].
  destruct (readFile fs p) as [data|e]; [|discriminate].
  destruct (isYAMLFile fs p) eqn:Ey.
  - destruct (yamlUnmarshal fs data) as [c|e] eqn:Eu; [|discriminate].
    intros H. injection H as <- <-. repeat split. exists data. now split.
  - destruct (jsonUnmarshal fs data) as [c|e] eqn:Eu; [|discriminate].
    intros H. injection H as <- <-. repeat split. exists data. now split.
Qed.

(** X18.  A failing [Load] changes nothing: the recorded path is the one of
    the last successful load and nothing is printed.  When the resolved
    path is reported missing, the error names that path and the file is
    not read; a path whose status cannot be determined for another reason
    is not reported as missing. *)
Theorem Load_failure_keeps_the_recorded_path
  (customPath : string) (st st' : Loader) (e : error) :
  Load fs customPath st = (st', inr e) ->
  st' = st /\
  (statNotExist fs (resolvedPath fs customPath) = true ->
   e = "configuration file not found: " +:+ resolvedPath fs customPath) /\
  (statNotExist fs (resolvedPath fs customPath) = false ->
   readFile fs (resolvedPath fs customPath) = inr e \/
   exists data e',
     readFile fs (resolvedPath fs customPath) = inl data /\
     (if isYAMLFile fs (resolvedPath fs customPath)
      then yamlUnmarshal fs data = inr e' /\
           e = "error parsing YAML config: " +:+ e'
      else jsonUnmarshal fs data = inr e' /\
           e = "error parsing JSON config: " +:+ e')).
Proof.
  rewrite Load_eq. unfold readConfig.
  set (p := resolvedPath fs customPath).
  destruct (statNotExist fs p).
  - intros H. injection H as <- <-. repeat split. discriminate.
  - destruct (readFile fs p) as [data|e0].
    + destruct (isYAMLFile fs p) eqn:Ey.
      * destruct (yamlUnmarshal fs data) as [c|e0] eqn:Eu; [discriminate|].
        intros H. injection H as <- <-.
        split; [reflexivity|]. split; [discriminate|]. intros _. right.
        exists data, e0. split; [reflexivity|]. now split.
      * destruct (jsonUnmarshal fs data) as [c|e0] eqn:Eu; [discriminate|].
        intros H. injection H as <- <-.
        split; [reflexivity|]. split; [discriminate|]. intros _. right.
        exists data, e0. split; [reflexivity|]. now split.
    + intros H. injection H as <- <-.
      split; [reflexivity|]. split; [discriminate|]. intros _. now left.
Qed.

End ConfigLoad.

Section Startup.
Import config configjson startup.

Variable w : World.

Lemma NewClient_webhook (token channelID : string) :
  HasPrefix channelID "https://discord.com/api/webhooks/" = true ->
  discord_bot.NewClient token channelID = inl (mainClient channelID).
Proof.
  intros Hp. unfold discord_bot.NewClient. rewrite Hp.
  destruct (String.eqb channelID EmptyString) eqn:E.
  - apply String.eqb_eq in E. subst. discriminate Hp.
  - now rewrite andb_false_r.
Qed.

Lemma sendOrWarn_effect (url content warning : string) (st : State) :
  exists new,
    fst (sendOrWarn w (mainClient url) content warning st)
    = {| trace := trace st ++ new; cmdLogger := cmdLogger st |} /\
    posted new = [delivr content] /\
    processesRun new = [] /\ logWrites new = [].
Proof.
  unfold sendOrWarn, bind, discord_bot.SendMessage. cbn [discord_bot.isWebhook
    discord_bot.webhookURL mainClient].
  rewrite sendWebhookMessage_eq.
  destruct (responseError _) as [e|].
  - eexists [_; _]. unfold logPrintf, emit. cbn [fst trace cmdLogger].
    rewrite <- app_assoc. repeat split.
  - eexists [_]. unfold ret, emit. cbn [fst]. repeat split.
Qed.

Lemma NewCommandLogger_events (cfg : LogConfig) (tr tr' : list Event)
  (r : CommandLogger + error) :
  NewCommandLogger w cfg tr = (tr', r) ->
  exists new, tr' = tr ++ new /\
    posted new = [] /\ processesRun new = [] /\ logWrites new = [].
Proof.
  unfold NewCommandLogger.
  destruct (if String.eqb (Directory cfg) EmptyString then _ else _)
    as [cfg'|e].
  - cbv zeta. destruct (mkdirAll w tr _); intros H; injection H as <- _;
      eexists [_]; repeat split.
  - intros H. injection H as <- _. exists []. now rewrite app_nil_r.
Qed.

(** X19.  With a channel that is not a Discord webhook URL, [main] ends at
    once with a fatal error: the line on the console is its only effect, so
    nothing is posted, no log directory is created and no command runs,
    in either mode. *)
Theorem main_stops_on_a_channel_that_is_no_webhook
  (daemonMode : bool) (cfg : Config) (tr : list Event) :
  HasPrefix (ChannelID (Discord cfg)) "https://discord.com/api/webhooks/"
  = false ->
  exists e,
    main w daemonMode cfg tr
    = ({| trace := tr ++ [EvConsole ("Failed to initialize Discord client: "
                                     +:+ e)];
          cmdLogger := noLogger |}, Fatal).
Proof.
  intros Hp. unfold main, discord_bot.NewClient. rewrite Hp.
  destruct (_ && _); eexists; reflexivity.
Qed.

(** X20.  When the command logger cannot be created, [main] ends with a
    fatal error after the startup message: that message is the only one
    posted, the fatal line is the last event, and no command runs and no
    log is written, in either mode. *)
Theorem main_announces_startup_before_logger_failure
  (daemonMode : bool) (cfg : Config) (tr tr2 : list Event) (e : error) :
  HasPrefix (ChannelID (Discord cfg)) "https://discord.com/api/webhooks/"
  = true ->
  NewCommandLogger w (Logs cfg)
    (trace (startupState w (ChannelID (Discord cfg)) tr)) = (tr2, inr e) ->
  snd (main w daemonMode cfg tr) = Fatal /\
  exists new,
    trace (fst (main w daemonMode cfg tr)) = tr ++ new /\
    posted new = [delivr "🚀 Delivr service started"] /\
    processesRun new = [] /\
    logWrites new = [] /\
    last new = Some (EvConsole ("Failed to initialize logger: " +:+ e)).
Proof.
  intros Hp Hl. unfold main. rewrite (NewClient_webhook _ _ Hp).
  unfold startupState in Hl.
  destruct (sendOrWarn_effect (ChannelID (Discord cfg))
              "🚀 Delivr service started"
              "Warning: Could not send startup message: "
              {| trace := tr; cmdLogger := noLogger |})
    as (n1 & H1 & Hp1 & Hr1 & Hw1).
  destruct (sendOrWarn w _ _ _ _) as [st1 u]. cbn [fst] in H1, Hl. subst st1.
  cbn [trace] in Hl |- *. rewrite Hl.
  destruct (NewCommandLogger_events _ _ _ _ Hl) as (n2 & -> & Hp2 & Hr2 & Hw2).
  split; [reflexivity|]. unfold emit. cbn [fst trace].
  eexists. split; [rewrite <- !app_assoc; reflexivity|].
  rewrite !posted_app, !processesRun_app, !logWrites_app.
  rewrite Hp1, Hp2, Hr1, Hr2, Hw1, Hw2. repeat split.
  now rewrite app_assoc, last_snoc.
Qed.

(** X21.  With a webhook channel and a command logger, [main] posts the
    startup message first and then starts every configured command, in the
    order of the configuration, whether or not commands fail.  The children
    it runs are those of the loop with the runner built from the configured
    working directory and Docker host.  Without daemon mode it posts the
    completion message last and returns; in daemon mode it goes on to wait
    for a signal.  The log files opened lie in the log directory. *)
Theorem main_starts_every_configured_command
  (daemonMode : bool) (cfg : Config) (tr tr2 : list Event) (l : CommandLogger) :
  HasPrefix (ChannelID (Discord cfg)) "https://discord.com/api/webhooks/"
  = true ->
  NewCommandLogger w (Logs cfg)
    (trace (startupState w (ChannelID (Discord cfg)) tr)) = (tr2, inl l) ->
  snd (main w daemonMode cfg tr) = (if daemonMode then Waiting else Returned) /\
  cacheInside (cmdLogger (fst (main w daemonMode cfg tr))) /\
  exists new,
    trace (fst (main w daemonMode cfg tr)) = tr ++ new /\
    started new = map startBody (Commands cfg) /\
    head (posted new) = Some (delivr "🚀 Delivr service started") /\
    (daemonMode = false ->
     last (posted new)
     = Some (delivr "✅ Delivr - Toutes les commandes ont été exécutées")) /\
    processesRun (tr ++ new)
    = processesRun
        (trace (fst (main.commandLoop w
                       (mainClient (ChannelID (Discord cfg)))
                       (wiredRunner w (ChannelID (Discord cfg))
                                    (WorkingDir cfg) (Host (Docker cfg)))
                       (Commands cfg)
                       {| trace := tr2; cmdLogger := l |}))).
Proof.
  intros Hp Hl. unfold main. rewrite (NewClient_webhook _ _ Hp).
  set (url := ChannelID (Discord cfg)) in *.
  unfold startupState in Hl.
  destruct (sendOrWarn_effect url "🚀 Delivr service started"
              "Warning: Could not send startup message: "
              {| trace := tr; cmdLogger := noLogger |})
    as (n1 & H1 & Hp1 & Hr1 & Hw1).
  destruct (sendOrWarn w _ _ _ _) as [st1 u]. cbn [fst] in H1, Hl. subst st1.
  cbn [trace] in Hl |- *. rewrite Hl.
  destruct (NewCommandLogger_events _ _ _ _ Hl) as (n2 & -> & Hp2 & Hr2 & Hw2).
  assert (Hhost : (if negb (String.eqb (Host (Docker cfg)) EmptyString)
                   then Host (Docker cfg) else EmptyString)
                  = Host (Docker cfg)).
  { destruct (String.eqb (Host (Docker cfg)) EmptyString) eqn:E;
      [|reflexivity]. apply String.eqb_eq in E. now rewrite E. }
  rewrite Hhost. rewrite <- wiredRunner_main.
  pose proof (NewCommandLogger_cacheInside _ _ _ _ _ Hl) as Hc.
  destruct (commandLoop_effect w url (WorkingDir cfg) (Host (Docker cfg))
              (Commands cfg)
              {| trace := (tr ++ n1) ++ n2; cmdLogger := l |})
    as (n3 & Ht3 & Hs3 & Hc3).
  specialize (Hc3 Hc).
  destruct (main.commandLoop w _ _ _ _) as [st3 u3]. cbn [fst trace] in *.
  assert (Hstart1 : started n1 = []).
  { unfold started. now rewrite Hp1. }
  assert (Hstart2 : started n2 = []).
  { unfold started. now rewrite Hp2. }
  destruct daemonMode; cbn [negb].
  - split; [reflexivity|]. unfold emit. cbn [fst trace cmdLogger snd].
    split; [exact Hc3|]. rewrite Ht3.
    eexists. split; [rewrite <- !app_assoc; reflexivity|].
    rewrite !started_app, !posted_app, !processesRun_app.
    rewrite Hstart1, Hstart2, Hp1, Hp2, Hr1, Hr2.
    repeat split; [now rewrite app_nil_r | discriminate |].
    cbn [app processesRun omap]. now rewrite !app_nil_r.
  - unfold bind.
    destruct (sendOrWarn_effect url
                "✅ Delivr - Toutes les commandes ont été exécutées"
                "Warning: Could not send completion message: " st3)
      as (n4 & H4 & Hp4 & Hr4 & Hw4).
    destruct (sendOrWarn w _ _ _ _) as [st4 u4]. cbn [fst] in H4. subst st4.
    unfold logPrintf, emit. cbn [fst snd trace cmdLogger].
    split; [reflexivity|]. split; [exact Hc3|]. rewrite Ht3.
    eexists. split; [rewrite <- !app_assoc; reflexivity|].
    rewrite !started_app, !posted_app, !processesRun_app.
    assert (Hstart4 : started n4 = []).
    { unfold started. now rewrite Hp4. }
    rewrite Hstart1, Hstart2, Hstart4, Hp1, Hp2, Hp4, Hr1, Hr2, Hr4.
    repeat split.
    + now rewrite !app_nil_r.
    + intros _. cbn [app].
      change (posted [EvConsole "All commands executed, shutting down..."])
        with (@nil Message).
      rewrite app_comm_cons.
      apply last_snoc.
    + cbn [app processesRun omap]. now rewrite !app_nil_r.
Qed.

End Startup.

Section FurtherWitnesses.
Import config command.

Local Abbreviation sampleRunner :=
  (wiredRunner Demo.quiet Demo.url EmptyString EmptyString).

(** A Docker command without variables of its own is given the
    environment of the service and the configured Docker host. *)
Lemma Execute_sets_the_environment_field_witness :
  Env (Account.proc Demo.quiet EmptyString "tcp://10.0.0.5:2375"
                    Samples.dockerVersion)
  = Some ["PATH=/usr/bin"; "DOCKER_HOST=tcp://10.0.0.5:2375"].
Proof.
  destruct (Execute_sets_the_environment_field
              Demo.quiet Demo.url EmptyString "tcp://10.0.0.5:2375"
              Samples.dockerVersion Demo.initial
              (Account.proc Demo.quiet EmptyString "tcp://10.0.0.5:2375"
                            Samples.dockerVersion)
              (Demo.runs (Account.proc Demo.quiet EmptyString
                                       "tcp://10.0.0.5:2375"
                                       Samples.dockerVersion)))
    as [H|H].
  - vm_compute. repeat (first [left; reflexivity | right]).
  - destruct H.
  - rewrite H. reflexivity.
Defined.

(** The writer opened for Say Hello serves say/hello as well, also after
    the log of another command has been opened. *)
Lemma GetLogWriter_reuses_the_writer_witness :
  let st2 :=
    fst (logger.GetLogWriter Demo.quiet "Fail"
           (fst (logger.GetLogWriter Demo.quiet "Say Hello" Demo.initial))) in
  logger.GetLogWriter Demo.quiet "say/hello" st2
  = (st2, snd (logger.GetLogWriter Demo.quiet "Say Hello" Demo.initial)).
Proof.
  intros st2.
  apply GetLogWriter_reuses_the_writer; vm_compute; reflexivity.
Defined.

(** On the day the file is opened, the reported path is the file. *)
Lemma GetLogPath_matches_file_iff_same_day_witness :
  exists f,
    snd (logger.GetLogWriter Demo.quiet "Say Hello" Demo.initial)
    = fileWriter f /\
    snd (logger.GetLogPath Demo.quiet "Say Hello" Demo.initial) = Filename f.
Proof.
  destruct (GetLogPath_matches_file_iff_same_day
              Demo.quiet "Say Hello" Demo.initial Demo.initial)
    as (_ & f & Hf & Hiff); [vm_compute; reflexivity | reflexivity |].
  exists f. split; [exact Hf|]. apply Hiff. reflexivity.
Defined.

(** The directory of the generated default configuration is used as given. *)
Lemma NewCommandLogger_uses_configured_directory_witness :
  exists l,
    NewCommandLogger Demo.quiet Samples.logsHere []
    = ([EvMkdirAll "./logs" None], inl l) /\
    baseDir l = "./logs".
Proof.
  destruct (NewCommandLogger_uses_configured_directory
              Demo.quiet Samples.logsHere [])
    as (l & H & Hb & _); [discriminate|].
  exists l. split; [exact H | exact Hb].
Defined.

(** Without a home directory and without a configured directory there is
    no command logger. *)
Lemma NewCommandLogger_needs_home_directory_witness :
  NewCommandLogger Samples.homeless Demo.unset []
  = ([], inr "failed to get home directory: $HOME is not defined").
Proof.
  apply (NewCommandLogger_needs_home_directory
           Samples.homeless Demo.unset [] "$HOME is not defined");
    reflexivity.
Defined.

(** Of hello, fail, hello the error of [ExecuteAll] is that of fail. *)
Lemma ExecuteAll_error_is_first_failure_witness :
  exists pre c rest st1 e,
    [Demo.hello; Demo.failing; Demo.hello] = pre ++ c :: rest /\
    ExecuteAll Demo.quiet sampleRunner pre Demo.initial = (st1, None) /\
    Execute Demo.quiet sampleRunner c st1
    = (fst (ExecuteAll Demo.quiet sampleRunner
              [Demo.hello; Demo.failing; Demo.hello] Demo.initial), Some e) /\
    "command 'Fail' failed: exit status 1"
    = "command '" +:+ Name c +:+ "' failed: " +:+ e.
Proof.
  apply (ExecuteAll_error_is_first_failure
           Demo.quiet sampleRunner [Demo.hello; Demo.failing; Demo.hello]
           Demo.initial).
  vm_compute. reflexivity.
Defined.

(** Two commands that succeed: the loop of [main] and [ExecuteAll] agree. *)
Lemma commandLoop_agrees_with_ExecuteAll_on_success_witness :
  main.commandLoop Demo.quiet (mainClient Demo.url) sampleRunner
    [Demo.hello; Demo.hello] Demo.initial
  = (fst (ExecuteAll Demo.quiet sampleRunner [Demo.hello; Demo.hello]
            Demo.initial), tt).
Proof.
  apply commandLoop_agrees_with_ExecuteAll_on_success.
  vm_compute. reflexivity.
Defined.

(** The client that [main] obtains for a webhook without a token. *)
Lemma bot_client_is_always_a_webhook_witness :
  discord_bot.isWebhook (mainClient Demo.url) = true /\
  discord_bot.webhookURL (mainClient Demo.url) = Demo.url.
Proof.
  destruct (bot_client_is_always_a_webhook
              Demo.quiet EmptyString Demo.url (mainClient Demo.url))
    as (H1 & H2 & _); [reflexivity|].
  split; [exact H1 | exact H2].
Defined.

(** An extension in mixed case. *)
Lemma isYAMLFile_follows_the_extension_witness :
  configload.isYAMLFile Samples.files "conf/delivr.yMl" = true /\
  configload.isYAMLFile Samples.files "conf/delivr.YAML" = true /\
  configload.isYAMLFile Samples.files "conf/delivr.json" = false.
Proof.
  destruct (isYAMLFile_follows_the_extension
              Samples.files "conf/delivr" "yMl") as (_ & H1 & _);
    [reflexivity | reflexivity |].
  destruct (isYAMLFile_follows_the_extension
              Samples.files "conf/delivr" "YAML") as (_ & H2 & _);
    [reflexivity | reflexivity |].
  destruct (isYAMLFile_follows_the_extension
              Samples.files "conf/delivr" "json") as (_ & H3 & _);
    [reflexivity | reflexivity |].
  split; [exact (H1 eq_refl)|]. split; [exact (H2 eq_refl) | exact (H3 eq_refl)].
Defined.

(** In a directory that holds [config.yml] alone, [Load] without a path
    reads that file as YAML and records its name. *)
Lemma Load_success_records_the_path_read_witness :
  configload.resolvedPath Samples.files EmptyString = "config.yml" /\
  configload.GetLoadedConfigPath
    (fst (configload.Load Samples.files EmptyString Samples.nothingLoaded))
  = configload.resolvedPath Samples.files EmptyString.
Proof.
  destruct (Load_success_records_the_path_read
              Samples.files EmptyString Samples.nothingLoaded
              (fst (configload.Load Samples.files EmptyString
                      Samples.nothingLoaded))
              Samples.loaded)
    as (H & _); [vm_compute; reflexivity|].
  split; [reflexivity | exact H].
Defined.

(** An explicit path to a file that does not exist. *)
Lemma Load_failure_keeps_the_recorded_path_witness :
  fst (configload.Load Samples.files "missing.json" Samples.nothingLoaded)
  = Samples.nothingLoaded.
Proof.
  destruct (Load_failure_keeps_the_recorded_path
              Samples.files "missing.json" Samples.nothingLoaded
              (fst (configload.Load Samples.files "missing.json"
                      Samples.nothingLoaded))
              "configuration file not found: missing.json")
    as (H & _); [vm_compute; reflexivity|].
  exact H.
Defined.

(** The identifier of a channel is refused before anything is sent. *)
Lemma main_stops_on_a_channel_that_is_no_webhook_witness :
  exists e,
    startup.main Demo.quiet false Samples.channelOnly []
    = ({| trace := [] ++ [EvConsole ("Failed to initialize Discord client: "
                                     +:+ e)];
          cmdLogger := startup.noLogger |}, startup.Fatal).
Proof.
  apply (main_stops_on_a_channel_that_is_no_webhook
           Demo.quiet false Samples.channelOnly []).
  reflexivity.
Defined.

(** Without a home directory and without a configured log directory,
    [main] ends after the startup message. *)
Lemma main_announces_startup_before_logger_failure_witness :
  snd (startup.main Samples.homeless false Samples.noLogs []) = startup.Fatal.
Proof.
  destruct (main_announces_startup_before_logger_failure
              Samples.homeless false Samples.noLogs []
              (trace (startup.startupState Samples.homeless Demo.url []))
              "failed to get home directory: $HOME is not defined")
    as (H & _); [reflexivity | vm_compute; reflexivity |].
  exact H.
Defined.

(** Of hello, fail, hello every command is started, and [main] returns. *)
Lemma main_starts_every_configured_command_witness :
  snd (startup.main Demo.quiet false Samples.settings []) = startup.Returned /\
  exists new,
    trace (fst (startup.main Demo.quiet false Samples.settings [])) = [] ++ new /\
    started new = map startBody [Demo.hello; Demo.failing; Demo.hello].
Proof.
  destruct (main_starts_every_configured_command
              Demo.quiet false Samples.settings []
              (fst (NewCommandLogger Demo.quiet Samples.logsHere
                      (trace (startup.startupState Demo.quiet Demo.url []))))
              {| lconfig := Samples.logsHere; baseDir := "./logs";
                 loggers := ∅ |})
    as (H & _ & new & Ht & Hs & _);
    [reflexivity | vm_compute; reflexivity |].
  split; [exact H|]. exists new. split; [exact Ht | exact Hs].
Defined.

End FurtherWitnesses.
